(** * SIHapi: the similarity matcher and the mapping generator

    A shallow embedding of [SimilarityMatcher] (the class that scores a
    NAMASTE term against ICD-11 entries with fuzzball, ranks the
    candidates and stores the mappings in the [concept_mappings] table),
    followed by the properties of the ranking and of the persistence. *)

From Stdlib Require Import Floats ZArith List String Ascii Bool Lia.
From Stdlib Require Import Sorted Permutation DecimalString.
Import ListNotations.

Set Warnings "-inexact-float".

Local Open Scope string_scope.
Local Open Scope list_scope.

(** ** The host language

    The pieces of JavaScript the matcher relies on.  A text is a
    sequence of UTF-16 code units; the model covers the code units
    below 256, one [ascii] each.  A number is an IEEE 754 binary64
    value, which is what [float] is. *)

Module JS.

(** A value that is a string, [null] or [undefined]. *)
Inductive text : Type :=
| Null
| Undefined
| Str (s : string).

(** [ToBoolean] on such a value: only a non-empty string is truthy. *)
Definition truthy (t : text) : bool :=
  match t with
  | Str s => negb (s =? "")
  | _ => false
  end.

(** [a || b] *)
Definition or (a b : text) : text := if truthy a then a else b.

Definition code_unit (c : ascii) : N := N_of_ascii c.

(** The class [\w]: [A-Za-z0-9_]. *)
Definition is_word (c : ascii) : bool :=
  let n := code_unit c in
  ((65 <=? n) && (n <=? 90) || (97 <=? n) && (n <=? 122)
   || (48 <=? n) && (n <=? 57) || (n =? 95))%N.

(** The class [\s], which is also what [trim] strips: TAB, LF, VT, FF,
    CR, SPACE and NO-BREAK SPACE are its members below 256. *)
Definition is_space (c : ascii) : bool :=
  let n := code_unit c in
  ((9 <=? n) && (n <=? 13) || (n =? 32) || (n =? 160))%N.

(** [toLowerCase] on one code unit: [A-Z], and the Latin-1 capitals
    U+00C0..U+00DE except the multiplication sign U+00D7. *)
Definition lower_unit (c : ascii) : ascii :=
  let n := code_unit c in
  if ((65 <=? n) && (n <=? 90)
      || (192 <=? n) && (n <=? 222) && negb (n =? 215))%N
  then ascii_of_N (n + 32)
  else c.

Fixpoint map_units (f : ascii -> ascii) (s : string) : string :=
  match s with
  | EmptyString => EmptyString
  | String c s' => String (f c) (map_units f s')
  end.

Definition toLowerCase (s : string) : string := map_units lower_unit s.

(** [s.replace(/[^\w\s]/g, ' ')]: every match is one code unit. *)
Definition replace_non_word_space (s : string) : string :=
  map_units (fun c => if is_word c || is_space c then c else " "%char) s.

(** [s.replace(/\s+/g, ' ')]: the scanner emits one space where a run
    of white space starts and skips the rest of the run ([in_run]). *)
Fixpoint replace_space_runs_from (in_run : bool) (s : string) : string :=
  match s with
  | EmptyString => EmptyString
  | String c s' =>
      if is_space c
      then if in_run
           then replace_space_runs_from true s'
           else String " "%char (replace_space_runs_from true s')
      else String c (replace_space_runs_from false s')
  end.

Definition replace_space_runs (s : string) : string :=
  replace_space_runs_from false s.

Fixpoint trimStart (s : string) : string :=
  match s with
  | EmptyString => EmptyString
  | String c s' => if is_space c then trimStart s' else s
  end.

Fixpoint trimEnd (s : string) : string :=
  match s with
  | EmptyString => EmptyString
  | String c s' =>
      match trimEnd s' with
      | EmptyString => if is_space c then EmptyString else String c EmptyString
      | r => String c r
      end
  end.

Definition trim (s : string) : string := trimEnd (trimStart s).

(** [parts.join(' ')] *)
Fixpoint join (sep : string) (parts : list string) : string :=
  match parts with
  | [] => ""
  | [p] => p
  | p :: rest => (p ++ sep ++ join sep rest)%string
  end.

(** [xs.slice(0, end)] for an integer [end]: a negative [end] counts
    from the end of the array. *)
Definition slice0 {A} (xs : list A) (end_ : Z) : list A :=
  let len := Z.of_nat (List.length xs) in
  let final := if (end_ <? 0)%Z then Z.max (len + end_) 0 else Z.min end_ len in
  firstn (Z.to_nat final) xs.

(** [xs.sort(cmp)].  The sort is stable; [cmp a b > 0] asks for [a]
    after [b], and a [NaN] from the comparator counts as [0].  An
    element is inserted in front of the sorted rest and moves right
    only past elements it has to come after. *)
Fixpoint sort_insert {A} (cmp : A -> A -> float) (x : A) (sorted : list A)
  : list A :=
  match sorted with
  | [] => [x]
  | y :: rest =>
      if (0 <? cmp x y)%float
      then y :: sort_insert cmp x rest
      else x :: y :: rest
  end.

Fixpoint sort {A} (cmp : A -> A -> float) (xs : list A) : list A :=
  match xs with
  | [] => []
  | x :: rest => sort_insert cmp x (sort cmp rest)
  end.

(** [xs.reduce((acc, x, index) => f acc x index, init)] *)
Fixpoint reduce_from {A B} (f : B -> A -> nat -> B) (index : nat)
    (xs : list A) (acc : B) : B :=
  match xs with
  | [] => acc
  | x :: rest => reduce_from f (S index) rest (f acc x index)
  end.

Definition reduce {A B} (f : B -> A -> nat -> B) (xs : list A) (init : B) : B :=
  reduce_from f 0 xs init.

(** [xs[i]] on an array of numbers, where a missing element turns into
    [NaN] in arithmetic. *)
Definition at_ (xs : list float) (i : nat) : float := nth i xs nan.

End JS.

(** ** fuzzball

    The four metrics of the fuzzball package that the matcher calls.
    The package is not part of the repository: the matcher is modelled
    over any implementation of its interface. *)

Record Fuzzball : Type := {
  ratio : string -> string -> float;
  partial_ratio : string -> string -> float;
  token_sort_ratio : string -> string -> float;
  token_set_ratio : string -> string -> float
}.

(** ** The records the matcher reads and builds *)

(** A NAMASTE or ICD-11 code object; a field that is absent is
    [JS.Undefined], an absent array is [None]. *)
Module Code.
Record t : Type := {
  code : JS.text;
  id : JS.text;
  display : JS.text;
  title : JS.text;
  name_english : JS.text;
  description : JS.text;
  definition : JS.text;
  longDefinition : JS.text;
  namc_term : JS.text;
  short_definition : JS.text;
  long_definition : JS.text;
  synonym : option (list JS.text);
  inclusion : option (list JS.text)
}.
End Code.

(** [similarityResult.individual] *)
Record Individual : Type := {
  ind_ratio : float;
  ind_partial_ratio : float;
  ind_token_sort_ratio : float;
  ind_token_set_ratio : float
}.

Record SimilarityResult : Type := {
  composite : float;
  individual : Individual
}.

(** An entry of [matches]. *)
Record Mapping : Type := {
  ayurveda_code : JS.text;
  icd11_code : JS.text;
  icd11_display : JS.text;
  similarity_score : float;
  similarity_details : Individual;
  confidence : string;
  ayurveda_text : string;
  icd11_text : string
}.

(** ** SimilarityMatcher: scoring and ranking *)

Definition similarityThreshold : float := 0.6.
Definition highConfidenceThreshold : float := 0.8.

Definition normalizeText (text : JS.text) : string :=
  match text with
  | JS.Str s =>
      if negb (s =? "") then
        JS.trim
          (JS.replace_space_runs
             (JS.replace_non_word_space
                (JS.toLowerCase s)))
      else ""
  | _ => ""
  end.

Section Matcher.

Variable fuzz : Fuzzball.

Definition calculateSimilarity (text1 text2 : JS.text) (method : string)
  : float :=
  if negb (JS.truthy text1) || negb (JS.truthy text2) then 0%float
  else
    let normalizedText1 := normalizeText text1 in
    let normalizedText2 := normalizeText text2 in
    if (normalizedText1 =? "") || (normalizedText2 =? "") then 0%float
    else if method =? "ratio" then
      (ratio fuzz normalizedText1 normalizedText2 / 100)%float
    else if method =? "partial_ratio" then
      (partial_ratio fuzz normalizedText1 normalizedText2 / 100)%float
    else if method =? "token_sort_ratio" then
      (token_sort_ratio fuzz normalizedText1 normalizedText2 / 100)%float
    else if method =? "token_set_ratio" then
      (token_set_ratio fuzz normalizedText1 normalizedText2 / 100)%float
    else
      (ratio fuzz normalizedText1 normalizedText2 / 100)%float.

Definition methods : list string :=
  ["ratio"; "partial_ratio"; "token_sort_ratio"; "token_set_ratio"].

Definition weights : list float := [0.4; 0.2; 0.2; 0.2]%float.

Definition calculateCompositeSimilarity (text1 text2 : JS.text)
  : SimilarityResult :=
  let scores := map (fun method => calculateSimilarity text1 text2 method) methods in
  let weightedScore :=
    JS.reduce (fun sum score index => (sum + score * JS.at_ weights index)%float)
              scores 0%float in
  {| composite := weightedScore;
     individual :=
       {| ind_ratio := JS.at_ scores 0;
          ind_partial_ratio := JS.at_ scores 1;
          ind_token_sort_ratio := JS.at_ scores 2;
          ind_token_set_ratio := JS.at_ scores 3 |} |}.

(** [if (field) textParts.push(field)] *)
Definition push_if (cond : bool) (field : JS.text) (textParts : list JS.text)
  : list JS.text :=
  if cond then textParts ++ [field] else textParts.

Definition is_dash (t : JS.text) : bool :=
  match t with
  | JS.Str s => s =? "-"
  | _ => false
  end.

Definition text_string (t : JS.text) : string :=
  match t with
  | JS.Str s => s
  | _ => ""
  end.

(** [if (array && Array.isArray(array)) textParts.push(...array)] *)
Definition push_all (array : option (list JS.text)) (textParts : list JS.text)
  : list JS.text :=
  match array with
  | Some elements => textParts ++ elements
  | None => textParts
  end.

Definition createSearchableText (codeObject : Code.t) : string :=
  let textParts := [] in
  let textParts := push_if (JS.truthy (Code.display codeObject))
                           (Code.display codeObject) textParts in
  let textParts := push_if (JS.truthy (Code.title codeObject))
                           (Code.title codeObject) textParts in
  let textParts := push_if (JS.truthy (Code.name_english codeObject))
                           (Code.name_english codeObject) textParts in
  let textParts := push_if (JS.truthy (Code.description codeObject))
                           (Code.description codeObject) textParts in
  let textParts := push_if (JS.truthy (Code.definition codeObject))
                           (Code.definition codeObject) textParts in
  let textParts := push_if (JS.truthy (Code.longDefinition codeObject))
                           (Code.longDefinition codeObject) textParts in
  let textParts := push_if (JS.truthy (Code.namc_term codeObject))
                           (Code.namc_term codeObject) textParts in
  let textParts :=
    push_if (JS.truthy (Code.short_definition codeObject)
             && negb (is_dash (Code.short_definition codeObject)))
            (Code.short_definition codeObject) textParts in
  let textParts :=
    push_if (JS.truthy (Code.long_definition codeObject)
             && negb (is_dash (Code.long_definition codeObject)))
            (Code.long_definition codeObject) textParts in
  let textParts := push_all (Code.synonym codeObject) textParts in
  let textParts := push_all (Code.inclusion codeObject) textParts in
  JS.join " "
    (map text_string
       (filter (fun text => JS.truthy text && negb (is_dash text)
                            && negb (JS.trim (text_string text) =? ""))
               textParts)).

Definition getConfidenceLevel (score : float) : string :=
  if (highConfidenceThreshold <=? score)%float then "high"
  else if (similarityThreshold <=? score)%float then "medium"
  else "low".

(** The body of the loop of [findBestMatches] for one ICD-11 code:
    the entry pushed on [matches], if any. *)
Definition match_for (ayurvedaCode : Code.t) (ayurvedaSearchText : string)
    (icd11Code : Code.t) : list Mapping :=
  let icd11SearchText := createSearchableText icd11Code in
  let similarityResult :=
    calculateCompositeSimilarity (JS.Str ayurvedaSearchText)
                                 (JS.Str icd11SearchText) in
  if (similarityThreshold <=? composite similarityResult)%float then
    [ {| ayurveda_code := Code.code ayurvedaCode;
         icd11_code := JS.or (Code.code icd11Code) (Code.id icd11Code);
         icd11_display := JS.or (Code.display icd11Code) (Code.title icd11Code);
         similarity_score := composite similarityResult;
         similarity_details := individual similarityResult;
         confidence := getConfidenceLevel (composite similarityResult);
         ayurveda_text := ayurvedaSearchText;
         icd11_text := icd11SearchText |} ]
  else [].

(** [matches] when the loop over [icd11Codes] is over. *)
Definition candidates (ayurvedaCode : Code.t) (icd11Codes : list Code.t)
  : list Mapping :=
  let ayurvedaSearchText := createSearchableText ayurvedaCode in
  flat_map (match_for ayurvedaCode ayurvedaSearchText) icd11Codes.

Definition by_score_descending (a b : Mapping) : float :=
  (similarity_score b - similarity_score a)%float.

(** [maxResults] is [None] when the argument is left out. *)
Definition findBestMatches (ayurvedaCode : Code.t) (icd11Codes : list Code.t)
    (maxResults : option Z) : list Mapping :=
  let maxResults := match maxResults with Some n => n | None => 5%Z end in
  let matches := candidates ayurvedaCode icd11Codes in
  JS.slice0 (JS.sort by_score_descending matches) maxResults.

End Matcher.

(** ** The mapping store

    The [concept_mappings] table of [createTables], as SQLite keeps it:
    [namaste_code] and [icd11_code] are [NOT NULL], the pair is
    [UNIQUE], [id] is [AUTOINCREMENT].  The columns that the matcher
    leaves to their defaults ([created_by], [created_at]) are left out.
    Only the two statements of [saveMappingToDatabase] are modelled. *)

Module Db.

(** [mapping_details]: the JSON document, before [JSON.stringify]
    renders it. *)
Record Details : Type := {
  d_similarity_details : Individual;
  d_ayurveda_text : string;
  d_icd11_text : string
}.

Record Row : Type := {
  id : Z;
  namaste_code : string;
  icd11_code : string;
  equivalence : string;
  confidence : float;
  mapping_type : string;
  similarity_score : float;
  mapping_details : Details
}.

(** The two texts of [query]. *)
Inductive Query : Type :=
| InsertOrReplace
| InsertOrIgnore.

(** The [params] array, in the order of the placeholders.  A [null]
    or [undefined] parameter is bound as [NULL]. *)
Record Params : Type := {
  p_namaste_code : JS.text;
  p_icd11_code : JS.text;
  p_equivalence : string;
  p_confidence : float;
  p_mapping_type : string;
  p_similarity_score : float;
  p_mapping_details : Details
}.

Record Store : Type := {
  rows : list Row;
  sequence : Z;           (* the largest row id handed out so far *)
  last_insert_rowid : Z
}.

Record Error : Type := { message : string }.

Definition key (r : Row) : string * string := (namaste_code r, icd11_code r).

Definition has_key (a b : string) (r : Row) : bool :=
  (namaste_code r =? a) && (icd11_code r =? b).

Definition insert (a b : string) (p : Params) (st : Store) : Store :=
  let rowid := (sequence st + 1)%Z in
  {| rows := rows st ++
             [ {| id := rowid;
                  namaste_code := a;
                  icd11_code := b;
                  equivalence := p_equivalence p;
                  confidence := p_confidence p;
                  mapping_type := p_mapping_type p;
                  similarity_score := p_similarity_score p;
                  mapping_details := p_mapping_details p |} ];
     sequence := rowid;
     last_insert_rowid := rowid |}.

Definition delete_key (a b : string) (st : Store) : Store :=
  {| rows := filter (fun r => negb (has_key a b r)) (rows st);
     sequence := sequence st;
     last_insert_rowid := last_insert_rowid st |}.

Definition not_null (column : string) : Error :=
  {| message := "SQLITE_CONSTRAINT: NOT NULL constraint failed: concept_mappings."
                ++ column |}.

(** An [INSERT OR IGNORE] that skips its row: the row id that
    [AUTOINCREMENT] had set aside for it is used up, the rows and
    [last_insert_rowid] stay. *)
Definition skip (st : Store) : Store :=
  {| rows := rows st;
     sequence := (sequence st + 1)%Z;
     last_insert_rowid := last_insert_rowid st |}.

(** [n] skipped inserts in a row. *)
Definition skips (n : nat) (st : Store) : Store :=
  {| rows := rows st;
     sequence := (sequence st + Z.of_nat n)%Z;
     last_insert_rowid := last_insert_rowid st |}.

(** One [INSERT] under a conflict clause.  [OR REPLACE] deletes the
    row that holds the pair and inserts; a [NULL] in a [NOT NULL]
    column without a usable default makes it fail, and the statement
    leaves nothing behind.  [OR IGNORE] skips the row on either
    violation.  The result is the store and [this.lastID], or the error
    handed to the callback. *)
Definition run (q : Query) (p : Params) (st : Store) : Error + Store * Z :=
  match q, p_namaste_code p, p_icd11_code p with
  | InsertOrReplace, JS.Str a, JS.Str b =>
      let st' := insert a b p (delete_key a b st) in
      inr (st', last_insert_rowid st')
  | InsertOrReplace, JS.Str _, _ => inl (not_null "icd11_code")
  | InsertOrReplace, _, _ => inl (not_null "namaste_code")
  | InsertOrIgnore, JS.Str a, JS.Str b =>
      if existsb (has_key a b) (rows st)
      then inr (skip st, last_insert_rowid st)
      else let st' := insert a b p st in inr (st', last_insert_rowid st')
  | InsertOrIgnore, _, _ => inr (skip st, last_insert_rowid st)
  end.

End Db.

(** ** Asynchronous code

    What an [async] function can touch: the store behind [this.db.db],
    the statements handed to [db.run] so far, and the console.  An
    awaited call runs to its end before the next one starts, so a
    promise is a function of the world that ends in a rejection or in a
    value. *)

Inductive Line : Type :=
| LogGenerating (ayurvedaCodes icd11Codes : nat)
| LogProcessing (position total : nat) (code display : JS.text)
| LogGenerated (mappings : nat)
| LogSummary
| LogHighConfidence (mappings : nat)
| LogMediumConfidence (mappings : nat)
| ErrorSavingMapping (message : string).

Record World : Type := {
  db : Db.Store;
  statements : list (Db.Query * Db.Params);
  console : list Line
}.

Definition Promise (A : Type) : Type := World -> World * (Db.Error + A).

Definition resolve {A} (a : A) : Promise A := fun w => (w, inr a).

Definition reject {A} (e : Db.Error) : Promise A := fun w => (w, inl e).

(** [const x = await p; k x] *)
Definition await {A B} (p : Promise A) (k : A -> Promise B) : Promise B :=
  fun w =>
    match p w with
    | (w', inr a) => k a w'
    | (w', inl e) => (w', inl e)
    end.

Notation "x <- p ;; k" := (await p (fun x => k))
  (at level 61, p at next level, right associativity).
Notation "p ;;; k" := (await p (fun _ => k))
  (at level 61, right associativity).

Definition console_log (l : Line) : Promise unit :=
  fun w => ({| db := db w; statements := statements w;
               console := console w ++ [l] |}, inr tt).

(** [this.db.db.run(query, params, callback)] wrapped in a promise:
    the callback logs and rejects on an error and resolves with
    [this.lastID] otherwise. *)
Definition db_run (query : Db.Query) (params : Db.Params) : Promise Z :=
  fun w =>
    let called := statements w ++ [(query, params)] in
    match Db.run query params (db w) with
    | inl err =>
        ({| db := db w; statements := called;
            console := console w ++ [ErrorSavingMapping (Db.message err)] |},
         inl err)
    | inr (st, lastID) =>
        ({| db := st; statements := called; console := console w |},
         inr lastID)
    end.

(** ** SimilarityMatcher: generation and persistence *)

Record Options : Type := {
  maxMatchesPerCode : option Z;
  saveToDatabase : option bool;
  overwriteExisting : option bool
}.

Record Stats : Type := {
  total : nat;
  highConfidence : nat;
  mediumConfidence : nat
}.

Record Mappings : Type := {
  all : list Mapping;
  high : list Mapping;
  medium : list Mapping;
  stats : Stats
}.

Definition default {A} (value : option A) (otherwise : A) : A :=
  match value with
  | Some v => v
  | None => otherwise
  end.

Definition mapping_params (mapping : Mapping) : Db.Params :=
  let mappingDetails :=
    {| Db.d_similarity_details := similarity_details mapping;
       Db.d_ayurveda_text := ayurveda_text mapping;
       Db.d_icd11_text := icd11_text mapping |} in
  {| Db.p_namaste_code := ayurveda_code mapping;
     Db.p_icd11_code := icd11_code mapping;
     Db.p_equivalence := "equivalent";
     Db.p_confidence := similarity_score mapping;
     Db.p_mapping_type := "automatic";
     Db.p_similarity_score := similarity_score mapping;
     Db.p_mapping_details := mappingDetails |}.

(** The promise built in the [try] block is returned without being
    awaited there, so a rejection leaves through the caller's [await];
    nothing in the [try] block itself throws on a [Mapping]. *)
Definition saveMappingToDatabase (mapping : Mapping) (overwriteExisting : bool)
  : Promise Z :=
  let query := if overwriteExisting then Db.InsertOrReplace else Db.InsertOrIgnore in
  let params := mapping_params mapping in
  db_run query params.

Section Generator.

Variable fuzz : Fuzzball.

(** [for (const match of matches)]: [allMappings] grows by one entry,
    then the entry is saved when [saveToDatabase] is set. *)
Fixpoint save_matches (saveToDatabase overwriteExisting : bool)
    (matches : list Mapping) (allMappings : list Mapping)
  : Promise (list Mapping) :=
  match matches with
  | [] => resolve allMappings
  | match_ :: rest =>
      let allMappings := allMappings ++ [match_] in
      (if saveToDatabase
       then saveMappingToDatabase match_ overwriteExisting ;;; resolve tt
       else resolve tt) ;;;
      save_matches saveToDatabase overwriteExisting rest allMappings
  end.

(** [for (let i = 0; i < ayurvedaCodes.length; i++)], from index [i]
    on; [total] is [ayurvedaCodes.length].  The pause every ten codes
    changes nothing that the model holds. *)
Fixpoint process_codes (maxMatchesPerCode : Z)
    (saveToDatabase overwriteExisting : bool) (icd11Codes : list Code.t)
    (total i : nat) (remaining : list Code.t) (allMappings : list Mapping)
  : Promise (list Mapping) :=
  match remaining with
  | [] => resolve allMappings
  | ayurvedaCode :: rest =>
      console_log (LogProcessing (i + 1) total (Code.code ayurvedaCode)
                                 (Code.display ayurvedaCode)) ;;;
      matches <- resolve (findBestMatches fuzz ayurvedaCode icd11Codes
                                          (Some maxMatchesPerCode)) ;;
      allMappings <- save_matches saveToDatabase overwriteExisting
                                  matches allMappings ;;
      process_codes maxMatchesPerCode saveToDatabase overwriteExisting
                    icd11Codes total (S i) rest allMappings
  end.

Definition generateMappings (ayurvedaCodes icd11Codes : list Code.t)
    (options : Options) : Promise Mappings :=
  let maxMatchesPerCode := default (maxMatchesPerCode options) 3%Z in
  let saveToDatabase := default (saveToDatabase options) true in
  let overwriteExisting := default (overwriteExisting options) false in
  console_log (LogGenerating (List.length ayurvedaCodes)
                             (List.length icd11Codes)) ;;;
  allMappings <- process_codes maxMatchesPerCode saveToDatabase
                   overwriteExisting icd11Codes (List.length ayurvedaCodes)
                   0 ayurvedaCodes [] ;;
  console_log (LogGenerated (List.length allMappings)) ;;;
  let highConfidence :=
    filter (fun m => confidence m =? "high") allMappings in
  let mediumConfidence :=
    filter (fun m => confidence m =? "medium") allMappings in
  console_log LogSummary ;;;
  console_log (LogHighConfidence (List.length highConfidence)) ;;;
  console_log (LogMediumConfidence (List.length mediumConfidence)) ;;;
  resolve {| all := allMappings;
             high := highConfidence;
             medium := mediumConfidence;
             stats := {| total := List.length allMappings;
                         highConfidence := List.length highConfidence;
                         mediumConfidence := List.length mediumConfidence |} |}.

End Generator.

(** ** Whole percentages

    fuzzball reports a similarity as a whole number between 0 and 100.
    [percentages] lists these numbers; [composites] lists every value
    the weighted sum of four of them, each divided by 100, can take. *)

Definition percent (n : nat) : float :=
  PrimFloat.of_uint63 (Uint63.of_Z (Z.of_nat n)).

Definition percentages : list float := map percent (seq 0 101).

Definition returns_percentages (fuzz : Fuzzball) : Prop :=
  forall a b : string,
    In (ratio fuzz a b) percentages
    /\ In (partial_ratio fuzz a b) percentages
    /\ In (token_sort_ratio fuzz a b) percentages
    /\ In (token_set_ratio fuzz a b) percentages.

(** Union of two lists of numbers; a number is left out only when the
    same number heads the other list. *)
Fixpoint merge (l1 : list float) : list float -> list float :=
  fix merge_with (l2 : list float) : list float :=
    match l1, l2 with
    | [], _ => l2
    | _, [] => l1
    | a :: l1', b :: l2' =>
        if (a <? b)%float then a :: merge l1' l2
        else if PrimFloat.Leibniz.eqb a b then merge l1' l2
        else b :: merge_with l2'
    end.

(** Every [s + t] with [s] in [ss] and [t] in [ts]. *)
Definition sums (ss ts : list float) : list float :=
  fold_right (fun t acc => merge (map (fun s => (s + t)%float) ss) acc) [] ts.

Definition weighted (w : float) : list float :=
  map (fun p => (p / 100 * w)%float) percentages.

Definition composites : list float :=
  sums (sums (sums (map (fun x => (0 + x)%float) (weighted 0.4))
                   (weighted 0.2))
             (weighted 0.2))
       (weighted 0.2).

(** The same values when at least one of the four percentages is below
    100.  [full_k] lists the partial sums of the first percentages when
    each of them is 100, [short_k] those when one of them is not. *)

Definition below_percentages : list float := map percent (seq 0 100).

Definition weighted_below (w : float) : list float :=
  map (fun p => (p / 100 * w)%float) below_percentages.

Definition full_next (full : list float) (w : float) : list float :=
  map (fun s => (s + 100 / 100 * w)%float) full.

Definition short_next (short full : list float) (w : float) : list float :=
  merge (sums short (weighted w)) (sums full (weighted_below w)).

Definition full_0 : list float := [(0 + 100 / 100 * 0.4)%float].
Definition short_0 : list float :=
  map (fun x => (0 + x)%float) (weighted_below 0.4).
Definition full_1 : list float := full_next full_0 0.2.
Definition short_1 : list float := short_next short_0 full_0 0.2.
Definition full_2 : list float := full_next full_1 0.2.
Definition short_2 : list float := short_next short_1 full_1 0.2.
Definition short_composites : list float := short_next short_2 full_2 0.2.

(** A number above zero: finite and positive, or plus infinity. *)
Definition is_positive (f : spec_float) : bool :=
  match f with
  | S754_finite false _ _ | S754_infinity false => true
  | _ => false
  end.

(** ** A small instance

    A stand-in for fuzzball with whole percentages, and a few records,
    for running the matcher on concrete input. *)

Module Sample.

Fixpoint common_prefix (a b : string) : nat :=
  match a, b with
  | String x a', String y b' =>
      if Ascii.eqb x y then S (common_prefix a' b') else 0
  | _, _ => 0
  end.

(** The share of the longer string that the common prefix covers. *)
Definition prefix_ratio (a b : string) : float :=
  percent (100 * common_prefix a b / Nat.max (String.length a) (String.length b)).

Definition fuzz : Fuzzball :=
  {| ratio := prefix_ratio;
     partial_ratio := prefix_ratio;
     token_sort_ratio := prefix_ratio;
     token_set_ratio := prefix_ratio |}.

(** A second stand-in, which like fuzzball under its [full_process]
    option looks at the letters and digits of the two strings only, and
    scores 0 when one of them has none. *)
Definition is_alphanumeric (c : ascii) : bool :=
  JS.is_word c && negb (Ascii.eqb c "_").

Fixpoint letters_and_digits (s : string) : string :=
  match s with
  | EmptyString => EmptyString
  | String c s' =>
      if is_alphanumeric c then String c (letters_and_digits s')
      else letters_and_digits s'
  end.

Definition processed_ratio (a b : string) : float :=
  if (letters_and_digits a =? "") || (letters_and_digits b =? "") then 0%float
  else prefix_ratio (letters_and_digits a) (letters_and_digits b).

Definition processed : Fuzzball :=
  {| ratio := processed_ratio;
     partial_ratio := processed_ratio;
     token_sort_ratio := processed_ratio;
     token_set_ratio := processed_ratio |}.

Definition record (code display : JS.text) : Code.t :=
  {| Code.code := code;
     Code.id := JS.Undefined;
     Code.display := display;
     Code.title := JS.Undefined;
     Code.name_english := JS.Undefined;
     Code.description := JS.Undefined;
     Code.definition := JS.Undefined;
     Code.longDefinition := JS.Undefined;
     Code.namc_term := JS.Undefined;
     Code.short_definition := JS.Undefined;
     Code.long_definition := JS.Undefined;
     Code.synonym := None;
     Code.inclusion := None |}.

Definition gastro : Code.t :=
  record (JS.Str "A") (JS.Str "gastro-intestinal disorder").
Definition SM10 : Code.t :=
  record (JS.Str "SM10") (JS.Str "Gastro-intestinal disorders").
Definition SK00 : Code.t :=
  record (JS.Str "SK00") (JS.Str "Head, brain, nerve disorders").
Definition SM11 : Code.t :=
  record (JS.Str "SM11") (JS.Str "Gastro-intestinal disorder (chronic)").
Definition SM12 : Code.t :=
  record (JS.Str "SM12") (JS.Str "GASTRO INTESTINAL DISORDER").
Definition SM13 : Code.t :=
  record (JS.Str "SM13") (JS.Str "Gastro Intestinal Disorder.").
(** A record that has a label and no code. *)
Definition uncoded : Code.t :=
  record JS.Undefined (JS.Str "gastro intestinal disorder").

Definition empty_store : Db.Store :=
  {| Db.rows := []; Db.sequence := 0; Db.last_insert_rowid := 0 |}.

Definition fresh : World :=
  {| db := empty_store; statements := []; console := [] |}.

Definition options (maxMatches : option Z) (save overwrite : option bool)
  : Options :=
  {| maxMatchesPerCode := maxMatches;
     saveToDatabase := save;
     overwriteExisting := overwrite |}.

Definition targets : list Code.t := [SM10; SK00; SM11; SM12].

Definition identical : Individual :=
  {| ind_ratio := 1;
     ind_partial_ratio := 1;
     ind_token_sort_ratio := 1;
     ind_token_set_ratio := 1 |}.

(** The entry for [gastro] against [SM12]. *)
Definition top : Mapping :=
  {| ayurveda_code := JS.Str "A";
     icd11_code := JS.Str "SM12";
     icd11_display := JS.Str "GASTRO INTESTINAL DISORDER";
     similarity_score := 1;
     similarity_details := identical;
     confidence := "high";
     ayurveda_text := "gastro-intestinal disorder";
     icd11_text := "GASTRO INTESTINAL DISORDER" |}.

(** The entry for [uncoded] against [SM12]. *)
Definition top_uncoded : Mapping :=
  {| ayurveda_code := JS.Undefined;
     icd11_code := JS.Str "SM12";
     icd11_display := JS.Str "GASTRO INTESTINAL DISORDER";
     similarity_score := 1;
     similarity_details := identical;
     confidence := "high";
     ayurveda_text := "gastro intestinal disorder";
     icd11_text := "GASTRO INTESTINAL DISORDER" |}.

(** The row that a save of [top] writes into the empty store. *)
Definition top_row : Db.Row :=
  {| Db.id := 1;
     Db.namaste_code := "A";
     Db.icd11_code := "SM12";
     Db.equivalence := "equivalent";
     Db.confidence := 1;
     Db.mapping_type := "automatic";
     Db.similarity_score := 1;
     Db.mapping_details :=
       {| Db.d_similarity_details := identical;
          Db.d_ayurveda_text := "gastro-intestinal disorder";
          Db.d_icd11_text := "GASTRO INTESTINAL DISORDER" |} |}.

End Sample.

(** ** Words for the statements *)

(** The normaliser in the words of its contract, on the list of code
    units: lowercase, blank what is neither a word character nor white
    space, collapse each run of white space into one space, trim. *)
Module Contract.

Definition lowercase (units : list ascii) : list ascii :=
  map JS.lower_unit units.

Definition blank_punctuation (units : list ascii) : list ascii :=
  map (fun c => if JS.is_word c || JS.is_space c then c else " "%char) units.

(** A white-space unit followed by another one goes; the last one of a
    run stays, as a space. *)
Fixpoint collapse_runs (units : list ascii) : list ascii :=
  match units with
  | [] => []
  | c :: rest =>
      if JS.is_space c then
        match rest with
        | d :: _ => if JS.is_space d then collapse_runs rest
                    else " "%char :: collapse_runs rest
        | [] => [" "%char]
        end
      else c :: collapse_runs rest
  end.

Fixpoint drop_leading (units : list ascii) : list ascii :=
  match units with
  | c :: rest => if JS.is_space c then drop_leading rest else units
  | [] => []
  end.

Definition trim_both (units : list ascii) : list ascii :=
  rev (drop_leading (rev (drop_leading units))).

Definition normalize (text : JS.text) : string :=
  match text with
  | JS.Str s =>
      string_of_list_ascii
        (trim_both
           (collapse_runs
              (blank_punctuation
                 (lowercase (list_ascii_of_string s)))))
  | _ => ""
  end.

End Contract.

(** A lowercase word character: [a-z0-9_]. *)
Definition is_lower_word (c : ascii) : bool :=
  let n := JS.code_unit c in
  ((97 <=? n) && (n <=? 122) || (48 <=? n) && (n <=? 57) || (n =? 95))%N.

Fixpoint all_units (p : ascii -> bool) (s : string) : bool :=
  match s with
  | EmptyString => true
  | String c s' => p c && all_units p s'
  end.

Definition starts_with_space (s : string) : bool :=
  match s with
  | String c _ => JS.is_space c
  | EmptyString => false
  end.

Fixpoint ends_with_space (s : string) : bool :=
  match s with
  | EmptyString => false
  | String c EmptyString => JS.is_space c
  | String _ s' => ends_with_space s'
  end.

(** Two white-space units in a row somewhere in [s]. *)
Fixpoint has_space_run (s : string) : bool :=
  match s with
  | EmptyString => false
  | String c s' => (JS.is_space c && starts_with_space s') || has_space_run s'
  end.

(** What the normaliser leaves: a space or a lowercase word character. *)
Definition space_or_lower_word (c : ascii) : bool :=
  Ascii.eqb c " " || is_lower_word c.

(** What the loop of [findBestMatches] guarantees for an entry it
    pushes: the score passed the threshold, and the tier was read off
    that score. *)
Definition pushed (m : Mapping) : Prop :=
  (similarityThreshold <=? similarity_score m)%float = true
  /\ confidence m = getConfidenceLevel (similarity_score m).

(** The statement that [saveMappingToDatabase] hands to the store
    for a mapping. *)
Definition statement (overwriteExisting : bool) (m : Mapping)
  : Db.Query * Db.Params :=
  (if overwriteExisting then Db.InsertOrReplace else Db.InsertOrIgnore,
   mapping_params m).

(** The saves of [ms] one after the other, up to the first that fails:
    the store reached, the mappings whose statement was run, and the
    error that stopped the sequence, if any. *)
Fixpoint save_all (overwriteExisting : bool) (ms : list Mapping) (st : Db.Store)
  : Db.Store * list Mapping * option Db.Error :=
  match ms with
  | [] => (st, [], None)
  | m :: rest =>
      match Db.run (fst (statement overwriteExisting m))
                   (snd (statement overwriteExisting m)) st with
      | inl e => (st, [m], Some e)
      | inr (st', _) =>
          let '(st'', tried, err) := save_all overwriteExisting rest st' in
          (st'', m :: tried, err)
      end
  end.

Definition persist (saveToDatabase overwriteExisting : bool)
    (ms : list Mapping) (st : Db.Store)
  : Db.Store * list Mapping * option Db.Error :=
  if saveToDatabase then save_all overwriteExisting ms st else (st, [], None).

(** The mappings of a run, in the order in which the two loops push
    them on [allMappings]. *)
Definition planned (fuzz : Fuzzball) (ayurvedaCodes icd11Codes : list Code.t)
    (maxMatchesPerCode : Z) : list Mapping :=
  flat_map (fun ayurvedaCode =>
              findBestMatches fuzz ayurvedaCode icd11Codes (Some maxMatchesPerCode))
           ayurvedaCodes.

(** The object that [generateMappings] returns for [allMappings]. *)
Definition aggregate (allMappings : list Mapping) : Mappings :=
  let highConfidence := filter (fun m => confidence m =? "high") allMappings in
  let mediumConfidence := filter (fun m => confidence m =? "medium") allMappings in
  {| all := allMappings;
     high := highConfidence;
     medium := mediumConfidence;
     stats := {| total := List.length allMappings;
                 highConfidence := List.length highConfidence;
                 mediumConfidence := List.length mediumConfidence |} |}.

Definition is_error_line (l : Line) : bool :=
  match l with
  | ErrorSavingMapping _ => true
  | _ => false
  end.

(** The console lines of a run: with an error, the line of that error
    comes last; without one, no line reports an error. *)
Definition log_shape (err : option Db.Error) (lines : list Line) : Prop :=
  match err with
  | Some e => exists before, lines = before ++ [ErrorSavingMapping (Db.message e)]
  | None => existsb is_error_line lines = false
  end.

(** At most one row for a pair of codes. *)
Definition unique_pairs (st : Db.Store) : Prop :=
  NoDup (map Db.key (Db.rows st)).

(** [row] is what a save of [m] writes. *)
Definition row_of (m : Mapping) (row : Db.Row) : Prop :=
  JS.Str (Db.namaste_code row) = ayurveda_code m
  /\ JS.Str (Db.icd11_code row) = icd11_code m
  /\ Db.equivalence row = "equivalent"
  /\ Db.confidence row = similarity_score m
  /\ Db.mapping_type row = "automatic"
  /\ Db.similarity_score row = similarity_score m
  /\ Db.mapping_details row
     = {| Db.d_similarity_details := similarity_details m;
          Db.d_ayurveda_text := ayurveda_text m;
          Db.d_icd11_text := icd11_text m |}.

(** The pair of [m] is in the store, or [m] has no pair for lack of a
    code. *)
Definition stored (st : Db.Store) (m : Mapping) : Prop :=
  match ayurveda_code m, icd11_code m with
  | JS.Str a, JS.Str b => existsb (Db.has_key a b) (Db.rows st) = true
  | _, _ => True
  end.

(** [m] with another tier on it. *)
Definition with_confidence (tier : string) (m : Mapping) : Mapping :=
  {| ayurveda_code := ayurveda_code m;
     icd11_code := icd11_code m;
     icd11_display := icd11_display m;
     similarity_score := similarity_score m;
     similarity_details := similarity_details m;
     confidence := tier;
     ayurveda_text := ayurveda_text m;
     icd11_text := icd11_text m |}.

(** ** Words for the searchable text and the tiers *)

(** The fields that [createSearchableText] reads, in its order. *)
Definition text_fields (codeObject : Code.t) : list JS.text :=
  [ Code.display codeObject;
    Code.title codeObject;
    Code.name_english codeObject;
    Code.description codeObject;
    Code.definition codeObject;
    Code.longDefinition codeObject;
    Code.namc_term codeObject;
    Code.short_definition codeObject;
    Code.long_definition codeObject ].

Definition elements (array : option (list JS.text)) : list JS.text :=
  match array with
  | Some items => items
  | None => []
  end.

Definition text_parts (codeObject : Code.t) : list JS.text :=
  text_fields codeObject
  ++ elements (Code.synonym codeObject)
  ++ elements (Code.inclusion codeObject).

(** A part that ends up in the searchable text: a string that is not
    empty, not the placeholder and not blank. *)
Definition usable (text : JS.text) : bool :=
  JS.truthy text && negb (is_dash text)
  && negb (JS.trim (text_string text) =? "").

Definition tier_rank (tier : string) : nat :=
  if tier =? "high" then 2 else if tier =? "medium" then 1 else 0.

(** [row] sits on the pair of codes of [m]. *)
Definition on_pair_of (m : Mapping) (row : Db.Row) : Prop :=
  JS.Str (Db.namaste_code row) = ayurveda_code m
  /\ JS.Str (Db.icd11_code row) = icd11_code m.

(** ** SimilarityMatcher: reading the store

    [getStoredMappings] up to its call of [db.all]: the text of the
    query and the parameters bound to it. *)

Module Stored.

(** A bound parameter: the filter value itself. *)
Inductive Param : Type :=
| Text (value : JS.text)
| Number (value : float).

(** [ToBoolean] on a number: zero and [NaN] are falsy. *)
Definition number_truthy (x : float) : bool :=
  negb (x =? 0)%float && negb (PrimFloat.is_nan x).

(** [filters]; a number that is left out is [None]. *)
Record Filters : Type := {
  ayurveda_code : JS.text;
  icd11_code : JS.text;
  min_confidence : option float;
  mapping_type : JS.text;
  limit : option float
}.

Definition given (value : option float) : bool :=
  match value with
  | Some x => number_truthy x
  | None => false
  end.

Definition number (value : option float) : float :=
  match value with
  | Some x => x
  | None => nan
  end.

Definition select_mappings : string := "
        SELECT cm.*, nc.display as ayurveda_display, ic.display as icd11_display
        FROM concept_mappings cm
        LEFT JOIN namaste_codes nc ON cm.namaste_code = nc.code
        LEFT JOIN icd11_codes ic ON cm.icd11_code = ic.code
        WHERE 1=1
      ".

(** [if (value) { query += clause; params.push(value); }] *)
Definition add_if (cond : bool) (clause : string) (value : Param)
    (built : string * list Param) : string * list Param :=
  if cond then ((fst built ++ clause)%string, snd built ++ [value]) else built.

Definition getStoredMappings_query (filters : Filters) : string * list Param :=
  let built := (select_mappings, []) in
  let built := add_if (JS.truthy (ayurveda_code filters))
                      " AND cm.namaste_code = ?"
                      (Text (ayurveda_code filters)) built in
  let built := add_if (JS.truthy (icd11_code filters))
                      " AND cm.icd11_code = ?"
                      (Text (icd11_code filters)) built in
  let built := add_if (given (min_confidence filters))
                      " AND cm.confidence >= ?"
                      (Number (number (min_confidence filters))) built in
  let built := add_if (JS.truthy (mapping_type filters))
                      " AND cm.mapping_type = ?"
                      (Text (mapping_type filters)) built in
  let built :=
    ((fst built ++ " ORDER BY cm.confidence DESC, cm.created_at DESC")%string,
     snd built) in
  add_if (given (limit filters)) " LIMIT ?" (Number (number (limit filters))) built.

(** The number of [?] in the text of a statement. *)
Fixpoint placeholders (sql : string) : nat :=
  match sql with
  | EmptyString => 0
  | String c rest => (if Ascii.eqb c "?" then 1 else 0) + placeholders rest
  end.

End Stored.

(** ** The statistics route

    What [GET /stats] of the mappings router computes from the rows
    that [getStoredMappings] hands it. *)

Module MappingStats.

Definition highConfidence (allMappings : list Db.Row) : list Db.Row :=
  filter (fun m => (0.8 <=? Db.confidence m)%float) allMappings.

Definition mediumConfidence (allMappings : list Db.Row) : list Db.Row :=
  filter (fun m => (0.6 <=? Db.confidence m)%float
                   && (Db.confidence m <? 0.8)%float) allMappings.

Definition lowConfidence (allMappings : list Db.Row) : list Db.Row :=
  filter (fun m => (Db.confidence m <? 0.6)%float) allMappings.

(** [a || b] on numbers. *)
Definition number_or (a b : float) : float :=
  if Stored.number_truthy a then a else b.

(** [xs.length] as a number. *)
Definition length_number {A} (xs : list A) : float :=
  PrimFloat.of_uint63 (Uint63.of_Z (Z.of_nat (List.length xs))).

Definition averageConfidence (allMappings : list Db.Row) : float :=
  number_or
    (JS.reduce (fun sum m _ => (sum + Db.confidence m)%float) allMappings 0%float
     / length_number allMappings)%float
    0%float.

End MappingStats.

(** ** The CSV validator

    [CSVParser.validateNAMASTECSV].  A row is what csv-parser hands
    over: a string per column of the header; a column that the file
    does not have is [JS.Undefined]. *)

Module Csv.

Record Row : Type := {
  code : JS.text;
  display : JS.text;
  system : JS.text;
  specialty : JS.text;
  description : JS.text
}.

Record Validation : Type := {
  valid : bool;
  errors : list string
}.

Definition requiredFields : list string := ["code"; "display"; "system"].

(** [row[field]] *)
Definition get (row : Row) (field : string) : JS.text :=
  if field =? "code" then code row
  else if field =? "display" then display row
  else if field =? "system" then system row
  else if field =? "specialty" then specialty row
  else if field =? "description" then description row
  else JS.Undefined.

(** [field in row] *)
Definition has (row : Row) (field : string) : bool :=
  match get row field with
  | JS.Undefined => false
  | _ => true
  end.

(** A whole number in a template string. *)
Definition number_text (n : nat) : string :=
  NilZero.string_of_uint (Nat.to_uint n).

Definition is_upper (c : ascii) : bool :=
  let n := JS.code_unit c in ((65 <=? n) && (n <=? 90))%N.

Definition is_digit (c : ascii) : bool :=
  let n := JS.code_unit c in ((48 <=? n) && (n <=? 57))%N.

(** [/^[A-Z]{3}\d{3}$/.test(s)] *)
Definition code_format (s : string) : bool :=
  match s with
  | String a (String b (String c (String d (String e (String f EmptyString))))) =>
      is_upper a && is_upper b && is_upper c
      && is_digit d && is_digit e && is_digit f
  | _ => false
  end.

(** [['Ayurveda', 'Siddha', 'Unani'].includes(s)] *)
Definition known_system (s : string) : bool :=
  existsb (String.eqb s) ["Ayurveda"; "Siddha"; "Unani"].

(** The body of [data.forEach((row, index) => ...)]. *)
Definition row_errors (row : Row) (index : nat) : list string :=
  flat_map
    (fun field =>
       if negb (JS.truthy (get row field))
          || (JS.trim (text_string (get row field)) =? "")
       then [("Row " ++ number_text (index + 1) ++ ": Missing or empty " ++ field)%string]
       else [])
    requiredFields
  ++ (if JS.truthy (code row) && negb (code_format (text_string (code row)))
      then [("Row " ++ number_text (index + 1)
             ++ ": Invalid code format. Expected format: ABC123 (3 letters + 3 numbers)")%string]
      else [])
  ++ (if JS.truthy (system row) && negb (known_system (text_string (system row)))
      then [("Row " ++ number_text (index + 1)
             ++ ": Invalid system. Must be one of: Ayurveda, Siddha, Unani")%string]
      else []).

Fixpoint each_row_errors (index : nat) (data : list Row) : list string :=
  match data with
  | [] => []
  | row :: rest => row_errors row index ++ each_row_errors (S index) rest
  end.

Definition validateNAMASTECSV (data : list Row) : Validation :=
  match data with
  | [] => {| valid := false; errors := ["CSV data is empty or invalid"] |}
  | firstRow :: _ =>
      let errors :=
        flat_map (fun field =>
                    if negb (has firstRow field)
                    then [("Missing required field: " ++ field)%string]
                    else [])
                 requiredFields
        ++ each_row_errors 0 data in
      {| valid := (List.length errors =? 0)%nat; errors := errors |}
  end.

(** What a valid file has in every row: a code of three capitals and
    three digits, a display that is not blank, and one of the three
    systems. *)
Definition well_formed (row : Row) : Prop :=
  (exists c, code row = JS.Str c /\ code_format c = true)
  /\ (exists d, display row = JS.Str d /\ JS.trim d <> "")
  /\ (exists s, system row = JS.Str s /\ known_system s = true).

End Csv.

(** ** The NAMASTE code system service

    [FHIRCodeSystemService] over the tables [namaste_codes] and
    [fhir_resources] of [database.js].  A NULL column is [None];
    [content] holds what [JSON.parse] gives back for the stored text,
    which for a code system written by this service is the object that
    was stringified.  The fields of the code system that are the same
    constants on every call are left out of [CodeSystem], and so are
    the columns of [fhir_resources] that always take their default. *)

Module Fhir.

Record Code : Type := {
  id : Z;
  code : string;
  display : string;
  system_name : string;
  specialty : string;
  description : option string;
  status : option string;
  created_at : string;
  updated_at : string
}.

Record Property : Type := {
  property_code : string;
  valueString : string
}.

Record Concept : Type := {
  concept_code : string;
  concept_display : string;
  definition : option string;
  property : list Property
}.

Record CodeSystem : Type := {
  resourceType : string;
  codeSystem_id : string;
  url : string;
  date : string;
  count : nat;
  concept : list Concept
}.

Inductive Content : Type :=
| CodeSystemContent (codeSystem : CodeSystem)
| OtherContent (json : string).

Record Resource : Type := {
  resource_id : string;
  resource_type : string;
  content : Content;
  resource_updated_at : string
}.

(** The two tables, the next [AUTOINCREMENT] id of [namaste_codes], and
    the clock: what [new Date().toISOString()] reads and what
    [CURRENT_TIMESTAMP] is in the store. *)
Record State : Type := {
  namaste_codes : list Code;
  namaste_sequence : Z;
  fhir_resources : list Resource;
  now : string;
  current_timestamp : string
}.

(** The state when the clock has moved on. *)
Definition at_clock (now0 timestamp : string) (st : State) : State :=
  {| namaste_codes := namaste_codes st;
     namaste_sequence := namaste_sequence st;
     fhir_resources := fhir_resources st;
     now := now0;
     current_timestamp := timestamp |}.

Definition namaste_url : string :=
  "http://terminology.ayush.gov.in/CodeSystem/namaste".

(** [WHERE status = 'active'] *)
Definition active (row : Code) : bool :=
  match status row with
  | Some s => s =? "active"
  | None => false
  end.

(** [ORDER BY system_name, code] *)
Definition before_eq (a b : Code) : bool :=
  match String.compare (system_name a) (system_name b) with
  | Lt => true
  | Gt => false
  | Eq => String.leb (code a) (code b)
  end.

Fixpoint order_insert (row : Code) (sorted : list Code) : list Code :=
  match sorted with
  | [] => [row]
  | x :: rest =>
      if before_eq row x then row :: sorted else x :: order_insert row rest
  end.

Definition order_by_system_code (rows : list Code) : list Code :=
  fold_right order_insert [] rows.

Definition concept_of (row : Code) : Concept :=
  {| concept_code := code row;
     concept_display := display row;
     definition := description row;
     property :=
       [ {| property_code := "system"; valueString := system_name row |};
         {| property_code := "specialty"; valueString := specialty row |} ] |}.

(** [INSERT OR REPLACE INTO fhir_resources]: [resource_id] is UNIQUE. *)
Definition replace_resource (resource : Resource) (table : list Resource)
  : list Resource :=
  filter (fun r => negb (resource_id r =? resource_id resource)) table
  ++ [resource].

Definition createNAMASTECodeSystem (st : State) : State * CodeSystem :=
  let namastelCodes :=
    order_by_system_code (filter active (namaste_codes st)) in
  let concept := map concept_of namastelCodes in
  let codeSystem :=
    {| resourceType := "CodeSystem";
       codeSystem_id := "namaste-ayush-codes";
       url := namaste_url;
       date := now st;
       count := List.length concept;
       concept := concept |} in
  ({| namaste_codes := namaste_codes st;
      namaste_sequence := namaste_sequence st;
      fhir_resources :=
        replace_resource
          {| resource_id := "namaste-ayush-codes";
             resource_type := "CodeSystem";
             content := CodeSystemContent codeSystem;
             resource_updated_at := current_timestamp st |}
          (fhir_resources st);
      now := now st;
      current_timestamp := current_timestamp st |},
   codeSystem).

Record Results : Type := {
  processed : nat;
  inserted : nat;
  updated : nat;
  errors : list string
}.

(** A bound parameter: [undefined] and [null] are stored as NULL. *)
Definition bound (t : JS.text) : option string :=
  match t with
  | JS.Str s => Some s
  | _ => None
  end.

(** [UPDATE namaste_codes SET display = ?, system_name = ?,
    specialty = ?, description = ?, updated_at = CURRENT_TIMESTAMP
    WHERE code = ?] *)
Definition update_code (code0 display0 system0 specialty0 : string)
  (description0 : option string) (timestamp : string) (table : list Code)
  : list Code :=
  map (fun row =>
         if code row =? code0
         then {| id := id row;
                 code := code row;
                 display := display0;
                 system_name := system0;
                 specialty := specialty0;
                 description := description0;
                 status := status row;
                 created_at := created_at row;
                 updated_at := timestamp |}
         else row)
      table.

(** [INSERT INTO namaste_codes (code, display, system_name, specialty,
    description)]: the status and the two timestamps take their
    defaults. *)
Definition insert_code (code0 display0 system0 specialty0 : string)
  (description0 : option string) (st : State) : State :=
  {| namaste_codes :=
       namaste_codes st
       ++ [ {| id := namaste_sequence st + 1;
               code := code0;
               display := display0;
               system_name := system0;
               specialty := specialty0;
               description := description0;
               status := Some "active";
               created_at := current_timestamp st;
               updated_at := current_timestamp st |} ];
     namaste_sequence := namaste_sequence st + 1;
     fhir_resources := fhir_resources st;
     now := now st;
     current_timestamp := current_timestamp st |}.

(** One turn of [for (const row of csvData)]. *)
Definition ingest_row (acc : State * Results) (row : Csv.Row) : State * Results :=
  let (st, results) := acc in
  let processed' := S (processed results) in
  if negb (JS.truthy (Csv.code row))
     || negb (JS.truthy (Csv.display row))
     || negb (JS.truthy (Csv.system row))
  then
    (st,
     {| processed := processed';
        inserted := inserted results;
        updated := updated results;
        errors :=
          errors results
          ++ [("Row " ++ Csv.number_text processed'
               ++ ": Missing required fields (code, display, system)")%string] |})
  else
    let code0 := text_string (Csv.code row) in
    let display0 := text_string (Csv.display row) in
    let system0 := text_string (Csv.system row) in
    let specialty0 :=
      text_string (JS.or (Csv.specialty row) (JS.Str "General Medicine")) in
    let description0 := bound (Csv.description row) in
    match find (fun r => code r =? code0) (namaste_codes st) with
    | Some existing =>
        ({| namaste_codes :=
              update_code code0 display0 system0 specialty0 description0
                          (current_timestamp st) (namaste_codes st);
            namaste_sequence := namaste_sequence st;
            fhir_resources := fhir_resources st;
            now := now st;
            current_timestamp := current_timestamp st |},
         {| processed := processed';
            inserted := inserted results;
            updated := S (updated results);
            errors := errors results |})
    | None =>
        (insert_code code0 display0 system0 specialty0 description0 st,
         {| processed := processed';
            inserted := S (inserted results);
            updated := updated results;
            errors := errors results |})
    end.

Definition ingest_rows (csvData : list Csv.Row) (acc : State * Results)
  : State * Results :=
  fold_left ingest_row csvData acc.

Definition ingestCSV (csvData : list Csv.Row) (st : State) : State * Results :=
  let (st', results) :=
    ingest_rows csvData
                (st, {| processed := 0; inserted := 0; updated := 0; errors := [] |}) in
  if (0 <? inserted results)%nat || (0 <? updated results)%nat
  then (fst (createNAMASTECodeSystem st'), results)
  else (st', results).

Definition getCodeSystem (id0 : string) (st : State) : State * option Content :=
  match find (fun r => (resource_id r =? id0) && (resource_type r =? "CodeSystem"))
             (fhir_resources st) with
  | Some result => (st, Some (content result))
  | None =>
      if id0 =? "namaste-ayush-codes"
      then let (st', codeSystem) := createNAMASTECodeSystem st in
           (st', Some (CodeSystemContent codeSystem))
      else (st, None)
  end.

#[warnings="-register-all"]
Inductive Entry : Type :=
| ValueCode (name value : string)
| ValueUri (name value : string)
| ValueString (name : string) (value : option string)
| Part (name : string) (part : list Entry).

Definition parameters (code0 display0 system0 specialty0 : string)
  (description0 : option string) : list Entry :=
  [ ValueCode "code" code0;
    ValueUri "system" namaste_url;
    ValueString "display" (Some display0);
    ValueString "definition" description0;
    Part "property"
         [ValueCode "code" "system"; ValueString "value" (Some system0)];
    Part "property"
         [ValueCode "code" "specialty"; ValueString "value" (Some specialty0)] ].

(** The promise of [lookupCode]: rejected with the message of the
    error, or resolved with [null] or the parameters. *)
Definition lookupCode (system code0 : string) (st : State)
  : string + option (list Entry) :=
  if negb (system =? namaste_url)
  then inl "Unsupported code system"
  else
    match find (fun r => (code r =? code0) && active r) (namaste_codes st) with
    | None => inr None
    | Some result =>
        inr (Some (parameters (code result) (display result)
                              (system_name result) (specialty result)
                              (description result)))
    end.

(** The rows of a file that pass the check of required fields. *)
Definition accepted (row : Csv.Row) : bool :=
  JS.truthy (Csv.code row) && JS.truthy (Csv.display row)
  && JS.truthy (Csv.system row).

(** What a row of the file asks the table to hold. *)
Definition holds (row : Csv.Row) (r : Code) : Prop :=
  code r = text_string (Csv.code row)
  /\ display r = text_string (Csv.display row)
  /\ system_name r = text_string (Csv.system row)
  /\ specialty r
     = text_string (JS.or (Csv.specialty row) (JS.Str "General Medicine"))
  /\ description r = bound (Csv.description row).

End Fhir.

(** A table after a run of the service against the table before it:
    the columns that identify a row are kept in place, and what is
    added is active. *)
Definition extends (before after : list Fhir.Code) : Prop :=
  exists added,
    map Fhir.code after = map Fhir.code before ++ map Fhir.code added
    /\ map Fhir.id after = map Fhir.id before ++ map Fhir.id added
    /\ map Fhir.status after = map Fhir.status before ++ map Fhir.status added
    /\ Forall (fun r => Fhir.status r = Some "active") added.




(** ** The parser of the Ayurveda workbook

    [AyurvedaCodesParser.processRawData] and [cleanValue] over what
    [sheet_to_json] with [header: 1] hands over: an array per row of
    the sheet, a cell being a string, a number, a boolean or nothing.
    [String(value)] of a number is a parameter. *)

Module Parser.

Inductive Cell : Type :=
| Null
| Undefined
| Text (s : string)
| Number (x : float)
| Boolean (b : bool).

(** The objects pushed on [codes]. *)
Record Code : Type := {
  namc_id : JS.text;
  code : JS.text;
  namc_term : JS.text;
  namc_term_diacritical : JS.text;
  namc_term_devanagari : JS.text;
  short_definition : JS.text;
  long_definition : JS.text;
  ontology_branches : JS.text;
  name_english : JS.text;
  name_english_under_index : JS.text;
  primary_index_related : JS.text;
  display : JS.text;
  description : JS.text;
  specialty : string;
  system_name : string
}.

(** [!!value] *)
Definition truthy (value : Cell) : bool :=
  match value with
  | Null | Undefined => false
  | Text s => negb (s =? "")
  | Number x => Stored.number_truthy x
  | Boolean b => b
  end.

(** [row[k]] *)
Definition at_ (row : list Cell) (k : nat) : Cell := nth k row Undefined.

Section WithString.

Variable String_of_number : float -> string.

Definition cleanValue (value : Cell) : JS.text :=
  match value with
  | Null | Undefined => JS.Null
  | Text s => JS.Str (JS.trim s)
  | Number x => JS.Str (JS.trim (String_of_number x))
  | Boolean b => JS.Str (JS.trim (if b then "true" else "false"))
  end.

(** The body of the loop for one [rawData[i]]; [None] is a hole of the
    array. *)
Definition process_row (rawRow : option (list Cell)) : list Code :=
  match rawRow with
  | None => []
  | Some row =>
      if (List.length row =? 0)%nat || negb (truthy (at_ row 1)) then []
      else
        let code0 :=
          {| namc_id := cleanValue (at_ row 1);
             code := cleanValue (at_ row 2);
             namc_term := cleanValue (at_ row 3);
             namc_term_diacritical := cleanValue (at_ row 4);
             namc_term_devanagari := cleanValue (at_ row 5);
             short_definition := cleanValue (at_ row 6);
             long_definition := cleanValue (at_ row 7);
             ontology_branches := cleanValue (at_ row 8);
             name_english := cleanValue (at_ row 9);
             name_english_under_index := cleanValue (at_ row 10);
             primary_index_related := cleanValue (at_ row 11);
             display :=
               JS.or (JS.or (cleanValue (at_ row 9)) (cleanValue (at_ row 3)))
                     (cleanValue (at_ row 2));
             description :=
               JS.or (JS.or (cleanValue (at_ row 7)) (cleanValue (at_ row 6)))
                     (cleanValue (at_ row 9));
             specialty := "Ayurveda";
             system_name := "AYUSH" |} in
        if JS.truthy (code code0)
           && negb (JS.trim (text_string (code code0)) =? "")
           && negb (text_string (code code0) =? "-")
        then [code0]
        else []
  end.

(** [for (let i = 1; i < rawData.length; i++)] *)
Definition processRawData (rawData : list (option (list Cell))) : list Code :=
  flat_map process_row (skipn 1 rawData).

End WithString.

(** A parsed code as the matcher reads it: the properties that
    [createSearchableText] and [findBestMatches] look up, those that
    the object does not have being [undefined]. *)
Definition as_code (c : Code) : Code.t :=
  {| Code.code := code c;
     Code.id := JS.Undefined;
     Code.display := display c;
     Code.title := JS.Undefined;
     Code.name_english := name_english c;
     Code.description := description c;
     Code.definition := JS.Undefined;
     Code.longDefinition := JS.Undefined;
     Code.namc_term := namc_term c;
     Code.short_definition := short_definition c;
     Code.long_definition := long_definition c;
     Code.synonym := None;
     Code.inclusion := None |}.

End Parser.

(** A mapping that the NOT NULL columns of [concept_mappings] take. *)
Definition storable (m : Mapping) : bool :=
  match ayurveda_code m, icd11_code m with
  | JS.Str _, JS.Str _ => true
  | _, _ => false
  end.

(** ** The value set of the NAMASTE codes

    The statement that [createNAMASTEValueSet] builds from its
    filter. *)

Module ValueSet.

Record Filter : Type := {
  system : JS.text;
  specialty : JS.text;
  text : JS.text
}.

Definition select_codes : string := "
      SELECT code, display, system_name, specialty, description 
      FROM namaste_codes 
      WHERE status = 'active'
    ".

(** [query += clause; params.push(...values)] under [if (cond)] *)
Definition add_if (cond : bool) (clause : string) (values : list string)
    (built : string * list string) : string * list string :=
  if cond then ((fst built ++ clause)%string, snd built ++ values) else built.

Definition createNAMASTEValueSet_query (filter : Filter)
  : string * list string :=
  let built := (select_codes, []) in
  let built := add_if (JS.truthy (system filter))
                      " AND system_name = ?"
                      [text_string (system filter)] built in
  let built := add_if (JS.truthy (specialty filter))
                      " AND specialty = ?"
                      [text_string (specialty filter)] built in
  let built := add_if (JS.truthy (text filter))
                      " AND (display LIKE ? OR description LIKE ?)"
                      [("%" ++ text_string (text filter) ++ "%")%string;
                       ("%" ++ text_string (text filter) ++ "%")%string]
                      built in
  ((fst built ++ " ORDER BY system_name, code")%string, snd built).

End ValueSet.

(** ** More sample inputs *)

Module Fixture.

(** A record whose only text is punctuation. *)
Definition punctuated : Code.t :=
  Sample.record (JS.Str "P") (JS.Str "?!").

(** A world whose store holds the row of [Sample.top]. *)
Definition seeded : World :=
  {| db := {| Db.rows := [Sample.top_row];
              Db.sequence := 1;
              Db.last_insert_rowid := 1 |};
     statements := [];
     console := [] |}.

(** A row of the file without a specialty and a description, and one
    with both. *)
Definition vata : Csv.Row :=
  {| Csv.code := JS.Str "AYU001";
     Csv.display := JS.Str "Vata Dosha Imbalance";
     Csv.system := JS.Str "Ayurveda";
     Csv.specialty := JS.Undefined;
     Csv.description := JS.Undefined |}.

Definition pitta : Csv.Row :=
  {| Csv.code := JS.Str "AYU002";
     Csv.display := JS.Str "Pitta Dosha Imbalance";
     Csv.system := JS.Str "Ayurveda";
     Csv.specialty := JS.Str "Kayachikitsa";
     Csv.description := JS.Str "Constitutional imbalance of Pitta dosha" |}.

(** A table that has the first code already, retired. *)
Definition retired : Fhir.State :=
  {| Fhir.namaste_codes :=
       [ {| Fhir.id := 1;
            Fhir.code := "AYU001";
            Fhir.display := "Vata";
            Fhir.system_name := "Ayurveda";
            Fhir.specialty := "General Medicine";
            Fhir.description := None;
            Fhir.status := Some "retired";
            Fhir.created_at := "2024-06-30 09:00:00";
            Fhir.updated_at := "2024-06-30 09:00:00" |} ];
     Fhir.namaste_sequence := 1;
     Fhir.fhir_resources := [];
     Fhir.now := "2025-01-01T00:00:00.000Z";
     Fhir.current_timestamp := "2025-01-01 00:00:00" |}.

Definition empty : Fhir.State :=
  {| Fhir.namaste_codes := [];
     Fhir.namaste_sequence := 0;
     Fhir.fhir_resources := [];
     Fhir.now := "2025-01-01T00:00:00.000Z";
     Fhir.current_timestamp := "2025-01-01 00:00:00" |}.

(** A stand-in for [String(value)] on the numbers of a sheet. *)
Definition String_of_number (x : float) : string :=
  if (x =? 1)%float then "1" else "0".

(** A sheet: the header, a row with a code, a row with a dash for its
    code, an empty row and a hole. *)
Definition workbook : list (option (list Parser.Cell)) :=
  [ Some [Parser.Text "Sr No."; Parser.Text "NAMC_ID"; Parser.Text "NAMC_CODE"];
    Some [Parser.Number 1; Parser.Number 1; Parser.Text " AAA-1 ";
          Parser.Text "grahani"; Parser.Undefined; Parser.Undefined;
          Parser.Text "-"; Parser.Undefined; Parser.Undefined;
          Parser.Text "Gastro-intestinal disorder"];
    Some [Parser.Number 0; Parser.Number 1; Parser.Text "-"];
    Some [];
    None ].

(** What the second row of [workbook] is parsed into. *)
Definition parsed : Parser.Code :=
  {| Parser.namc_id := JS.Str "1";
     Parser.code := JS.Str "AAA-1";
     Parser.namc_term := JS.Str "grahani";
     Parser.namc_term_diacritical := JS.Null;
     Parser.namc_term_devanagari := JS.Null;
     Parser.short_definition := JS.Str "-";
     Parser.long_definition := JS.Null;
     Parser.ontology_branches := JS.Null;
     Parser.name_english := JS.Str "Gastro-intestinal disorder";
     Parser.name_english_under_index := JS.Null;
     Parser.primary_index_related := JS.Null;
     Parser.display := JS.Str "Gastro-intestinal disorder";
     Parser.description := JS.Str "-";
     Parser.specialty := "Ayurveda";
     Parser.system_name := "AYUSH" |}.

End Fixture.

(** * Properties *)

(** ** Binary64 arithmetic

    What the ranking needs from IEEE 754: comparisons are a total
    order on the numbers above zero, and the sign of a difference
    agrees with the comparison.  The second fact rests on rounding
    never turning a non-zero difference of two numbers into zero. *)

Module Binary64.

Local Open Scope Z_scope.

Lemma digits2_pos_bounds (p : positive) :
  2 ^ (Z.pos (digits2_pos p) - 1) <= Z.pos p < 2 ^ Z.pos (digits2_pos p).
Proof.
  induction p as [p IH | p IH | ]; simpl digits2_pos.
  - rewrite Pos2Z.inj_succ.
    replace (Z.succ (Z.pos (digits2_pos p)) - 1) with (Z.succ (Z.pos (digits2_pos p) - 1)) by lia.
    rewrite !Z.pow_succ_r by lia. lia.
  - rewrite Pos2Z.inj_succ.
    replace (Z.succ (Z.pos (digits2_pos p)) - 1) with (Z.succ (Z.pos (digits2_pos p) - 1)) by lia.
    rewrite !Z.pow_succ_r by lia. lia.
  - simpl. lia.
Qed.

Lemma iter_xO_value (m d : positive) :
  Z.pos (Pos.iter xO m d) = Z.pos m * 2 ^ Z.pos d.
Proof.
  induction d as [ | d IH] using Pos.peano_ind.
  - simpl. lia.
  - rewrite Pos.iter_succ, Pos2Z.inj_succ, Z.pow_succ_r by lia.
    rewrite Pos2Z.inj_xO, IH. lia.
Qed.

Lemma shl_align_value (m : positive) (e e' : Z) :
  e' <= e ->
  exists mz, shl_align m e e' = (mz, e') /\ Z.pos mz = Z.pos m * 2 ^ (e - e').
Proof.
  intros Hle. unfold shl_align.
  destruct (e' - e) as [ | d | d] eqn:Hd; try lia.
  - exists m. assert (e' = e) by lia. subst. rewrite Z.sub_diag. split; [reflexivity | simpl; lia].
  - exists (Pos.iter xO m d). split; [reflexivity | ].
    rewrite iter_xO_value. f_equal. f_equal. lia.
Qed.

Lemma shr_1_keeps (k : Z) (r : shr_record) :
  0 <= k -> 2 ^ (k + 1) <= shr_m r -> 2 ^ k <= shr_m (shr_1 r).
Proof.
  intros Hk. rewrite Z.pow_add_r, Z.pow_1_r by lia.
  assert (0 < 2 ^ k) by (apply Z.pow_pos_nonneg; lia).
  destruct r as [m r s]. simpl shr_m at 1.
  destruct m as [ | [p | p | ] | p]; simpl; lia.
Qed.

Lemma iter_shr_1_keeps (n : positive) :
  forall (k : Z) (r : shr_record),
    0 <= k -> 2 ^ (k + Z.pos n) <= shr_m r ->
    2 ^ k <= shr_m (SpecFloat.iter_pos shr_1 n r).
Proof.
  induction n as [n IH | n IH | ]; intros k r Hk Hm; simpl SpecFloat.iter_pos.
  - apply IH; [lia | ]. apply IH; [lia | ]. apply shr_1_keeps; [lia | ].
    replace (k + Z.pos n + Z.pos n + 1) with (k + Z.pos n~1) by lia. exact Hm.
  - apply IH; [lia | ]. apply IH; [lia | ].
    replace (k + Z.pos n + Z.pos n) with (k + Z.pos n~0) by lia. exact Hm.
  - apply shr_1_keeps; assumption.
Qed.

Lemma shr_record_of_loc_m (m : Z) (l : location) :
  shr_m (shr_record_of_loc m l) = m.
Proof. destruct l as [ | [ | | ]]; reflexivity. Qed.

Lemma shr_fexp_positive (m : positive) (e : Z) (l : location) :
  SpecFloat.emin prec emax <= e ->
  0 < shr_m (fst (shr_fexp prec emax (Z.pos m) e l))
  /\ SpecFloat.emin prec emax <= snd (shr_fexp prec emax (Z.pos m) e l).
Proof.
  unfold shr_fexp, shr, fexp, SpecFloat.emin, prec, emax. intros He.
  simpl Zdigits2.
  destruct (Z.max (Z.pos (digits2_pos m) + e - 53) (3 - 1024 - 53) - e)
    as [ | n | n] eqn:Hn; simpl fst; simpl snd;
    rewrite ?shr_record_of_loc_m; try lia.
  split; [ | lia].
  assert (Hb := digits2_pos_bounds m).
  assert (H1 : 2 ^ 0 <= shr_m (SpecFloat.iter_pos shr_1 n (shr_record_of_loc (Z.pos m) l))).
  { apply iter_shr_1_keeps; [lia | ]. rewrite shr_record_of_loc_m.
    apply Z.le_trans with (2 ^ (Z.pos (digits2_pos m) - 1)); [ | lia].
    apply Z.pow_le_mono_r; lia. }
  simpl in H1. lia.
Qed.

Lemma round_nearest_even_positive (m : Z) (l : location) :
  0 < m -> 0 < round_nearest_even m l.
Proof.
  intros Hm. destruct l as [ | [ | | ]]; simpl; try lia.
  destruct (Z.even m); lia.
Qed.

Lemma binary_round_aux_positive (m : positive) (e : Z) (l : location) :
  SpecFloat.emin prec emax <= e ->
  is_positive (binary_round_aux prec emax false (Z.pos m) e l) = true.
Proof.
  intros He. unfold binary_round_aux.
  destruct (shr_fexp_positive m e l He) as [Hm1 He1].
  destruct (shr_fexp prec emax (Z.pos m) e l) as [r1 e1]. simpl in Hm1, He1.
  assert (Hr := round_nearest_even_positive (shr_m r1) (loc_of_shr_record r1) Hm1).
  destruct (round_nearest_even (shr_m r1) (loc_of_shr_record r1)) as [ | m2 | m2];
    try lia.
  destruct (shr_fexp_positive m2 e1 loc_Exact He1) as [Hm2 _].
  destruct (shr_fexp prec emax (Z.pos m2) e1 loc_Exact) as [r2 e2]. simpl in Hm2.
  destruct (shr_m r2); try lia.
  destruct (e2 <=? emax - prec); reflexivity.
Qed.

Lemma binary_round_positive (m : positive) (e : Z) :
  SpecFloat.emin prec emax <= e ->
  is_positive (binary_round prec emax false m e) = true.
Proof.
  intros He. unfold binary_round.
  destruct (shl_align m e (fexp prec emax (Z.pos (digits2_pos m) + e)))
    as [mz ez] eqn:Hal.
  apply binary_round_aux_positive.
  unfold shl_align in Hal.
  assert (SpecFloat.emin prec emax <= fexp prec emax (Z.pos (digits2_pos m) + e))
    by (unfold fexp; lia).
  destruct (fexp prec emax (Z.pos (digits2_pos m) + e) - e) eqn:Hd;
    injection Hal as _ <-; (exact H || lia).
Qed.

Lemma binary_round_negative (m : positive) (e : Z) :
  is_positive (binary_round prec emax true m e) = false.
Proof.
  unfold binary_round.
  destruct (shl_align m e _) as [mz ez].
  unfold binary_round_aux.
  destruct (shr_fexp prec emax (Z.pos mz) ez loc_Exact) as [r1 e1].
  destruct (shr_fexp prec emax _ e1 loc_Exact) as [r2 e2].
  destruct (shr_m r2); try reflexivity.
  destruct (e2 <=? emax - prec); reflexivity.
Qed.

Lemma bounded_canonical (m : positive) (e : Z) :
  bounded prec emax m e = true ->
  SpecFloat.emin prec emax <= e /\ Z.pos (digits2_pos m) <= 53
  /\ (SpecFloat.emin prec emax < e -> Z.pos (digits2_pos m) = 53).
Proof.
  unfold bounded, canonical_mantissa, fexp, SpecFloat.emin, prec, emax.
  intros H. apply andb_true_iff in H. destruct H as [H _].
  apply Z.eqb_eq in H. lia.
Qed.

(** Comparison of two positive finite values is the comparison of their
    mantissas once aligned on the smaller exponent. *)
Lemma compare_aligned (m1 m2 : positive) (e1 e2 : Z) :
  bounded prec emax m1 e1 = true -> bounded prec emax m2 e2 = true ->
  match e1 ?= e2 with
  | Lt => Lt
  | Gt => Gt
  | Eq => Pos.compare_cont Eq m1 m2
  end
  = (Z.pos (fst (shl_align m1 e1 (Z.min e1 e2)))
     ?= Z.pos (fst (shl_align m2 e2 (Z.min e1 e2)))).
Proof.
  intros B1 B2.
  destruct (bounded_canonical _ _ B1) as (He1 & Hd1 & Hn1).
  destruct (bounded_canonical _ _ B2) as (He2 & Hd2 & Hn2).
  destruct (shl_align_value m1 e1 (Z.min e1 e2)) as (a1 & E1 & V1); [lia | ].
  destruct (shl_align_value m2 e2 (Z.min e1 e2)) as (a2 & E2 & V2); [lia | ].
  rewrite E1, E2. simpl fst. 
  assert (D1 := digits2_pos_bounds m1). assert (D2 := digits2_pos_bounds m2).
  destruct (Z.compare_spec e1 e2) as [Heq | Hlt | Hgt].
  - subst e2. rewrite Z.min_id, Z.sub_diag in V1, V2. simpl in V1, V2.
    change (Pos.compare_cont Eq m1 m2) with (Z.pos m1 ?= Z.pos m2).
    f_equal; lia.
  - symmetry. apply Z.compare_lt_iff.
    rewrite Z.min_l in V1, V2 by lia. rewrite Z.sub_diag in V1. simpl in V1.
    rewrite V1, V2. rewrite (Hn2 ltac:(lia)) in D2.
    assert (2 ^ 1 <= 2 ^ (e2 - e1)) by (apply Z.pow_le_mono_r; lia).
    assert (Z.pos m1 < 2 ^ 53).
    { apply Z.lt_le_trans with (2 ^ Z.pos (digits2_pos m1)); [lia | ].
      apply Z.pow_le_mono_r; lia. }
    change (2 ^ 1) with 2 in *. change (2 ^ (53 - 1)) with 4503599627370496 in *.
    change (2 ^ 53) with 9007199254740992 in *. nia.
  - symmetry. apply Z.compare_gt_iff.
    rewrite Z.min_r in V1, V2 by lia. rewrite Z.sub_diag in V2. simpl in V2.
    rewrite V1, V2. rewrite (Hn1 ltac:(lia)) in D1.
    assert (2 ^ 1 <= 2 ^ (e1 - e2)) by (apply Z.pow_le_mono_r; lia).
    assert (Z.pos m2 < 2 ^ 53).
    { apply Z.lt_le_trans with (2 ^ Z.pos (digits2_pos m2)); [lia | ].
      apply Z.pow_le_mono_r; lia. }
    change (2 ^ 1) with 2 in *. change (2 ^ (53 - 1)) with 4503599627370496 in *.
    change (2 ^ 53) with 9007199254740992 in *. nia.
Qed.

Lemma SFltb_zero (f : spec_float) : SFltb (S754_zero false) f = is_positive f.
Proof. destruct f as [s | s | | s m e]; try destruct s; reflexivity. Qed.

Lemma leb_is_positive (c x : float) :
  is_positive (Prim2SF c) = true -> (c <=? x)%float = true ->
  is_positive (Prim2SF x) = true.
Proof.
  rewrite leb_spec. unfold SFleb, SFcompare.
  destruct (Prim2SF c) as [s | s | | s m e]; try destruct s; try discriminate;
    destruct (Prim2SF x) as [s' | s' | | s' m' e']; try destruct s';
    simpl; intros; try discriminate; reflexivity.
Qed.

(** The sign of a difference is the outcome of the comparison. *)
Lemma sub_positive_ltb (x y : float) :
  is_positive (Prim2SF x) = true -> is_positive (Prim2SF y) = true ->
  (0 <? y - x)%float = (x <? y)%float.
Proof.
  intros Hx Hy. rewrite !ltb_spec, sub_spec.
  change (Prim2SF 0) with (S754_zero false). rewrite SFltb_zero.
  assert (Vx := Prim2SF_valid x). assert (Vy := Prim2SF_valid y).
  destruct (Prim2SF x) as [sx | sx | | sx mx ex]; try destruct sx; try discriminate;
    destruct (Prim2SF y) as [sy | sy | | sy my ey]; try destruct sy; try discriminate;
    try reflexivity.
  simpl in Vx, Vy.
  unfold SF64sub, SFsub, SFltb, SFcompare.
  rewrite (compare_aligned mx my ex ey Vx Vy).
  rewrite (Z.min_comm ey ex). unfold cond_Zopp.
  destruct (bounded_canonical _ _ Vx) as (Hex & _).
  destruct (bounded_canonical _ _ Vy) as (Hey & _).
  set (ax := Z.pos (fst (shl_align mx ex (Z.min ex ey)))).
  set (ay := Z.pos (fst (shl_align my ey (Z.min ex ey)))).
  destruct (Z.compare_spec ax ay) as [Heq | Hlt | Hgt].
  - rewrite Heq, Z.sub_diag. reflexivity.
  - destruct (ay - ax) as [ | d | d] eqn:Hd; try lia.
    simpl binary_normalize. apply binary_round_positive. lia.
  - destruct (ay - ax) as [ | d | d] eqn:Hd; try lia.
    simpl binary_normalize. apply binary_round_negative.
Qed.

Lemma SFcompare_antisym (a b : spec_float) :
  SFcompare b a = option_map CompOpp (SFcompare a b).
Proof.
  destruct a as [s | s | | s m e]; try destruct s;
    destruct b as [s' | s' | | s' m' e']; try destruct s'; try reflexivity;
    simpl; rewrite (Z.compare_antisym e e'); destruct (e ?= e'); simpl;
    try reflexivity; rewrite (Pos.compare_cont_antisym m m' Eq); simpl;
    rewrite ?CompOpp_involutive; reflexivity.
Qed.

Lemma leb_not_ltb (c x : float) :
  (c <=? x)%float = true -> (x <? c)%float = false.
Proof.
  rewrite leb_spec, ltb_spec. unfold SFleb, SFltb.
  rewrite (SFcompare_antisym (Prim2SF c) (Prim2SF x)).
  destruct (SFcompare (Prim2SF c) (Prim2SF x)) as [[ | | ] | ];
    simpl; intros; try discriminate; reflexivity.
Qed.

Lemma ltb_leb (x y : float) : (x <? y)%float = true -> (x <=? y)%float = true.
Proof.
  rewrite leb_spec, ltb_spec. unfold SFleb, SFltb.
  destruct (SFcompare (Prim2SF x) (Prim2SF y)) as [[ | | ] | ];
    intros; try discriminate; reflexivity.
Qed.

Lemma SFcompare_positive (a b : spec_float) :
  is_positive a = true -> is_positive b = true -> SFcompare a b <> None.
Proof.
  destruct a as [s | s | | s m e]; try destruct s; try discriminate;
    destruct b as [s' | s' | | s' m' e']; try destruct s'; discriminate.
Qed.

Lemma not_ltb_leb (x y : float) :
  is_positive (Prim2SF x) = true -> is_positive (Prim2SF y) = true ->
  (x <? y)%float = false -> (y <=? x)%float = true.
Proof.
  intros Hx Hy. rewrite leb_spec, ltb_spec. unfold SFleb, SFltb.
  rewrite (SFcompare_antisym (Prim2SF x) (Prim2SF y)).
  assert (Hc := SFcompare_positive _ _ Hx Hy).
  destruct (SFcompare (Prim2SF x) (Prim2SF y)) as [[ | | ] | ];
    simpl; intros; try discriminate; try reflexivity. congruence.
Qed.

Lemma SFcompare_Eq_positive (a b : spec_float) :
  is_positive a = true -> SFcompare a b = Some Eq -> a = b.
Proof.
  destruct a as [s | s | | s m e]; try destruct s; try discriminate;
    destruct b as [s' | s' | | s' m' e']; try destruct s'; try discriminate;
    try reflexivity.
  simpl. intros _. destruct (Z.compare_spec e e'); try discriminate.
  intros H1. injection H1 as H1. apply Pos.compare_eq in H1. congruence.
Qed.

Lemma SFcompare_refl_positive (a : spec_float) :
  is_positive a = true -> SFcompare a a = Some Eq.
Proof.
  destruct a as [s | s | | s m e]; try destruct s; try discriminate; try reflexivity.
  intros _. simpl. rewrite Z.compare_refl, Pos.compare_cont_refl. reflexivity.
Qed.

Lemma eqb_not_ltb (x y s : float) :
  is_positive (Prim2SF x) = true -> is_positive (Prim2SF y) = true ->
  (x =? s)%float = true -> (y =? s)%float = true -> (x <? y)%float = false.
Proof.
  intros Hx Hy. rewrite !FloatAxioms.eqb_spec, ltb_spec. unfold SFeqb, SFltb.
  destruct (SFcompare (Prim2SF x) (Prim2SF s)) as [[ | | ] | ] eqn:Ex; try discriminate.
  destruct (SFcompare (Prim2SF y) (Prim2SF s)) as [[ | | ] | ] eqn:Ey; try discriminate.
  intros _ _.
  apply SFcompare_Eq_positive in Ex, Ey; trivial.
  rewrite Ex, <- Ey, SFcompare_refl_positive; trivial.
Qed.

Lemma SFleb_trans_positive (a b c : spec_float) :
  is_positive a = true -> is_positive b = true -> is_positive c = true ->
  SFleb a b = true -> SFleb b c = true -> SFleb a c = true.
Proof.
  unfold SFleb.
  destruct a as [s | s | | s m e]; try destruct s; try discriminate;
    destruct b as [s' | s' | | s' m' e']; try destruct s'; try discriminate;
    destruct c as [s'' | s'' | | s'' m'' e'']; try destruct s''; try discriminate;
    simpl; trivial; intros _ _ _.
  change (Pos.compare_cont Eq) with Pos.compare.
  destruct (Z.compare_spec e e'), (Z.compare_spec e' e''), (Z.compare_spec e e'');
    try discriminate; trivial; try lia;
    destruct (Pos.compare_spec m m'), (Pos.compare_spec m' m''),
             (Pos.compare_spec m m''); try discriminate; trivial; lia.
Qed.

Lemma leb_trans_positive (x y z : float) :
  is_positive (Prim2SF x) = true -> is_positive (Prim2SF y) = true ->
  is_positive (Prim2SF z) = true ->
  (x <=? y)%float = true -> (y <=? z)%float = true -> (x <=? z)%float = true.
Proof. rewrite !leb_spec. apply SFleb_trans_positive. Qed.

End Binary64.

(** ** Arrays: [slice] and [sort] *)

Lemma slice0_prefix {A} (xs : list A) (end_ : Z) :
  exists k, JS.slice0 xs end_ = firstn k xs.
Proof. unfold JS.slice0. eexists. reflexivity. Qed.

Lemma slice0_In {A} (xs : list A) (end_ : Z) (x : A) :
  In x (JS.slice0 xs end_) -> In x xs.
Proof.
  destruct (slice0_prefix xs end_) as [k ->].
  rewrite <- (firstn_skipn k xs) at 2. intros H. apply in_or_app. now left.
Qed.

Lemma slice0_length {A} (xs : list A) (end_ : Z) :
  (0 <= end_)%Z -> (Z.of_nat (List.length (JS.slice0 xs end_)) <= end_)%Z.
Proof.
  intros Hend. unfold JS.slice0.
  destruct (Z.ltb_spec end_ 0) as [Hneg | _]; [lia | ].
  rewrite length_firstn. lia.
Qed.

Lemma filter_firstn_prefix {A} (p : A -> bool) (k : nat) (xs : list A) :
  exists rest, filter p xs = filter p (firstn k xs) ++ rest.
Proof.
  exists (filter p (skipn k xs)).
  rewrite <- filter_app, firstn_skipn. reflexivity.
Qed.

Section SortByScore.

Variable A : Type.
Variable score : A -> float.

Let descending (a b : A) : float := (score b - score a)%float.

(** The scores at hand are numbers above zero. *)
Let above_zero (a : A) : Prop := is_positive (Prim2SF (score a)) = true.

(** [a] does not rank below [b]. *)
Let not_below (a b : A) : Prop := (score b <=? score a)%float = true.

Lemma sort_insert_permutation (x : A) (xs : list A) :
  Permutation (JS.sort_insert descending x xs) (x :: xs).
Proof.
  induction xs as [ | y rest IH]; simpl.
  - apply Permutation_refl.
  - destruct (0 <? descending x y)%float.
    + apply perm_trans with (y :: x :: rest).
      * apply perm_skip. exact IH.
      * apply perm_swap.
    + apply Permutation_refl.
Qed.

Lemma sort_permutation (xs : list A) : Permutation (JS.sort descending xs) xs.
Proof.
  induction xs as [ | x rest IH]; simpl.
  - apply perm_nil.
  - apply perm_trans with (x :: JS.sort descending rest).
    + apply sort_insert_permutation.
    + apply perm_skip. exact IH.
Qed.

Lemma sort_Forall (P : A -> Prop) (xs : list A) :
  Forall P xs -> Forall P (JS.sort descending xs).
Proof.
  intros H. apply Forall_forall. intros x Hx.
  apply (proj1 (Forall_forall P xs) H).
  apply (Permutation_in x (sort_permutation xs) Hx).
Qed.

(** The comparator is consistent on numbers above zero: it asks for
    [x] after [y] exactly when [x] scores less. *)
Lemma descending_sign (x y : A) :
  above_zero x -> above_zero y ->
  (0 <? descending x y)%float = (score x <? score y)%float.
Proof. intros Hx Hy. apply Binary64.sub_positive_ltb; assumption. Qed.

Lemma sort_insert_sorted (x : A) (xs : list A) :
  above_zero x -> Forall above_zero xs ->
  StronglySorted not_below xs ->
  StronglySorted not_below (JS.sort_insert descending x xs).
Proof.
  intros Hx Hxs Hsorted.
  induction xs as [ | y rest IH]; simpl.
  - constructor; constructor.
  - inversion Hxs as [ | ? ? Hy Hrest]; subst.
    inversion Hsorted as [ | ? ? Hsrest Hall]; subst.
    rewrite (descending_sign x y Hx Hy).
    destruct (score x <? score y)%float eqn:Hlt.
    + constructor.
      * apply IH; assumption.
      * apply Forall_forall. intros z Hz.
        apply (Permutation_in z (sort_insert_permutation x rest)) in Hz.
        destruct Hz as [<- | Hz].
        -- apply Binary64.ltb_leb. exact Hlt.
        -- apply (proj1 (Forall_forall _ _) Hall z Hz).
    + assert (Hyx : not_below x y)
        by (apply Binary64.not_ltb_leb; assumption).
      constructor; [exact Hsorted | ].
      constructor; [exact Hyx | ].
      apply Forall_forall. intros z Hz.
      apply Binary64.leb_trans_positive with (y := score y).
      * apply (proj1 (Forall_forall _ _) Hrest z Hz).
      * exact Hy.
      * exact Hx.
      * apply (proj1 (Forall_forall _ _) Hall z Hz).
      * exact Hyx.
Qed.

Lemma sort_sorted (xs : list A) :
  Forall above_zero xs -> StronglySorted not_below (JS.sort descending xs).
Proof.
  induction xs as [ | x rest IH]; intros Hxs; simpl.
  - constructor.
  - inversion Hxs; subst.
    apply sort_insert_sorted; auto.
    apply sort_Forall. assumption.
Qed.

Lemma sort_insert_stable (s : float) (x : A) (xs : list A) :
  above_zero x -> Forall above_zero xs ->
  filter (fun a => (score a =? s)%float) (JS.sort_insert descending x xs)
  = filter (fun a => (score a =? s)%float) (x :: xs).
Proof.
  intros Hx Hxs.
  induction xs as [ | y rest IH]; [reflexivity | ].
  inversion Hxs as [ | ? ? Hy Hrest]; subst.
  simpl JS.sort_insert. rewrite (descending_sign x y Hx Hy).
  destruct (score x <? score y)%float eqn:Hlt; [ | reflexivity].
  specialize (IH Hrest). simpl in IH |- *. rewrite IH.
  destruct (score x =? s)%float eqn:Ex; destruct (score y =? s)%float eqn:Ey;
    try reflexivity.
  rewrite (Binary64.eqb_not_ltb _ _ s Hx Hy Ex Ey) in Hlt. discriminate.
Qed.

Lemma sort_stable (s : float) (xs : list A) :
  Forall above_zero xs ->
  filter (fun a => (score a =? s)%float) (JS.sort descending xs)
  = filter (fun a => (score a =? s)%float) xs.
Proof.
  induction xs as [ | x rest IH]; intros Hxs; [reflexivity | ].
  inversion Hxs; subst. simpl JS.sort.
  rewrite sort_insert_stable by (auto using sort_Forall).
  simpl. rewrite IH by assumption. reflexivity.
Qed.

End SortByScore.

(** ** The text normaliser *)

Lemma map_units_list (f : ascii -> ascii) (s : string) :
  list_ascii_of_string (JS.map_units f s) = map f (list_ascii_of_string s).
Proof. induction s as [ | c s IH]; simpl; [reflexivity | now rewrite IH]. Qed.

Lemma replace_space_runs_list (s : string) :
  list_ascii_of_string (JS.replace_space_runs s)
  = Contract.collapse_runs (list_ascii_of_string s).
Proof.
  unfold JS.replace_space_runs.
  induction s as [ | c s IH]; [reflexivity | ].
  simpl. destruct (JS.is_space c) eqn:Hc.
  - destruct s as [ | d s']; [reflexivity | ].
    simpl in IH |- *. destruct (JS.is_space d) eqn:Hd.
    + rewrite <- IH. reflexivity.
    + rewrite <- IH. reflexivity.
  - simpl. rewrite IH. reflexivity.
Qed.

Lemma trimStart_list (s : string) :
  list_ascii_of_string (JS.trimStart s)
  = Contract.drop_leading (list_ascii_of_string s).
Proof.
  induction s as [ | c s IH]; [reflexivity | ].
  simpl. destruct (JS.is_space c); [exact IH | reflexivity].
Qed.

Lemma drop_leading_app (l1 l2 : list ascii) :
  Contract.drop_leading (l1 ++ l2)
  = if forallb JS.is_space l1 then Contract.drop_leading l2
    else Contract.drop_leading l1 ++ l2.
Proof.
  induction l1 as [ | c l1 IH]; [reflexivity | ].
  simpl. destruct (JS.is_space c); [exact IH | reflexivity].
Qed.

Lemma drop_leading_nil (l : list ascii) :
  forallb JS.is_space l = true <-> Contract.drop_leading l = [].
Proof.
  induction l as [ | c l IH]; simpl; [tauto | ].
  destruct (JS.is_space c); simpl; [exact IH | ]. split; discriminate.
Qed.

Lemma trimEnd_list (s : string) :
  list_ascii_of_string (JS.trimEnd s)
  = rev (Contract.drop_leading (rev (list_ascii_of_string s))).
Proof.
  induction s as [ | c s IH]; [reflexivity | ].
  simpl. rewrite drop_leading_app.
  destruct (forallb JS.is_space (rev (list_ascii_of_string s))) eqn:Hall.
  - apply drop_leading_nil in Hall. rewrite Hall in IH. simpl in IH.
    destruct (JS.trimEnd s); [ | discriminate].
    simpl. destruct (JS.is_space c); reflexivity.
  - rewrite rev_app_distr. simpl. rewrite <- IH.
    destruct (JS.trimEnd s) eqn:Ht; [ | reflexivity].
    simpl in IH. symmetry in IH. apply (f_equal (@rev ascii)) in IH.
    rewrite rev_involutive in IH. simpl in IH.
    apply drop_leading_nil in IH. congruence.
Qed.

Lemma normalizeText_contract (text : JS.text) :
  normalizeText text = Contract.normalize text.
Proof.
  destruct text as [ | | s]; try reflexivity.
  unfold normalizeText, Contract.normalize.
  destruct (s =? "") eqn:Hs.
  - apply String.eqb_eq in Hs. subst s. reflexivity.
  - simpl negb. cbv iota.
    rewrite <- (string_of_list_ascii_of_string (JS.trim _)).
    f_equal. unfold JS.trim, Contract.trim_both.
    rewrite trimEnd_list, trimStart_list, replace_space_runs_list.
    unfold JS.replace_non_word_space, JS.toLowerCase.
    rewrite !map_units_list. reflexivity.
Qed.

Lemma blank_lower_unit (c : ascii) :
  let d := if JS.is_word (JS.lower_unit c) || JS.is_space (JS.lower_unit c)
           then JS.lower_unit c else " "%char in
  JS.is_space d || is_lower_word d = true.
Proof.
  destruct c as [[] [] [] [] [] [] [] []]; vm_compute; reflexivity.
Qed.

Lemma all_units_map (p : ascii -> bool) (f : ascii -> ascii) (s : string) :
  (forall c, p (f c) = true) -> all_units p (JS.map_units f s) = true.
Proof.
  intros H. induction s as [ | c s IH]; simpl; [reflexivity | ].
  rewrite H, IH. reflexivity.
Qed.

Lemma all_units_replace_space_runs (in_run : bool) (s : string) :
  all_units (fun c => JS.is_space c || is_lower_word c) s = true ->
  all_units space_or_lower_word (JS.replace_space_runs_from in_run s) = true.
Proof.
  revert in_run. induction s as [ | c s IH]; intros in_run H; [reflexivity | ].
  simpl in H. apply andb_true_iff in H. destruct H as [Hc Hs].
  simpl. destruct (JS.is_space c) eqn:Hsp.
  - destruct in_run; simpl; auto.
  - simpl in Hc. simpl. unfold space_or_lower_word at 1.
    rewrite Hc, orb_true_r. simpl. auto.
Qed.

Lemma all_units_trimStart (p : ascii -> bool) (s : string) :
  all_units p s = true -> all_units p (JS.trimStart s) = true.
Proof.
  induction s as [ | c s IH]; intros H; [reflexivity | ].
  simpl. destruct (JS.is_space c); [ | exact H].
  simpl in H. apply andb_true_iff in H. apply IH, H.
Qed.

Lemma all_units_trimEnd (p : ascii -> bool) (s : string) :
  all_units p s = true -> all_units p (JS.trimEnd s) = true.
Proof.
  induction s as [ | c s IH]; intros H; [reflexivity | ].
  simpl in H. apply andb_true_iff in H. destruct H as [Hc Hs].
  specialize (IH Hs). simpl.
  destruct (JS.trimEnd s) as [ | d r].
  - destruct (JS.is_space c); simpl; [reflexivity | now rewrite Hc].
  - change (all_units p (String c (String d r))) with (p c && all_units p (String d r)).
    now rewrite Hc, IH.
Qed.

Lemma trimStart_starts (s : string) : starts_with_space (JS.trimStart s) = false.
Proof.
  induction s as [ | c s IH]; [reflexivity | ].
  simpl. destruct (JS.is_space c) eqn:Hc; [exact IH | exact Hc].
Qed.

Lemma trimEnd_starts (s : string) :
  starts_with_space s = false -> starts_with_space (JS.trimEnd s) = false.
Proof.
  destruct s as [ | c s]; [reflexivity | ].
  simpl. intros Hc. destruct (JS.trimEnd s); rewrite ?Hc; exact Hc.
Qed.

Lemma trimEnd_ends (s : string) : ends_with_space (JS.trimEnd s) = false.
Proof.
  induction s as [ | c s IH]; [reflexivity | ].
  simpl. destruct (JS.trimEnd s) as [ | d r].
  - destruct (JS.is_space c) eqn:Hc; [reflexivity | exact Hc].
  - exact IH.
Qed.

Lemma replace_space_runs_no_run (in_run : bool) (s : string) :
  has_space_run (JS.replace_space_runs_from in_run s) = false
  /\ (in_run = true ->
      starts_with_space (JS.replace_space_runs_from in_run s) = false).
Proof.
  revert in_run. induction s as [ | c s IH]; intros in_run.
  - split; reflexivity.
  - simpl. destruct (JS.is_space c) eqn:Hc.
    + destruct in_run.
      * apply IH.
      * destruct (IH true) as [H1 H2]. split; [ | discriminate].
        simpl. rewrite H1, (H2 eq_refl). reflexivity.
    + destruct (IH false) as [H1 _]. split.
      * simpl. rewrite Hc, H1. reflexivity.
      * intros _. exact Hc.
Qed.

Lemma trimStart_no_run (s : string) :
  has_space_run s = false -> has_space_run (JS.trimStart s) = false.
Proof.
  induction s as [ | c s IH]; intros H; [reflexivity | ].
  simpl. destruct (JS.is_space c); [ | exact H].
  simpl in H. apply orb_false_iff in H. apply IH, H.
Qed.

Lemma trimEnd_starts_inv (s : string) :
  starts_with_space (JS.trimEnd s) = true -> starts_with_space s = true.
Proof.
  destruct s as [ | c s]; [discriminate | ].
  simpl. destruct (JS.trimEnd s); destruct (JS.is_space c) eqn:Hc; simpl;
    rewrite ?Hc; auto.
Qed.

Lemma trimEnd_no_run (s : string) :
  has_space_run s = false -> has_space_run (JS.trimEnd s) = false.
Proof.
  induction s as [ | c s IH]; intros H; [reflexivity | ].
  simpl in H. apply orb_false_iff in H. destruct H as [Hc Hs].
  specialize (IH Hs). simpl.
  destruct (JS.trimEnd s) as [ | d r] eqn:Ht.
  - destruct (JS.is_space c); simpl; [reflexivity | ].
    now rewrite andb_false_r.
  - change (has_space_run (String c (String d r)))
      with ((JS.is_space c && JS.is_space d) || has_space_run (String d r)).
    rewrite IH, orb_false_r.
    destruct (JS.is_space c) eqn:Hsc; [ | reflexivity]. simpl in Hc |- *.
    destruct (JS.is_space d) eqn:Hd; [ | reflexivity].
    assert (Hst : starts_with_space (JS.trimEnd s) = true) by (rewrite Ht; exact Hd).
    apply trimEnd_starts_inv in Hst. congruence.
Qed.

(** C8.  [normalizeText] answers the empty string for [null] and
    [undefined]; for a string it answers what the contract describes:
    the text in lowercase, with every unit that is neither a word
    character nor white space turned into a space, every run of white
    space collapsed into one space, and trimmed at both ends.  So the
    answer holds nothing but spaces and lowercase word characters, has
    no white space at either end and no two white-space units in a
    row.  It is a total function: no input makes it fail. *)
Theorem normalizeText_contract_full :
  normalizeText JS.Null = ""
  /\ normalizeText JS.Undefined = ""
  /\ forall text : JS.text,
       normalizeText text = Contract.normalize text
       /\ all_units space_or_lower_word (normalizeText text) = true
       /\ starts_with_space (normalizeText text) = false
       /\ ends_with_space (normalizeText text) = false
       /\ has_space_run (normalizeText text) = false.
Proof.
  split; [reflexivity | ]. split; [reflexivity | ]. intros text.
  split; [apply normalizeText_contract | ].
  destruct text as [ | | s]; try (repeat split; reflexivity).
  unfold normalizeText. destruct (s =? ""); simpl negb; cbv iota;
    [repeat split; reflexivity | ].
  unfold JS.trim, JS.replace_space_runs.
  repeat split.
  - apply all_units_trimEnd, all_units_trimStart, all_units_replace_space_runs.
    unfold JS.replace_non_word_space, JS.toLowerCase.
    induction s as [ | c s IH]; [reflexivity | ].
    simpl. rewrite IH, andb_true_r. apply blank_lower_unit.
  - apply trimEnd_starts, trimStart_starts.
  - apply trimEnd_ends.
  - apply trimEnd_no_run, trimStart_no_run, replace_space_runs_no_run.
Qed.

(** ** The match ranker *)

Lemma firstn_StronglySorted {A} (R : A -> A -> Prop) (k : nat) (xs : list A) :
  StronglySorted R xs -> StronglySorted R (firstn k xs).
Proof.
  intros H. revert k.
  induction H as [ | x rest Hrest IH Hall]; intros [ | k]; simpl; try constructor.
  - apply IH.
  - apply Forall_forall. intros y Hy.
    apply (proj1 (Forall_forall _ _) Hall).
    rewrite <- (firstn_skipn k rest). apply in_or_app. now left.
Qed.

Lemma match_for_pushed (fuzz : Fuzzball) (ayurvedaCode : Code.t)
    (ayurvedaSearchText : string) (icd11Code : Code.t) :
  Forall pushed (match_for fuzz ayurvedaCode ayurvedaSearchText icd11Code).
Proof.
  unfold match_for.
  destruct (similarityThreshold <=? _)%float eqn:Hge; constructor.
  - split; [exact Hge | reflexivity].
  - constructor.
Qed.

Lemma candidates_pushed (fuzz : Fuzzball) (ayurvedaCode : Code.t)
    (icd11Codes : list Code.t) :
  Forall pushed (candidates fuzz ayurvedaCode icd11Codes).
Proof.
  unfold candidates.
  induction icd11Codes as [ | t rest IH]; simpl.
  - constructor.
  - apply Forall_app. split; [apply match_for_pushed | exact IH].
Qed.

Lemma pushed_above_zero (m : Mapping) :
  pushed m -> is_positive (Prim2SF (similarity_score m)) = true.
Proof.
  intros [Hge _].
  apply (Binary64.leb_is_positive similarityThreshold); [reflexivity | exact Hge].
Qed.

Lemma findBestMatches_In (fuzz : Fuzzball) (ayurvedaCode : Code.t)
    (icd11Codes : list Code.t) (maxResults : option Z) (m : Mapping) :
  In m (findBestMatches fuzz ayurvedaCode icd11Codes maxResults) ->
  In m (candidates fuzz ayurvedaCode icd11Codes).
Proof.
  unfold findBestMatches. intros H. apply slice0_In in H.
  exact (Permutation_in m (sort_permutation _ similarity_score _) H).
Qed.

Lemma findBestMatches_pushed (fuzz : Fuzzball) (ayurvedaCode : Code.t)
    (icd11Codes : list Code.t) (maxResults : option Z) :
  Forall pushed (findBestMatches fuzz ayurvedaCode icd11Codes maxResults).
Proof.
  apply Forall_forall. intros m Hm.
  apply (proj1 (Forall_forall _ _) (candidates_pushed fuzz ayurvedaCode icd11Codes)).
  exact (findBestMatches_In _ _ _ _ _ Hm).
Qed.

(** C2, as the code has it.  When [maxResults] is not negative (5 when
    it is left out), [findBestMatches] returns at most [maxResults]
    entries; whatever [maxResults] is, every entry it returns has a
    composite score of at least 0.6 and none has a score strictly
    below 0.6, and a target whose composite score is strictly below
    0.6 contributes no entry. *)
Theorem findBestMatches_bounded (fuzz : Fuzzball) (ayurvedaCode : Code.t)
    (icd11Codes : list Code.t) (maxResults : option Z) :
  let returned := findBestMatches fuzz ayurvedaCode icd11Codes maxResults in
  ((0 <= default maxResults 5)%Z ->
   (Z.of_nat (List.length returned) <= default maxResults 5)%Z)
  /\ (forall m, In m returned ->
        (0.6 <=? similarity_score m)%float = true
        /\ (similarity_score m <? 0.6)%float = false)
  /\ (forall icd11Code,
        (composite
           (calculateCompositeSimilarity fuzz
              (JS.Str (createSearchableText ayurvedaCode))
              (JS.Str (createSearchableText icd11Code))) <? 0.6)%float = true ->
        match_for fuzz ayurvedaCode (createSearchableText ayurvedaCode) icd11Code
        = []).
Proof.
  intros returned. repeat split.
  - intros Hmax. unfold returned, findBestMatches. apply slice0_length.
    destruct maxResults; exact Hmax.
  - apply (proj1 (Forall_forall _ _)
             (findBestMatches_pushed fuzz ayurvedaCode icd11Codes maxResults) m H).
  - apply Binary64.leb_not_ltb.
    apply (proj1 (Forall_forall _ _)
             (findBestMatches_pushed fuzz ayurvedaCode icd11Codes maxResults) m H).
  - intros icd11Code Hlt. unfold match_for.
    destruct (similarityThreshold <=? _)%float eqn:Hge; [ | reflexivity].
    apply Binary64.leb_not_ltb in Hge.
    unfold similarityThreshold in Hge. rewrite Hge in Hlt. discriminate.
Qed.

(** C3.  The list that [findBestMatches] returns is in non-increasing
    order of composite score (each entry scores at least as much as
    every later one), and the entries that share a score come in the
    order in which the loop over the targets pushed them: they are the
    first of the candidates with that score, in the same order. *)
Theorem findBestMatches_sorted_stable (fuzz : Fuzzball) (ayurvedaCode : Code.t)
    (icd11Codes : list Code.t) (maxResults : option Z) :
  let returned := findBestMatches fuzz ayurvedaCode icd11Codes maxResults in
  StronglySorted
    (fun a b => (similarity_score b <=? similarity_score a)%float = true)
    returned
  /\ (forall score : float,
        exists later,
          filter (fun m => (similarity_score m =? score)%float)
                 (candidates fuzz ayurvedaCode icd11Codes)
          = filter (fun m => (similarity_score m =? score)%float) returned
            ++ later).
Proof.
  intros returned.
  assert (Hpos : Forall (fun m => is_positive (Prim2SF (similarity_score m)) = true)
                        (candidates fuzz ayurvedaCode icd11Codes)).
  { eapply Forall_impl; [ | apply candidates_pushed].
    intros m. apply pushed_above_zero. }
  unfold returned, findBestMatches.
  destruct (slice0_prefix
              (JS.sort by_score_descending (candidates fuzz ayurvedaCode icd11Codes))
              (match maxResults with Some n => n | None => 5%Z end)) as [k ->].
  split.
  - apply firstn_StronglySorted.
    apply (sort_sorted _ similarity_score). exact Hpos.
  - intros score.
    rewrite <- (sort_stable _ similarity_score score _ Hpos).
    apply filter_firstn_prefix.
Qed.

(** C4.  An entry that [findBestMatches] returns carries the tier
    "high" exactly when its composite score is at least 0.8 and the
    tier "medium" exactly when it is not; it never carries "low",
    although [getConfidenceLevel] does answer "low" for some scores. *)
Theorem findBestMatches_confidence :
  (forall (fuzz : Fuzzball) (ayurvedaCode : Code.t) (icd11Codes : list Code.t)
          (maxResults : option Z) (m : Mapping),
      In m (findBestMatches fuzz ayurvedaCode icd11Codes maxResults) ->
      (confidence m = "high" <-> (0.8 <=? similarity_score m)%float = true)
      /\ (confidence m = "medium" <-> (0.8 <=? similarity_score m)%float = false)
      /\ confidence m <> "low")
  /\ (exists score : float, getConfidenceLevel score = "low").
Proof.
  split.
  - intros fuzz ayurvedaCode icd11Codes maxResults m Hm.
    destruct (proj1 (Forall_forall _ _)
                (findBestMatches_pushed fuzz ayurvedaCode icd11Codes maxResults)
                m Hm) as [Hge Hconf].
    rewrite Hconf. unfold getConfidenceLevel. rewrite Hge.
    unfold highConfidenceThreshold.
    destruct (0.8 <=? similarity_score m)%float; repeat split;
      intros; try discriminate; reflexivity.
  - exists 0.5%float. reflexivity.
Qed.

(** ** The similarity scorer *)

Lemma normalizeText_truthy (text : JS.text) :
  normalizeText text <> "" -> JS.truthy text = true.
Proof.
  destruct text as [ | | s]; simpl; try congruence.
  destruct (s =? ""); simpl; congruence.
Qed.

Lemma calculateSimilarity_empty (fuzz : Fuzzball) (text1 text2 : JS.text)
    (method : string) :
  normalizeText text1 = "" \/ normalizeText text2 = "" ->
  calculateSimilarity fuzz text1 text2 method = 0%float.
Proof.
  intros H. unfold calculateSimilarity.
  destruct (negb (JS.truthy text1) || negb (JS.truthy text2)); [reflexivity | ].
  destruct H as [-> | ->]; simpl; rewrite ?orb_true_r; reflexivity.
Qed.

Lemma calculateSimilarity_metric (fuzz : Fuzzball) (text1 text2 : JS.text) :
  normalizeText text1 <> "" -> normalizeText text2 <> "" ->
  map (fun method => calculateSimilarity fuzz text1 text2 method) methods
  = [ (ratio fuzz (normalizeText text1) (normalizeText text2) / 100)%float;
      (partial_ratio fuzz (normalizeText text1) (normalizeText text2) / 100)%float;
      (token_sort_ratio fuzz (normalizeText text1) (normalizeText text2) / 100)%float;
      (token_set_ratio fuzz (normalizeText text1) (normalizeText text2) / 100)%float ].
Proof.
  intros H1 H2. unfold methods, calculateSimilarity. simpl map.
  rewrite (normalizeText_truthy _ H1), (normalizeText_truthy _ H2). simpl negb.
  apply String.eqb_neq in H1, H2. rewrite H1, H2. reflexivity.
Qed.

(** C5.  If either text normalises to the empty string, which covers
    [null], [undefined] and the empty string, the composite and the
    four sub-scores are all 0.  Otherwise each sub-score is the metric
    of fuzzball on the two normalised texts divided by 100, and the
    composite is 0.4 times the ratio plus 0.2 times each of the other
    three, added up from 0 in that order.  The scorer is a total
    function: it has no failing outcome. *)
Theorem calculateCompositeSimilarity_weights (fuzz : Fuzzball)
    (text1 text2 : JS.text) :
  let result := calculateCompositeSimilarity fuzz text1 text2 in
  let a := normalizeText text1 in
  let b := normalizeText text2 in
  (a = "" \/ b = "" ->
   composite result = 0%float
   /\ individual result
      = {| ind_ratio := 0; ind_partial_ratio := 0;
           ind_token_sort_ratio := 0; ind_token_set_ratio := 0 |})
  /\ (a <> "" -> b <> "" ->
      individual result
      = {| ind_ratio := (ratio fuzz a b / 100)%float;
           ind_partial_ratio := (partial_ratio fuzz a b / 100)%float;
           ind_token_sort_ratio := (token_sort_ratio fuzz a b / 100)%float;
           ind_token_set_ratio := (token_set_ratio fuzz a b / 100)%float |}
      /\ composite result
         = (0 + ind_ratio (individual result) * 0.4
              + ind_partial_ratio (individual result) * 0.2
              + ind_token_sort_ratio (individual result) * 0.2
              + ind_token_set_ratio (individual result) * 0.2)%float).
Proof.
  intros result a b. subst result a b. unfold calculateCompositeSimilarity. split.
  - intros H. unfold methods. simpl map.
    rewrite !(calculateSimilarity_empty fuzz text1 text2 _ H).
    split; reflexivity.
  - intros H1 H2. rewrite (calculateSimilarity_metric fuzz _ _ H1 H2).
    split; reflexivity.
Qed.

Lemma merge_cons_cons (a b : float) (l1 l2 : list float) :
  merge (a :: l1) (b :: l2)
  = if (a <? b)%float then a :: merge l1 (b :: l2)
    else if PrimFloat.Leibniz.eqb a b then merge l1 (b :: l2)
    else b :: merge (a :: l1) l2.
Proof. reflexivity. Qed.

Lemma merge_In (x : float) (l1 l2 : list float) :
  In x l1 \/ In x l2 -> In x (merge l1 l2).
Proof.
  revert l2. induction l1 as [ | a l1 IH1]; intros l2 H.
  - destruct l2; destruct H as [[] | H]; exact H.
  - induction l2 as [ | b l2 IH2].
    + destruct H as [H | []]. exact H.
    + rewrite merge_cons_cons.
      destruct (a <? b)%float.
      * destruct H as [[-> | H] | H];
          [left; reflexivity | right; apply IH1; now left | right; apply IH1; now right].
      * destruct (PrimFloat.Leibniz.eqb a b) eqn:E.
        -- apply Leibniz.eqb_spec in E. subst b. apply IH1.
           destruct H as [[-> | H] | H];
             [right; left; reflexivity | now left | now right].
        -- destruct H as [H | [-> | H]];
             [right; apply IH2; now left | left; reflexivity
             | right; apply IH2; now right].
Qed.

Lemma sums_In (s t : float) (ss ts : list float) :
  In s ss -> In t ts -> In (s + t)%float (sums ss ts).
Proof.
  intros Hs Ht. unfold sums.
  induction ts as [ | t' ts IH]; [destruct Ht | ].
  simpl. apply merge_In. destruct Ht as [-> | Ht].
  - left. apply (in_map (fun s => (s + t)%float)). exact Hs.
  - right. apply IH. exact Ht.
Qed.

Lemma weighted_In (p w : float) :
  In p percentages -> In (p / 100 * w)%float (weighted w).
Proof. intros H. apply (in_map (fun p => (p / 100 * w)%float)). exact H. Qed.

Lemma composites_In (x p0 p1 p2 p3 : float) :
  In p0 percentages -> In p1 percentages ->
  In p2 percentages -> In p3 percentages ->
  x = (0 + p0 / 100 * 0.4 + p1 / 100 * 0.2 + p2 / 100 * 0.2 + p3 / 100 * 0.2)%float ->
  In x composites.
Proof.
  intros H0 H1 H2 H3 ->. unfold composites.
  apply sums_In; [ | apply weighted_In; exact H3].
  apply sums_In; [ | apply weighted_In; exact H2].
  apply sums_In; [ | apply weighted_In; exact H1].
  apply (in_map (fun x => (0 + x)%float)). apply weighted_In. exact H0.
Qed.

Lemma composites_at_most_one :
  forallb (fun x => (x <=? 1)%float) composites = true.
Proof. vm_compute. reflexivity. Qed.

Lemma zero_percent : In 0%float percentages.
Proof. left. reflexivity. Qed.

(** Under a fuzzball that reports whole percentages, every composite
    is one of [composites]. *)
Lemma composite_In_composites (fuzz : Fuzzball) (text1 text2 : JS.text) :
  returns_percentages fuzz ->
  In (composite (calculateCompositeSimilarity fuzz text1 text2)) composites.
Proof.
  intros Hfuzz. unfold calculateCompositeSimilarity.
  destruct (string_dec (normalizeText text1) "") as [E1 | N1];
    [ | destruct (string_dec (normalizeText text2) "") as [E2 | N2]].
  - unfold methods. simpl map.
    rewrite !(calculateSimilarity_empty fuzz text1 text2 _ (or_introl E1)).
    apply (composites_In _ 0 0 0 0); try apply zero_percent. reflexivity.
  - unfold methods. simpl map.
    rewrite !(calculateSimilarity_empty fuzz text1 text2 _ (or_intror E2)).
    apply (composites_In _ 0 0 0 0); try apply zero_percent. reflexivity.
  - rewrite (calculateSimilarity_metric fuzz _ _ N1 N2).
    destruct (Hfuzz (normalizeText text1) (normalizeText text2))
      as (H0 & H1 & H2 & H3).
    eapply composites_In; [exact H0 | exact H1 | exact H2 | exact H3 | reflexivity].
Qed.

Lemma percentages_split (p : float) :
  In p percentages -> p = 100%float \/ In p below_percentages.
Proof.
  assert (E : percentages = below_percentages ++ [100%float])
    by (vm_compute; reflexivity).
  rewrite E. intros H. apply in_app_or in H.
  destruct H as [H | [<- | []]]; [now right | now left].
Qed.

Lemma below_percentages_In (p : float) :
  In p below_percentages -> In p percentages.
Proof.
  assert (E : percentages = below_percentages ++ [100%float])
    by (vm_compute; reflexivity).
  rewrite E. intros H. apply in_or_app. now left.
Qed.

Lemma below_not_full (p : float) :
  In p below_percentages -> p = 100%float -> False.
Proof.
  intros H ->.
  assert (Hall : forallb (fun p => negb (p =? 100)%float) below_percentages = true)
    by (vm_compute; reflexivity).
  apply (proj1 (forallb_forall _ _) Hall) in H. discriminate H.
Qed.

(** One more percentage on a partial sum: the sum stays among the full
    ones when the percentage is 100 and all were so far, and is among
    the short ones otherwise. *)
Lemma short_next_In (P : Prop) (short full : list float) (w s p : float) :
  In p percentages ->
  (P /\ In s full) \/ In s short ->
  ((P /\ p = 100%float) /\ In (s + p / 100 * w)%float (full_next full w))
  \/ In (s + p / 100 * w)%float (short_next short full w).
Proof.
  intros Hp [[HP Hs] | Hs].
  - destruct (percentages_split p Hp) as [-> | Hbelow].
    + left. split; [now split | ].
      apply (in_map (fun s => (s + 100 / 100 * w)%float)). exact Hs.
    + right. unfold short_next. apply merge_In. right.
      apply sums_In; [exact Hs | ].
      apply (in_map (fun p => (p / 100 * w)%float)). exact Hbelow.
  - right. unfold short_next. apply merge_In. left.
    apply sums_In; [exact Hs | apply weighted_In; exact Hp].
Qed.

Lemma short_composites_In (x p0 p1 p2 p3 : float) :
  In p0 percentages -> In p1 percentages ->
  In p2 percentages -> In p3 percentages ->
  ~ (p0 = 100%float /\ p1 = 100%float /\ p2 = 100%float /\ p3 = 100%float) ->
  x = (0 + p0 / 100 * 0.4 + p1 / 100 * 0.2 + p2 / 100 * 0.2 + p3 / 100 * 0.2)%float ->
  In x short_composites.
Proof.
  intros H0 H1 H2 H3 Hnot ->.
  assert (T0 : (p0 = 100%float /\ In (0 + p0 / 100 * 0.4)%float full_0)
               \/ In (0 + p0 / 100 * 0.4)%float short_0).
  { destruct (percentages_split p0 H0) as [-> | Hbelow].
    - left. split; [reflexivity | now left].
    - right. unfold short_0. apply (in_map (fun x => (0 + x)%float)).
      apply (in_map (fun p => (p / 100 * 0.4)%float)). exact Hbelow. }
  pose proof (short_next_In _ _ _ 0.2 _ p1 H1 T0) as T1.
  pose proof (short_next_In _ _ _ 0.2 _ p2 H2 T1) as T2.
  pose proof (short_next_In _ _ _ 0.2 _ p3 H3 T2) as T3.
  destruct T3 as [[[[[E0 E1] E2] E3] _] | T3].
  - elim Hnot. auto.
  - unfold short_composites, short_2, full_2, short_1, full_1. exact T3.
Qed.

Lemma short_composites_below_one :
  forallb (fun x => (x <? 1)%float) short_composites = true.
Proof. vm_compute. reflexivity. Qed.

(** C7, as the code has it.  For every text whose normalisation is not
    empty and that fuzzball scores 100 against itself on each of the
    four metrics, the composite of the text with itself is exactly 1.
    Under a fuzzball that reports whole percentages between 0 and 100
    these conditions are also needed: a text whose composite with
    itself is 1 has a normalisation that is not empty and scores 100 on
    each metric.  A text whose normalisation is empty has the composite
    0 with itself.  And 1 is the largest composite there is: under such
    a fuzzball no pair of texts has a composite above 1. *)
Theorem identical_texts_composite :
  (forall (fuzz : Fuzzball) (text : JS.text),
      let n := normalizeText text in
      n <> "" ->
      ratio fuzz n n = 100%float -> partial_ratio fuzz n n = 100%float ->
      token_sort_ratio fuzz n n = 100%float ->
      token_set_ratio fuzz n n = 100%float ->
      composite (calculateCompositeSimilarity fuzz text text) = 1%float)
  /\ (forall (fuzz : Fuzzball) (text : JS.text),
        let n := normalizeText text in
        returns_percentages fuzz ->
        composite (calculateCompositeSimilarity fuzz text text) = 1%float ->
        n <> ""
        /\ ratio fuzz n n = 100%float /\ partial_ratio fuzz n n = 100%float
        /\ token_sort_ratio fuzz n n = 100%float
        /\ token_set_ratio fuzz n n = 100%float)
  /\ (forall (fuzz : Fuzzball) (text : JS.text),
        normalizeText text = "" ->
        composite (calculateCompositeSimilarity fuzz text text) = 0%float)
  /\ (forall (fuzz : Fuzzball) (text1 text2 : JS.text),
        returns_percentages fuzz ->
        (composite (calculateCompositeSimilarity fuzz text1 text2) <=? 1)%float
        = true).
Proof.
  assert (Hempty : forall (fuzz : Fuzzball) (text : JS.text),
             normalizeText text = "" ->
             composite (calculateCompositeSimilarity fuzz text text) = 0%float).
  { intros fuzz text Hn. unfold calculateCompositeSimilarity, methods.
    simpl map.
    rewrite !(calculateSimilarity_empty fuzz text text _ (or_introl Hn)).
    reflexivity. }
  split; [ | split; [ | split; [exact Hempty | ]]].
  - intros fuzz text n Hn H0 H1 H2 H3.
    unfold calculateCompositeSimilarity.
    rewrite (calculateSimilarity_metric fuzz _ _ Hn Hn).
    fold n. rewrite H0, H1, H2, H3. reflexivity.
  - intros fuzz text n Hfuzz Hone.
    destruct (string_dec n "") as [E | Hn].
    + rewrite (Hempty fuzz text E) in Hone.
      assert (Hne : (0 =? 1)%float = true) by (rewrite Hone; reflexivity).
      discriminate Hne.
    + split; [exact Hn | ].
      destruct (Hfuzz n n) as (P0 & P1 & P2 & P3).
      destruct (percentages_split _ P0) as [E0 | B0];
        [destruct (percentages_split _ P1) as [E1 | B1];
         [destruct (percentages_split _ P2) as [E2 | B2];
          [destruct (percentages_split _ P3) as [E3 | B3];
           [now repeat split | ] | ] | ] | ];
        exfalso;
        (assert (Hshort : In (composite (calculateCompositeSimilarity fuzz text text))
                            short_composites);
         [ unfold calculateCompositeSimilarity;
           rewrite (calculateSimilarity_metric fuzz _ _ Hn Hn); fold n;
           eapply short_composites_In;
           [exact P0 | exact P1 | exact P2 | exact P3 | | reflexivity];
           intros (F0 & F1 & F2 & F3)
         | apply (proj1 (forallb_forall _ _) short_composites_below_one) in Hshort;
           rewrite Hone in Hshort; discriminate Hshort ]).
      * apply (below_not_full _ B3 F3).
      * apply (below_not_full _ B2 F2).
      * apply (below_not_full _ B1 F1).
      * apply (below_not_full _ B0 F0).
  - intros fuzz text1 text2 Hfuzz.
    apply (proj1 (forallb_forall _ _) composites_at_most_one).
    apply composite_In_composites. exact Hfuzz.
Qed.

(** ** The store *)

Lemma has_key_key (a b : string) (r : Db.Row) :
  Db.has_key a b r = true <-> Db.key r = (a, b).
Proof.
  unfold Db.has_key, Db.key. rewrite andb_true_iff, !String.eqb_eq.
  split; [intros [-> ->]; reflexivity | intros H; injection H; auto].
Qed.

Lemma existsb_has_key (a b : string) (rows : list Db.Row) :
  existsb (Db.has_key a b) rows = true <-> In (a, b) (map Db.key rows).
Proof.
  rewrite existsb_exists, in_map_iff. split.
  - intros (r & Hr & Hk). exists r. split; [now apply has_key_key | exact Hr].
  - intros (r & Hk & Hr). exists r. split; [exact Hr | now apply has_key_key].
Qed.

Lemma NoDup_keys_filter (f : Db.Row -> bool) (rows : list Db.Row) :
  NoDup (map Db.key rows) -> NoDup (map Db.key (filter f rows)).
Proof.
  induction rows as [ | r rows IH]; simpl; intros H; [constructor | ].
  inversion H as [ | ? ? Hnotin Hrest]; subst.
  destruct (f r); simpl; [ | auto].
  constructor; [ | auto].
  intros Hin. apply Hnotin.
  apply in_map_iff in Hin. destruct Hin as (r' & Hk & Hr').
  apply filter_In in Hr'. apply in_map_iff. exists r'. tauto.
Qed.

Lemma NoDup_keys_snoc (rows : list Db.Row) (r : Db.Row) :
  NoDup (map Db.key rows) -> ~ In (Db.key r) (map Db.key rows) ->
  NoDup (map Db.key (rows ++ [r])).
Proof.
  intros Hnd Hnotin. rewrite map_app. simpl.
  apply NoDup_app; [exact Hnd | constructor; [intros [] | constructor] | ].
  intros k Hk [<- | []]. exact (Hnotin Hk).
Qed.

Lemma insert_unique (a b : string) (p : Db.Params) (st : Db.Store) :
  unique_pairs st -> existsb (Db.has_key a b) (Db.rows st) = false ->
  unique_pairs (Db.insert a b p st).
Proof.
  unfold unique_pairs. intros Hnd Hfresh. simpl.
  apply NoDup_keys_snoc; [exact Hnd | ].
  intros Hin. apply existsb_has_key in Hin. simpl in Hin. congruence.
Qed.

Lemma delete_key_fresh (a b : string) (st : Db.Store) :
  existsb (Db.has_key a b) (Db.rows (Db.delete_key a b st)) = false.
Proof.
  simpl. induction (Db.rows st) as [ | r rows IH]; [reflexivity | ].
  simpl. destruct (Db.has_key a b r) eqn:Hk; simpl; [exact IH | ].
  now rewrite Hk, IH.
Qed.

Lemma delete_key_unique (a b : string) (st : Db.Store) :
  unique_pairs st -> unique_pairs (Db.delete_key a b st).
Proof. unfold unique_pairs. simpl. apply NoDup_keys_filter. Qed.

(** A statement that succeeds keeps the pairs of the store unique. *)
Lemma run_unique (q : Db.Query) (p : Db.Params) (st st' : Db.Store) (lastID : Z) :
  unique_pairs st -> Db.run q p st = inr (st', lastID) -> unique_pairs st'.
Proof.
  intros Hu. unfold Db.run.
  destruct q; destruct (Db.p_namaste_code p) as [ | | a];
    destruct (Db.p_icd11_code p) as [ | | b]; try discriminate;
    try (intros H; injection H as <- _; exact Hu).
  - intros H. injection H as <- _.
    apply insert_unique; [apply delete_key_unique, Hu | apply delete_key_fresh].
  - destruct (existsb (Db.has_key a b) (Db.rows st)) eqn:Hex;
      intros H; injection H as <- _; [exact Hu | ].
    apply insert_unique; assumption.
Qed.

Lemma save_all_unique (overwriteExisting : bool) (ms : list Mapping) :
  forall st st' tried err,
    unique_pairs st ->
    save_all overwriteExisting ms st = (st', tried, err) -> unique_pairs st'.
Proof.
  induction ms as [ | m rest IH]; intros st st' tried err Hu; cbn [save_all].
  - intros H. injection H as <- _ _. exact Hu.
  - destruct (Db.run _ _ st) as [e | [st1 lastID]] eqn:Hrun.
    + intros H. injection H as <- _ _. exact Hu.
    + destruct (save_all overwriteExisting rest st1) as [[st2 tried2] err2] eqn:Hrest.
      intros H. injection H as <- _ _.
      apply (IH st1 st2 tried2 err2); [ | exact Hrest].
      apply (run_unique _ _ st st1 lastID Hu Hrun).
Qed.

Lemma persist_unique (saveToDatabase overwriteExisting : bool)
    (ms : list Mapping) st st' tried err :
  unique_pairs st ->
  persist saveToDatabase overwriteExisting ms st = (st', tried, err) ->
  unique_pairs st'.
Proof.
  unfold persist. destruct saveToDatabase.
  - apply save_all_unique.
  - intros Hu H. injection H as <- _ _. exact Hu.
Qed.

(** The row that a statement inserts for [m]. *)
Lemma insert_row_of (m : Mapping) (a b : string) (st : Db.Store) (row : Db.Row) :
  ayurveda_code m = JS.Str a -> icd11_code m = JS.Str b ->
  In row (Db.rows (Db.insert a b (mapping_params m) st)) ->
  In row (Db.rows st) \/ row_of m row.
Proof.
  intros Ha Hb. simpl. intros Hin. apply in_app_or in Hin.
  destruct Hin as [Hin | [<- | []]]; [now left | right].
  unfold row_of. simpl. rewrite Ha, Hb. repeat split; reflexivity.
Qed.

Lemma run_rows (overwriteExisting : bool) (m : Mapping) (st st' : Db.Store)
    (lastID : Z) (row : Db.Row) :
  Db.run (fst (statement overwriteExisting m))
         (snd (statement overwriteExisting m)) st = inr (st', lastID) ->
  In row (Db.rows st') -> In row (Db.rows st) \/ row_of m row.
Proof.
  unfold statement, Db.run. simpl snd. simpl fst.
  change (Db.p_namaste_code (mapping_params m)) with (ayurveda_code m).
  change (Db.p_icd11_code (mapping_params m)) with (icd11_code m).
  destruct overwriteExisting; destruct (ayurveda_code m) as [ | | a] eqn:Ha;
    destruct (icd11_code m) as [ | | b] eqn:Hb; try discriminate;
    try (intros H; injection H as <- _; now left).
  - intros H. injection H as <- _. intros Hin.
    apply (insert_row_of m a b _ row Ha Hb) in Hin.
    destruct Hin as [Hin | Hin]; [left | now right].
    simpl in Hin. apply filter_In in Hin. tauto.
  - destruct (existsb (Db.has_key a b) (Db.rows st));
      intros H; injection H as <- _; [now left | ].
    apply insert_row_of; assumption.
Qed.

Lemma save_all_rows (overwriteExisting : bool) (ms : list Mapping) :
  forall st st' tried err row,
    save_all overwriteExisting ms st = (st', tried, err) ->
    In row (Db.rows st') ->
    In row (Db.rows st) \/ exists m, In m ms /\ row_of m row.
Proof.
  induction ms as [ | m rest IH]; intros st st' tried err row; cbn [save_all].
  - intros H. injection H as <- _ _. now left.
  - destruct (Db.run _ _ st) as [e | [st1 lastID]] eqn:Hrun.
    + intros H. injection H as <- _ _. now left.
    + destruct (save_all overwriteExisting rest st1) as [[st2 tried2] err2] eqn:Hrest.
      intros H. injection H as <- _ _. intros Hin.
      destruct (IH st1 st2 tried2 err2 row Hrest Hin) as [Hin1 | (m' & Hm' & Hrow)].
      * destruct (run_rows overwriteExisting m st st1 lastID row Hrun Hin1)
          as [Hin0 | Hrow]; [now left | right].
        exists m. split; [now left | exact Hrow].
      * right. exists m'. split; [now right | exact Hrow].
Qed.

Lemma save_all_failure (overwriteExisting : bool) (ms : list Mapping) :
  forall st st' tried e,
    save_all overwriteExisting ms st = (st', tried, Some e) ->
    exists before m after,
      ms = before ++ m :: after
      /\ tried = before ++ [m]
      /\ save_all overwriteExisting before st = (st', before, None)
      /\ Db.run (fst (statement overwriteExisting m))
                (snd (statement overwriteExisting m)) st' = inl e.
Proof.
  induction ms as [ | m rest IH]; intros st st' tried e; cbn [save_all].
  - discriminate.
  - destruct (Db.run _ _ st) as [e' | [st1 lastID]] eqn:Hrun.
    + intros H. injection H as <- <- <-.
      exists [], m, rest. repeat split. exact Hrun.
    + destruct (save_all overwriteExisting rest st1) as [[st2 tried2] err2] eqn:Hrest.
      intros H. injection H as <- <- ->.
      destruct (IH st1 st2 tried2 e Hrest) as (before & m' & after & -> & -> & Hb & Hf).
      exists (m :: before), m', after. repeat split; try exact Hf.
      cbn [save_all]. rewrite Hrun, Hb. reflexivity.
Qed.

(** ** The mapping generator *)

Lemma world_eta (w : World) :
  {| db := db w; statements := statements w ++ []; console := console w ++ [] |} = w.
Proof. destruct w. simpl. now rewrite !app_nil_r. Qed.

Lemma save_matches_outcome (overwriteExisting : bool) (ms : list Mapping) :
  forall (acc : list Mapping) (w : World) st tried err,
    save_all overwriteExisting ms (db w) = (st, tried, err) ->
    save_matches true overwriteExisting ms acc w
    = ({| db := st;
          statements := statements w ++ map (statement overwriteExisting) tried;
          console := console w ++
                     match err with
                     | Some e => [ErrorSavingMapping (Db.message e)]
                     | None => []
                     end |},
       match err with
       | Some e => inl e
       | None => inr (acc ++ ms)
       end).
Proof.
  induction ms as [ | m rest IH]; intros acc w st tried err Hsave.
  - simpl in Hsave. injection Hsave as <- <- <-. simpl.
    unfold resolve. now rewrite world_eta, app_nil_r.
  - cbn [save_all] in Hsave. simpl save_matches.
    unfold await at 1. unfold await at 1.
    unfold saveMappingToDatabase, db_run.
    change (if overwriteExisting then Db.InsertOrReplace else Db.InsertOrIgnore)
      with (fst (statement overwriteExisting m)).
    change (mapping_params m) with (snd (statement overwriteExisting m)).
    destruct (Db.run (fst (statement overwriteExisting m))
                     (snd (statement overwriteExisting m)) (db w))
      as [e | [st' lastID]] eqn:Hrun.
    + injection Hsave as <- <- <-. reflexivity.
    + destruct (save_all overwriteExisting rest st') as [[st'' tried'] err'] eqn:Hrest.
      injection Hsave as <- <- <-.
      unfold resolve at 1.
      erewrite IH; [ | exact Hrest].
      simpl. rewrite <- !app_assoc. simpl.
      unfold statement. destruct err'; reflexivity.
Qed.

Lemma save_matches_unsaved (overwriteExisting : bool) (ms : list Mapping) :
  forall (acc : list Mapping) (w : World),
    save_matches false overwriteExisting ms acc w = (w, inr (acc ++ ms)).
Proof.
  induction ms as [ | m rest IH]; intros acc w; simpl.
  - unfold resolve. now rewrite app_nil_r.
  - unfold await, resolve. rewrite IH, <- app_assoc. reflexivity.
Qed.

Lemma save_all_app (overwriteExisting : bool) (ms1 ms2 : list Mapping) :
  forall st,
    save_all overwriteExisting (ms1 ++ ms2) st
    = let '(st1, tried1, err1) := save_all overwriteExisting ms1 st in
      match err1 with
      | Some e => (st1, tried1, Some e)
      | None =>
          let '(st2, tried2, err2) := save_all overwriteExisting ms2 st1 in
          (st2, tried1 ++ tried2, err2)
      end.
Proof.
  induction ms1 as [ | m rest IH]; intros st; simpl.
  - destruct (save_all overwriteExisting ms2 st) as [[? ?] ?]. reflexivity.
  - destruct (Db.run _ _ st) as [e | [st' lastID]]; [reflexivity | ].
    rewrite IH.
    destruct (save_all overwriteExisting rest st') as [[st1 tried1] [e | ]];
      [reflexivity | ].
    destruct (save_all overwriteExisting ms2 st1) as [[? ?] ?]. reflexivity.
Qed.

Lemma persist_app (saveToDatabase overwriteExisting : bool)
    (ms1 ms2 : list Mapping) (st : Db.Store) :
  persist saveToDatabase overwriteExisting (ms1 ++ ms2) st
  = let '(st1, tried1, err1) := persist saveToDatabase overwriteExisting ms1 st in
    match err1 with
    | Some e => (st1, tried1, Some e)
    | None =>
        let '(st2, tried2, err2) :=
          persist saveToDatabase overwriteExisting ms2 st1 in
        (st2, tried1 ++ tried2, err2)
    end.
Proof.
  unfold persist. destruct saveToDatabase; [apply save_all_app | reflexivity].
Qed.

Lemma save_matches_persist (saveToDatabase overwriteExisting : bool)
    (ms acc : list Mapping) (w : World) st tried err :
  persist saveToDatabase overwriteExisting ms (db w) = (st, tried, err) ->
  save_matches saveToDatabase overwriteExisting ms acc w
  = ({| db := st;
        statements := statements w ++ map (statement overwriteExisting) tried;
        console := console w ++
                   match err with
                   | Some e => [ErrorSavingMapping (Db.message e)]
                   | None => []
                   end |},
     match err with
     | Some e => inl e
     | None => inr (acc ++ ms)
     end).
Proof.
  unfold persist. destruct saveToDatabase; intros H.
  - apply save_matches_outcome. exact H.
  - injection H as <- <- <-. rewrite save_matches_unsaved. simpl.
    now rewrite world_eta.
Qed.

Lemma log_shape_app (err : option Db.Error) (quiet lines : list Line) :
  existsb is_error_line quiet = false ->
  log_shape err lines -> log_shape err (quiet ++ lines).
Proof.
  intros Hq. destruct err as [e | ]; simpl.
  - intros [before ->]. exists (quiet ++ before). now rewrite app_assoc.
  - intros Hl. now rewrite existsb_app, Hq, Hl.
Qed.

Lemma process_codes_outcome (fuzz : Fuzzball) (maxMatchesPerCode : Z)
    (saveToDatabase overwriteExisting : bool) (icd11Codes : list Code.t)
    (total : nat) (remaining : list Code.t) :
  forall (i : nat) (acc : list Mapping) (w : World) st tried err,
    persist saveToDatabase overwriteExisting
            (planned fuzz remaining icd11Codes maxMatchesPerCode) (db w)
    = (st, tried, err) ->
    exists lines,
      log_shape err lines
      /\ process_codes fuzz maxMatchesPerCode saveToDatabase overwriteExisting
                       icd11Codes total i remaining acc w
         = ({| db := st;
               statements := statements w ++ map (statement overwriteExisting) tried;
               console := console w ++ lines |},
            match err with
            | Some e => inl e
            | None =>
                inr (acc ++ planned fuzz remaining icd11Codes maxMatchesPerCode)
            end).
Proof.
  induction remaining as [ | ayurvedaCode rest IH];
    intros i acc w st tried err Hp.
  - exists []. unfold planned in Hp. simpl in Hp.
    assert (Hnil : (st, tried, err) = (db w, [], None))
      by (rewrite <- Hp; unfold persist; destruct saveToDatabase; reflexivity).
    injection Hnil as -> -> ->. split; [reflexivity | ].
    simpl. unfold resolve. now rewrite world_eta, app_nil_r.
  - unfold planned in Hp. simpl flat_map in Hp. rewrite persist_app in Hp.
    fold (planned fuzz rest icd11Codes maxMatchesPerCode) in Hp.
    set (ms := findBestMatches fuzz ayurvedaCode icd11Codes (Some maxMatchesPerCode)) in *.
    destruct (persist saveToDatabase overwriteExisting ms (db w))
      as [[st1 tried1] err1] eqn:H1.
    simpl process_codes. fold ms.
    unfold await at 1. unfold console_log at 1.
    unfold await at 1. unfold resolve at 1.
    unfold await at 1.
    erewrite save_matches_persist; [ | exact H1].
    destruct err1 as [e | ].
    + injection Hp as <- <- <-.
      exists ([LogProcessing (i + 1) total (Code.code ayurvedaCode)
                             (Code.display ayurvedaCode)]
              ++ [ErrorSavingMapping (Db.message e)]).
      split; [eexists; reflexivity | ].
      simpl. rewrite <- !app_assoc. reflexivity.
    + destruct (persist saveToDatabase overwriteExisting
                  (planned fuzz rest icd11Codes maxMatchesPerCode) st1)
        as [[st2 tried2] err2] eqn:H2.
      injection Hp as <- <- <-.
      destruct (IH (S i) (acc ++ ms)
                   {| db := st1;
                      statements := statements w ++ map (statement overwriteExisting) tried1;
                      console := (console w ++
                                  [LogProcessing (i + 1) total (Code.code ayurvedaCode)
                                                 (Code.display ayurvedaCode)]) ++ [] |}
                   st2 tried2 err2 H2) as (lines & Hshape & Hrun).
      exists ([LogProcessing (i + 1) total (Code.code ayurvedaCode)
                             (Code.display ayurvedaCode)] ++ lines).
      split; [apply log_shape_app; [reflexivity | exact Hshape] | ].
      simpl in Hrun |- *. rewrite Hrun. simpl.
      rewrite map_app, <- !app_assoc. simpl.
      destruct err2; unfold planned; simpl; rewrite <- ?app_assoc; reflexivity.
Qed.

Lemma generateMappings_outcome (fuzz : Fuzzball)
    (ayurvedaCodes icd11Codes : list Code.t) (options : Options) (w : World) :
  let save := default (saveToDatabase options) true in
  let overwrite := default (overwriteExisting options) false in
  let ms := planned fuzz ayurvedaCodes icd11Codes
                    (default (maxMatchesPerCode options) 3%Z) in
  forall st tried err,
    persist save overwrite ms (db w) = (st, tried, err) ->
    exists lines,
      log_shape err lines
      /\ generateMappings fuzz ayurvedaCodes icd11Codes options w
         = ({| db := st;
               statements := statements w ++ map (statement overwrite) tried;
               console := console w ++ lines |},
            match err with
            | Some e => inl e
            | None => inr (aggregate ms)
            end).
Proof.
  intros save overwrite ms st tried err Hp.
  unfold generateMappings. fold save overwrite.
  unfold await at 1. unfold console_log at 1.
  destruct (process_codes_outcome fuzz (default (maxMatchesPerCode options) 3%Z)
              save overwrite icd11Codes (List.length ayurvedaCodes) ayurvedaCodes
              0 []
              {| db := db w; statements := statements w;
                 console := console w ++
                            [LogGenerating (List.length ayurvedaCodes)
                                           (List.length icd11Codes)] |}
              st tried err Hp) as (lines & Hshape & Hrun).
  unfold await at 1. rewrite Hrun. fold ms.
  destruct err as [e | ].
  - exists ([LogGenerating (List.length ayurvedaCodes) (List.length icd11Codes)]
            ++ lines).
    split; [apply log_shape_app; [reflexivity | exact Hshape] | ].
    simpl. rewrite <- !app_assoc. reflexivity.
  - exists ([LogGenerating (List.length ayurvedaCodes) (List.length icd11Codes)]
            ++ lines
            ++ [LogGenerated (List.length ms); LogSummary;
                LogHighConfidence
                  (List.length (filter (fun m => confidence m =? "high") ms));
                LogMediumConfidence
                  (List.length (filter (fun m => confidence m =? "medium") ms))]).
    split.
    + apply log_shape_app; [reflexivity | ].
      simpl in Hshape |- *. rewrite existsb_app, Hshape. reflexivity.
    + simpl. unfold await, console_log, resolve, aggregate. simpl.
      rewrite <- !app_assoc. reflexivity.
Qed.

Lemma run_ignore_stored (m : Mapping) (st : Db.Store) :
  stored st m ->
  Db.run Db.InsertOrIgnore (mapping_params m) st
  = inr (Db.skip st, Db.last_insert_rowid st).
Proof.
  unfold stored, Db.run.
  change (Db.p_namaste_code (mapping_params m)) with (ayurveda_code m).
  change (Db.p_icd11_code (mapping_params m)) with (icd11_code m).
  destruct (ayurveda_code m) as [ | | a]; destruct (icd11_code m) as [ | | b];
    try reflexivity.
  intros ->. reflexivity.
Qed.

Lemma run_ignore_grows (p : Db.Params) (st : Db.Store) :
  exists st' lastID,
    Db.run Db.InsertOrIgnore p st = inr (st', lastID)
    /\ exists added, Db.rows st' = Db.rows st ++ added.
Proof.
  unfold Db.run.
  destruct (Db.p_namaste_code p) as [ | | a]; destruct (Db.p_icd11_code p) as [ | | b];
    try (eexists _, _; split; [reflexivity | exists []; now rewrite app_nil_r]).
  destruct (existsb (Db.has_key a b) (Db.rows st)).
  - eexists _, _. split; [reflexivity | exists []; now rewrite app_nil_r].
  - eexists _, _. split; [reflexivity | ]. simpl. eexists. reflexivity.
Qed.

Lemma stored_grows (m : Mapping) (st st' : Db.Store) (added : list Db.Row) :
  Db.rows st' = Db.rows st ++ added -> stored st m -> stored st' m.
Proof.
  unfold stored. intros ->.
  destruct (ayurveda_code m); destruct (icd11_code m); trivial.
  intros H. now rewrite existsb_app, H.
Qed.

Lemma run_ignore_stores (m : Mapping) (st st' : Db.Store) (lastID : Z) :
  Db.run Db.InsertOrIgnore (mapping_params m) st = inr (st', lastID) ->
  stored st' m.
Proof.
  unfold stored, Db.run.
  change (Db.p_namaste_code (mapping_params m)) with (ayurveda_code m).
  change (Db.p_icd11_code (mapping_params m)) with (icd11_code m).
  destruct (ayurveda_code m) as [ | | a]; destruct (icd11_code m) as [ | | b];
    trivial.
  destruct (existsb (Db.has_key a b) (Db.rows st)) eqn:Hex;
    intros H; injection H as <- _; [exact Hex | ].
  simpl. rewrite existsb_app. simpl.
  unfold Db.has_key at 2. simpl. rewrite !String.eqb_refl.
  now rewrite orb_true_r.
Qed.

(** Under [INSERT OR IGNORE] every save succeeds, and afterwards the
    pair of every mapping is in the store. *)
Lemma save_all_ignore (ms : list Mapping) :
  forall st,
    exists st',
      save_all false ms st = (st', ms, None)
      /\ Forall (stored st') ms
      /\ exists added, Db.rows st' = Db.rows st ++ added.
Proof.
  induction ms as [ | m rest IH]; intros st; cbn [save_all].
  - exists st. repeat split; [constructor | exists []; now rewrite app_nil_r].
  - simpl fst. simpl snd.
    destruct (run_ignore_grows (mapping_params m) st)
      as (st1 & lastID & Hrun & added1 & Hrows1).
    rewrite Hrun.
    destruct (IH st1) as (st2 & Hsave & Hall & added2 & Hrows2).
    exists st2. rewrite Hsave. repeat split.
    + constructor; [ | exact Hall].
      apply (stored_grows m st1 st2 added2 Hrows2).
      apply (run_ignore_stores m st st1 lastID Hrun).
    + exists (added1 ++ added2). now rewrite Hrows2, Hrows1, app_assoc.
Qed.

Lemma skips_none (st : Db.Store) : Db.skips 0 st = st.
Proof.
  destruct st as [rows sequence lastID]. unfold Db.skips. cbn.
  now rewrite Z.add_0_r.
Qed.

Lemma skips_skip (n : nat) (st : Db.Store) :
  Db.skips n (Db.skip st) = Db.skips (S n) st.
Proof.
  unfold Db.skips, Db.skip. cbn [Db.rows Db.sequence Db.last_insert_rowid].
  f_equal. lia.
Qed.

(** Saving again what is stored leaves the rows and uses up one row id
    for each save. *)
Lemma save_all_ignore_stored (ms : list Mapping) :
  forall st,
    Forall (stored st) ms ->
    save_all false ms st = (Db.skips (List.length ms) st, ms, None).
Proof.
  induction ms as [ | m rest IH]; intros st Hall; cbn [save_all List.length].
  - now rewrite skips_none.
  - inversion Hall as [ | ? ? Hm Hrest]; subst.
    simpl fst. simpl snd. rewrite (run_ignore_stored m st Hm).
    rewrite (IH (Db.skip st)).
    + now rewrite skips_skip.
    + eapply Forall_impl; [ | exact Hrest].
      intros m' Hm'. apply (stored_grows m' st (Db.skip st) []); [ | exact Hm'].
      cbn. now rewrite app_nil_r.
Qed.

Lemma planned_pushed (fuzz : Fuzzball) (ayurvedaCodes icd11Codes : list Code.t)
    (maxMatchesPerCode : Z) :
  Forall pushed (planned fuzz ayurvedaCodes icd11Codes maxMatchesPerCode).
Proof.
  unfold planned. induction ayurvedaCodes as [ | c rest IH]; simpl.
  - constructor.
  - apply Forall_app. split; [apply findBestMatches_pushed | exact IH].
Qed.

Lemma planned_no_targets (fuzz : Fuzzball) (ayurvedaCodes : list Code.t)
    (maxMatchesPerCode : Z) :
  planned fuzz ayurvedaCodes [] maxMatchesPerCode = [].
Proof.
  unfold planned. induction ayurvedaCodes as [ | c rest IH]; [reflexivity | ].
  simpl. rewrite IH, app_nil_r.
  unfold findBestMatches, candidates, JS.slice0. simpl. apply firstn_nil.
Qed.

Lemma pushed_tier (m : Mapping) :
  pushed m ->
  (confidence m =? "high") = negb (confidence m =? "medium")
  /\ confidence m <> "low".
Proof.
  intros [Hge ->]. unfold getConfidenceLevel. rewrite Hge.
  destruct (highConfidenceThreshold <=? similarity_score m)%float;
    split; try reflexivity; discriminate.
Qed.

Lemma filter_partition {A} (p q : A -> bool) (xs : list A) :
  Forall (fun x => p x = negb (q x)) xs ->
  Permutation xs (filter p xs ++ filter q xs)
  /\ List.length xs = List.length (filter p xs) + List.length (filter q xs)
  /\ (forall x, In x xs ->
        (In x (filter p xs) /\ ~ In x (filter q xs))
        \/ (In x (filter q xs) /\ ~ In x (filter p xs))).
Proof.
  intros Hall. repeat split.
  - induction Hall as [ | x xs Hx Hxs IH]; simpl; [constructor | ].
    rewrite Hx. destruct (q x); simpl.
    + apply Permutation_cons_app. exact IH.
    + apply perm_skip. exact IH.
  - induction Hall as [ | x xs Hx Hxs IH]; simpl; [reflexivity | ].
    rewrite Hx. destruct (q x); simpl; rewrite ?length_app in *; simpl; lia.
  - intros x Hin.
    assert (Hx := proj1 (Forall_forall _ _) Hall x Hin).
    cbv beta in Hx.
    destruct (q x) eqn:Hq; simpl in Hx; [right | left];
      (split; [apply filter_In; tauto | rewrite filter_In; intros [_ H]; congruence]).
Qed.

Lemma save_all_stops (overwriteExisting : bool) (before after : list Mapping)
    (m : Mapping) (st0 st : Db.Store) (e : Db.Error) :
  save_all overwriteExisting before st0 = (st, before, None) ->
  Db.run (fst (statement overwriteExisting m))
         (snd (statement overwriteExisting m)) st = inl e ->
  save_all overwriteExisting (before ++ m :: after) st0
  = (st, before ++ [m], Some e).
Proof.
  intros Hbefore Hrun. rewrite save_all_app, Hbefore.
  cbn [save_all]. rewrite Hrun. reflexivity.
Qed.

(** C1, as the code has it.  A save that fails is logged and ends the
    run: when the saves of the mappings before [m] succeed and the
    save of [m] fails, [generateMappings] rejects with that error, the
    store is as the earlier saves left it, the statement for [m] is the
    last one handed to the store, and the line of the error is the last
    one on the console; the mappings and source codes after [m] are not
    processed.  The run returns its [{all, high, medium, stats}] when
    every save succeeds, and always when [saveToDatabase] is off; a
    failed save is the only way for it to reject. *)
Theorem generateMappings_first_failure (fuzz : Fuzzball)
    (ayurvedaCodes icd11Codes : list Code.t) (options : Options) (w : World) :
  let save := default (saveToDatabase options) true in
  let overwrite := default (overwriteExisting options) false in
  let ms := planned fuzz ayurvedaCodes icd11Codes
                    (default (maxMatchesPerCode options) 3%Z) in
  let run := generateMappings fuzz ayurvedaCodes icd11Codes options w in
  (forall before m after st e,
      save = true ->
      ms = before ++ m :: after ->
      save_all overwrite before (db w) = (st, before, None) ->
      Db.run (fst (statement overwrite m)) (snd (statement overwrite m)) st
      = inl e ->
      snd run = inl e
      /\ db (fst run) = st
      /\ statements (fst run)
         = statements w ++ map (statement overwrite) (before ++ [m])
      /\ exists lines,
           console (fst run)
           = console w ++ lines ++ [ErrorSavingMapping (Db.message e)])
  /\ (forall st,
        save = true ->
        save_all overwrite ms (db w) = (st, ms, None) ->
        snd run = inr (aggregate ms)
        /\ db (fst run) = st
        /\ statements (fst run) = statements w ++ map (statement overwrite) ms
        /\ exists lines,
             console (fst run) = console w ++ lines
             /\ existsb is_error_line lines = false)
  /\ (save = false ->
      snd run = inr (aggregate ms)
      /\ db (fst run) = db w
      /\ statements (fst run) = statements w)
  /\ (forall e,
        snd run = inl e ->
        save = true
        /\ exists before m after,
             ms = before ++ m :: after
             /\ save_all overwrite before (db w) = (db (fst run), before, None)
             /\ Db.run (fst (statement overwrite m)) (snd (statement overwrite m))
                       (db (fst run))
                = inl e).
Proof.
  intros save overwrite ms run. split; [ | split; [ | split]].
  - intros before m after st e Hsave Hms Hbefore Hrun.
    assert (Hp : persist save overwrite ms (db w) = (st, before ++ [m], Some e)).
    { unfold persist. rewrite Hsave, Hms. apply save_all_stops; assumption. }
    destruct (generateMappings_outcome fuzz ayurvedaCodes icd11Codes options w
                st _ _ Hp) as (lines & [earlier ->] & Hout).
    subst run. rewrite Hout. simpl. repeat split.
    exists earlier. reflexivity.
  - intros st Hsave Hall.
    assert (Hp : persist save overwrite ms (db w) = (st, ms, None)).
    { unfold persist. rewrite Hsave. exact Hall. }
    destruct (generateMappings_outcome fuzz ayurvedaCodes icd11Codes options w
                st _ _ Hp) as (lines & Hshape & Hout).
    subst run. rewrite Hout. simpl. repeat split.
    exists lines. split; [reflexivity | exact Hshape].
  - intros Hsave.
    assert (Hp : persist save overwrite ms (db w) = (db w, [], None)).
    { unfold persist. rewrite Hsave. reflexivity. }
    destruct (generateMappings_outcome fuzz ayurvedaCodes icd11Codes options w
                _ _ _ Hp) as (lines & Hshape & Hout).
    subst run. rewrite Hout. simpl. repeat split. apply app_nil_r.
  - intros e Hrejected.
    destruct (persist save overwrite ms (db w)) as [[st tried] err] eqn:Hp.
    destruct (generateMappings_outcome fuzz ayurvedaCodes icd11Codes options w
                st tried err Hp) as (lines & Hshape & Hout).
    subst run. rewrite Hout in Hrejected |- *. simpl in Hrejected |- *.
    destruct err as [e' | ]; [ | discriminate].
    injection Hrejected as ->.
    unfold persist in Hp. destruct save; [ | discriminate].
    split; [reflexivity | ].
    destruct (save_all_failure overwrite ms (db w) st tried e Hp)
      as (before & m & after & Hms & _ & Hbefore & Hrun).
    exists before, m, after. repeat split; assumption.
Qed.

Lemma filter_deleted_key (a b : string) (rows : list Db.Row) :
  filter (Db.has_key a b) (filter (fun r => negb (Db.has_key a b r)) rows) = [].
Proof.
  induction rows as [ | r rows IH]; [reflexivity | ].
  simpl. destruct (Db.has_key a b r) eqn:Hk; simpl; [exact IH | ].
  now rewrite Hk.
Qed.

Lemma filter_kept_twice (a b : string) (rows : list Db.Row) :
  filter (fun r => negb (Db.has_key a b r))
         (filter (fun r => negb (Db.has_key a b r)) rows)
  = filter (fun r => negb (Db.has_key a b r)) rows.
Proof.
  induction rows as [ | r rows IH]; [reflexivity | ].
  simpl. destruct (Db.has_key a b r) eqn:Hk; simpl; [exact IH | ].
  now rewrite Hk, IH.
Qed.

(** C6.  The store holds at most one row for a pair of codes: a run of
    [generateMappings] keeps the pairs unique, however it ends.  With
    [overwriteExisting] a save leaves exactly one row for the pair of
    the mapping, the row of that mapping, and does not touch the rows
    of other pairs; without it a save of a pair that is stored leaves
    the rows and the last row id as they are, and uses up the row id
    that [AUTOINCREMENT] had set aside for it.  A second run on the
    same input without [overwriteExisting] leaves the rows as the first
    run left them, and uses up one row id for each of its saves. *)
Theorem store_pairs_unique :
  (forall (fuzz : Fuzzball) (ayurvedaCodes icd11Codes : list Code.t)
          (options : Options) (w : World),
      unique_pairs (db w) ->
      unique_pairs
        (db (fst (generateMappings fuzz ayurvedaCodes icd11Codes options w))))
  /\ (forall (m : Mapping) (a b : string) (w : World),
        ayurveda_code m = JS.Str a -> icd11_code m = JS.Str b ->
        let rows := Db.rows (db (fst (saveMappingToDatabase m true w))) in
        (exists row, filter (Db.has_key a b) rows = [row] /\ row_of m row)
        /\ filter (fun r => negb (Db.has_key a b r)) rows
           = filter (fun r => negb (Db.has_key a b r)) (Db.rows (db w)))
  /\ (forall (m : Mapping) (a b : string) (w : World),
        ayurveda_code m = JS.Str a -> icd11_code m = JS.Str b ->
        existsb (Db.has_key a b) (Db.rows (db w)) = true ->
        Db.rows (db (fst (saveMappingToDatabase m false w))) = Db.rows (db w)
        /\ db (fst (saveMappingToDatabase m false w)) = Db.skip (db w))
  /\ (forall (fuzz : Fuzzball) (ayurvedaCodes icd11Codes : list Code.t)
            (options : Options) (w : World),
        default (overwriteExisting options) false = false ->
        let first := fst (generateMappings fuzz ayurvedaCodes icd11Codes options w) in
        let second :=
          fst (generateMappings fuzz ayurvedaCodes icd11Codes options first) in
        let saves :=
          if default (saveToDatabase options) true
          then List.length (planned fuzz ayurvedaCodes icd11Codes
                                    (default (maxMatchesPerCode options) 3%Z))
          else 0 in
        Db.rows (db second) = Db.rows (db first)
        /\ db second = Db.skips saves (db first)).
Proof.
  split; [ | split; [ | split]].
  - intros fuzz ayurvedaCodes icd11Codes options w Hu.
    destruct (persist (default (saveToDatabase options) true)
                (default (overwriteExisting options) false)
                (planned fuzz ayurvedaCodes icd11Codes
                         (default (maxMatchesPerCode options) 3%Z)) (db w))
      as [[st tried] err] eqn:Hp.
    destruct (generateMappings_outcome fuzz ayurvedaCodes icd11Codes options w
                st tried err Hp) as (lines & _ & ->).
    simpl. exact (persist_unique _ _ _ _ _ _ _ Hu Hp).
  - intros m a b w Ha Hb rows. subst rows.
    unfold saveMappingToDatabase, db_run, Db.run.
    change (Db.p_namaste_code (mapping_params m)) with (ayurveda_code m).
    change (Db.p_icd11_code (mapping_params m)) with (icd11_code m).
    rewrite Ha, Hb. simpl.
    rewrite !filter_app. simpl.
    match goal with
    | |- context [Db.has_key a b ?r] =>
        assert (Hself : Db.has_key a b r = true)
          by (apply has_key_key; reflexivity);
        rewrite !Hself
    end.
    simpl.
    rewrite filter_deleted_key, filter_kept_twice, app_nil_r. split; [ | reflexivity].
    eexists. split; [reflexivity | ].
    unfold row_of. simpl. rewrite Ha, Hb. repeat split; reflexivity.
  - intros m a b w Ha Hb Hex.
    unfold saveMappingToDatabase, db_run.
    rewrite run_ignore_stored; [split; reflexivity | ].
    unfold stored. now rewrite Ha, Hb.
  - intros fuzz ayurvedaCodes icd11Codes options w Hover first second saves.
    set (ms := planned fuzz ayurvedaCodes icd11Codes
                       (default (maxMatchesPerCode options) 3%Z)) in *.
    assert (Hfirst : exists st tried,
               persist (default (saveToDatabase options) true)
                       (default (overwriteExisting options) false) ms (db w)
               = (st, tried, None)
               /\ persist (default (saveToDatabase options) true)
                          (default (overwriteExisting options) false) ms st
                  = (Db.skips saves st, tried, None)).
    { unfold persist. subst saves. rewrite Hover.
      destruct (default (saveToDatabase options) true).
      - destruct (save_all_ignore ms (db w)) as (st & Hsave & Hall & _).
        exists st, ms. split; [exact Hsave | ].
        apply save_all_ignore_stored. exact Hall.
      - exists (db w), []. split; [reflexivity | now rewrite skips_none]. }
    destruct Hfirst as (st & tried & H1 & H2).
    destruct (generateMappings_outcome fuzz ayurvedaCodes icd11Codes options w
                st tried None H1) as (lines1 & _ & Hrun1).
    assert (Hdb : db first = st) by (subst first; rewrite Hrun1; reflexivity).
    rewrite <- Hdb in H2.
    destruct (generateMappings_outcome fuzz ayurvedaCodes icd11Codes options first
                (Db.skips saves (db first)) tried None H2) as (lines2 & _ & Hrun2).
    subst second. rewrite Hrun2. split; reflexivity.
Qed.

(** C9.  The object that [generateMappings] returns splits [all] into
    [high] and [medium] by tier: the two lists are the entries of
    [all] with the tier "high" and with the tier "medium", every entry
    of [all] is in exactly one of them, and the three counts of
    [stats] are the lengths of [all], [high] and [medium].  When there
    is no target, the run returns with [stats.total] 0 and hands no
    statement to the store, whatever the source codes and options. *)
Theorem generateMappings_aggregation (fuzz : Fuzzball)
    (ayurvedaCodes : list Code.t) (options : Options) (w : World) :
  (forall (icd11Codes : list Code.t) (w' : World) (result : Mappings),
      generateMappings fuzz ayurvedaCodes icd11Codes options w
      = (w', inr result) ->
      high result = filter (fun m => confidence m =? "high") (all result)
      /\ medium result = filter (fun m => confidence m =? "medium") (all result)
      /\ Permutation (all result) (high result ++ medium result)
      /\ (forall m, In m (all result) ->
            (In m (high result) /\ ~ In m (medium result))
            \/ (In m (medium result) /\ ~ In m (high result)))
      /\ total (stats result) = List.length (all result)
      /\ highConfidence (stats result) = List.length (high result)
      /\ mediumConfidence (stats result) = List.length (medium result)
      /\ total (stats result)
         = highConfidence (stats result) + mediumConfidence (stats result))
  /\ (exists (w' : World) (result : Mappings),
        generateMappings fuzz ayurvedaCodes [] options w = (w', inr result)
        /\ total (stats result) = 0
        /\ all result = []
        /\ statements w' = statements w
        /\ db w' = db w).
Proof.
  split.
  - intros icd11Codes w' result Hrun.
    set (ms := planned fuzz ayurvedaCodes icd11Codes
                       (default (maxMatchesPerCode options) 3%Z)).
    destruct (persist (default (saveToDatabase options) true)
                (default (overwriteExisting options) false) ms (db w))
      as [[st tried] err] eqn:Hp.
    destruct (generateMappings_outcome fuzz ayurvedaCodes icd11Codes options w
                st tried err Hp) as (lines & _ & Hout).
    rewrite Hout in Hrun. destruct err as [e | ]; [discriminate | ].
    injection Hrun as _ <-. fold ms. unfold aggregate. simpl.
    assert (Htier : Forall (fun m => (confidence m =? "high")
                                     = negb (confidence m =? "medium")) ms).
    { eapply Forall_impl; [ | apply planned_pushed].
      intros m Hm. apply (pushed_tier m Hm). }
    destruct (filter_partition (fun m => confidence m =? "high")
                (fun m => confidence m =? "medium") ms Htier)
      as (Hperm & Hlen & Hone).
    repeat split; trivial.
  - assert (Hp : persist (default (saveToDatabase options) true)
                   (default (overwriteExisting options) false)
                   (planned fuzz ayurvedaCodes []
                            (default (maxMatchesPerCode options) 3%Z)) (db w)
                 = (db w, [], None)).
    { rewrite planned_no_targets. unfold persist.
      destruct (default (saveToDatabase options) true); reflexivity. }
    destruct (generateMappings_outcome fuzz ayurvedaCodes [] options w
                _ _ _ Hp) as (lines & _ & Hout).
    eexists _, _. split; [exact Hout | ].
    rewrite planned_no_targets. simpl. repeat split. apply app_nil_r.
Qed.

Lemma persist_rows (saveToDatabase overwriteExisting : bool)
    (ms : list Mapping) st st' tried err row :
  persist saveToDatabase overwriteExisting ms st = (st', tried, err) ->
  In row (Db.rows st') ->
  In row (Db.rows st) \/ exists m, In m ms /\ row_of m row.
Proof.
  unfold persist. destruct saveToDatabase.
  - apply save_all_rows.
  - intros H. injection H as <- _ _. now left.
Qed.

(** C10.  A row that a run of [generateMappings] adds to the store is
    the row of one of its mappings: the codes of the mapping, the
    text 'equivalent' as equivalence, the text 'automatic' as mapping
    type, the composite score as confidence and again as similarity
    score, and the details of the mapping.  The tier on the mapping is
    not among the parameters of the statement: a mapping with another
    tier on it is saved with the same parameters. *)
Theorem persisted_row_contents :
  (forall (fuzz : Fuzzball) (ayurvedaCodes icd11Codes : list Code.t)
          (options : Options) (w : World) (row : Db.Row),
      In row (Db.rows (db (fst (generateMappings fuzz ayurvedaCodes icd11Codes
                                                 options w)))) ->
      In row (Db.rows (db w))
      \/ exists m,
           In m (planned fuzz ayurvedaCodes icd11Codes
                         (default (maxMatchesPerCode options) 3%Z))
           /\ JS.Str (Db.namaste_code row) = ayurveda_code m
           /\ JS.Str (Db.icd11_code row) = icd11_code m
           /\ Db.equivalence row = "equivalent"
           /\ Db.mapping_type row = "automatic"
           /\ Db.confidence row = similarity_score m
           /\ Db.similarity_score row = similarity_score m
           /\ Db.mapping_details row
              = {| Db.d_similarity_details := similarity_details m;
                   Db.d_ayurveda_text := ayurveda_text m;
                   Db.d_icd11_text := icd11_text m |})
  /\ (forall (m : Mapping) (tier : string) (overwriteExisting : bool),
        statement overwriteExisting (with_confidence tier m)
        = statement overwriteExisting m).
Proof.
  split.
  - intros fuzz ayurvedaCodes icd11Codes options w row.
    destruct (persist (default (saveToDatabase options) true)
                (default (overwriteExisting options) false)
                (planned fuzz ayurvedaCodes icd11Codes
                         (default (maxMatchesPerCode options) 3%Z)) (db w))
      as [[st tried] err] eqn:Hp.
    destruct (generateMappings_outcome fuzz ayurvedaCodes icd11Codes options w
                st tried err Hp) as (lines & _ & ->).
    simpl. intros Hin.
    destruct (persist_rows _ _ _ _ _ _ _ row Hp Hin) as [H | (m & Hm & Hrow)];
      [now left | right].
    exists m. unfold row_of in Hrow. tauto.
  - intros m tier overwriteExisting. reflexivity.
Qed.

(** ** The statements at work on the small instance *)

Lemma common_prefix_le (a b : string) :
  Sample.common_prefix a b <= Nat.max (String.length a) (String.length b).
Proof.
  revert b. induction a as [ | x a IH]; intros b; [simpl; lia | ].
  destruct b as [ | y b]; [simpl; lia | ].
  simpl. destruct (Ascii.eqb x y); [ | lia].
  specialize (IH b). lia.
Qed.

Lemma percent_In (n : nat) : n <= 100 -> In (percent n) percentages.
Proof.
  intros Hn. apply in_map. apply in_seq. lia.
Qed.

Lemma sample_returns_percentages : returns_percentages Sample.fuzz.
Proof.
  assert (H : forall a b, In (Sample.prefix_ratio a b) percentages).
  { intros a b. apply percent_In.
    assert (Hle := common_prefix_le a b).
    destruct (Nat.max (String.length a) (String.length b)) as [ | k] eqn:Hmax.
    - rewrite Nat.div_0_r. lia.
    - apply Nat.Div0.div_le_upper_bound. lia. }
  intros a b. repeat split; apply H.
Qed.

Lemma generateMappings_first_failure_witness :
  snd (generateMappings Sample.fuzz
         [Sample.gastro; Sample.uncoded; Sample.gastro] [Sample.SM12]
         (Sample.options None None (Some true)) Sample.fresh)
  = inl (Db.not_null "namaste_code")
  /\ snd (generateMappings Sample.fuzz [Sample.gastro] [Sample.SM12]
            (Sample.options None None (Some true)) Sample.fresh)
     = inr (aggregate [Sample.top])
  /\ statements (fst (generateMappings Sample.fuzz [Sample.uncoded] [Sample.SM12]
                        (Sample.options None (Some false) (Some true))
                        Sample.fresh))
     = []
  /\ default (saveToDatabase (Sample.options None None (Some true))) true = true.
Proof.
  split; [ | split; [ | split]].
  - pose proof (proj1 (generateMappings_first_failure Sample.fuzz
                         [Sample.gastro; Sample.uncoded; Sample.gastro]
                         [Sample.SM12] (Sample.options None None (Some true))
                         Sample.fresh)) as H.
    cbv zeta in H.
    edestruct (H [Sample.top] Sample.top_uncoded [Sample.top]) as (H1 & _);
      [reflexivity | vm_compute; reflexivity | vm_compute; reflexivity
      | vm_compute; reflexivity | exact H1].
  - pose proof (proj1 (proj2 (generateMappings_first_failure Sample.fuzz
                                [Sample.gastro] [Sample.SM12]
                                (Sample.options None None (Some true))
                                Sample.fresh))) as H.
    cbv zeta in H.
    edestruct H as (H1 & _);
      [reflexivity | vm_compute; reflexivity | exact H1].
  - pose proof (proj1 (proj2 (proj2 (generateMappings_first_failure Sample.fuzz
                                       [Sample.uncoded] [Sample.SM12]
                                       (Sample.options None (Some false) (Some true))
                                       Sample.fresh)))) as H.
    cbv zeta in H.
    destruct H as (_ & _ & H3); [reflexivity | exact H3].
  - pose proof (proj2 (proj2 (proj2 (generateMappings_first_failure Sample.fuzz
                                       [Sample.gastro; Sample.uncoded; Sample.gastro]
                                       [Sample.SM12]
                                       (Sample.options None None (Some true))
                                       Sample.fresh)))) as H.
    cbv zeta in H.
    destruct (H (Db.not_null "namaste_code")) as (H4 & _);
      [vm_compute; reflexivity | exact H4].
Defined.

(** At this input the claim C1 fails: the save of the first mapping
    fails, the run rejects instead of returning a result, and the
    second source code, which has a match, is never looked at. *)
Lemma generateMappings_rejects_on_failed_save :
  let run := generateMappings Sample.fuzz [Sample.uncoded; Sample.gastro]
               [Sample.SM12] (Sample.options None (Some true) (Some true))
               Sample.fresh in
  snd run = inl (Db.not_null "namaste_code")
  /\ Db.rows (db (fst run)) = []
  /\ List.length (statements (fst run)) = 1
  /\ List.length (findBestMatches Sample.fuzz Sample.gastro [Sample.SM12]
                                  (Some 3%Z)) = 1.
Proof. vm_compute. repeat split. Qed.

Lemma findBestMatches_bounded_witness :
  (Z.of_nat (List.length (findBestMatches Sample.fuzz Sample.gastro
                                          Sample.targets (Some 2%Z))) <= 2)%Z
  /\ ((0.6 <=? similarity_score Sample.top)%float = true
      /\ (similarity_score Sample.top <? 0.6)%float = false)
  /\ match_for Sample.fuzz Sample.gastro (createSearchableText Sample.gastro)
               Sample.SK00 = [].
Proof.
  destruct (findBestMatches_bounded Sample.fuzz Sample.gastro Sample.targets
              (Some 2%Z)) as (Hlength & Hscore & Hbelow).
  split; [ | split].
  - apply Hlength. simpl. lia.
  - apply Hscore. vm_compute. left. reflexivity.
  - apply Hbelow. vm_compute. reflexivity.
Defined.

(** At this input the claim C2 fails: with [maxResults] -1 the call
    returns two entries, which is more than -1. *)
Lemma findBestMatches_negative_maxResults :
  let returned := findBestMatches Sample.fuzz Sample.gastro Sample.targets
                                  (Some (-1)%Z) in
  List.length returned = 2
  /\ ~ (Z.of_nat (List.length returned) <= -1)%Z.
Proof. vm_compute. split; [reflexivity | intros H; apply H; reflexivity]. Qed.

Lemma findBestMatches_confidence_witness :
  (confidence Sample.top = "high"
   <-> (0.8 <=? similarity_score Sample.top)%float = true)
  /\ (confidence Sample.top = "medium"
      <-> (0.8 <=? similarity_score Sample.top)%float = false)
  /\ confidence Sample.top <> "low".
Proof.
  apply (proj1 findBestMatches_confidence Sample.fuzz Sample.gastro
               Sample.targets None Sample.top).
  vm_compute. left. reflexivity.
Defined.

Lemma calculateCompositeSimilarity_weights_witness :
  composite (calculateCompositeSimilarity Sample.fuzz JS.Null (JS.Str "fever"))
  = 0%float
  /\ composite (calculateCompositeSimilarity Sample.fuzz
                  (JS.Str "Diabetes") (JS.Str "diabetes mellitus"))
     = (0 + 0.47 * 0.4 + 0.47 * 0.2 + 0.47 * 0.2 + 0.47 * 0.2)%float.
Proof.
  split.
  - apply (proj1 (calculateCompositeSimilarity_weights Sample.fuzz JS.Null
                    (JS.Str "fever"))).
    left. reflexivity.
  - destruct (proj2 (calculateCompositeSimilarity_weights Sample.fuzz
                       (JS.Str "Diabetes") (JS.Str "diabetes mellitus")))
      as [Hind Hcomposite].
    + vm_compute. discriminate.
    + vm_compute. discriminate.
    + rewrite Hcomposite, Hind. vm_compute. reflexivity.
Defined.

Lemma identical_texts_composite_witness :
  composite (calculateCompositeSimilarity Sample.fuzz
               (JS.Str "diabetes mellitus") (JS.Str "diabetes mellitus"))
  = 1%float
  /\ (composite (calculateCompositeSimilarity Sample.fuzz
                   (JS.Str "Diabetes") (JS.Str "diabetes mellitus")) <=? 1)%float
     = true.
Proof.
  split.
  - apply (proj1 identical_texts_composite Sample.fuzz (JS.Str "diabetes mellitus")).
    + vm_compute. discriminate.
    + vm_compute. reflexivity.
    + vm_compute. reflexivity.
    + vm_compute. reflexivity.
    + vm_compute. reflexivity.
  - apply (proj2 (proj2 (proj2 identical_texts_composite)) Sample.fuzz).
    exact sample_returns_percentages.
Defined.

(** At these inputs the claim C7 fails.  The text "!" is not empty,
    its normalisation is, and its composite with itself is 0 whatever
    fuzzball does.  The text "_" is its own normalisation, and its
    composite with itself is 0 under a fuzzball that looks at letters
    and digits only. *)
Lemma composite_of_punctuation :
  JS.Str "!" <> JS.Str ""
  /\ composite (calculateCompositeSimilarity Sample.fuzz (JS.Str "!") (JS.Str "!"))
     = 0%float
  /\ (composite (calculateCompositeSimilarity Sample.fuzz (JS.Str "!") (JS.Str "!"))
      =? 1)%float = false
  /\ normalizeText (JS.Str "_") = "_"
  /\ composite (calculateCompositeSimilarity Sample.processed
                                             (JS.Str "_") (JS.Str "_"))
     = 0%float.
Proof.
  split; [discriminate | ].
  split; [vm_compute; reflexivity | ].
  split; [vm_compute; reflexivity | ].
  split; [reflexivity | vm_compute; reflexivity].
Qed.

Lemma store_pairs_unique_witness :
  unique_pairs
    (db (fst (generateMappings Sample.fuzz [Sample.gastro; Sample.gastro]
                Sample.targets (Sample.options None None (Some true))
                Sample.fresh)))
  /\ (exists row,
        filter (Db.has_key "A" "SM12")
               (Db.rows (db (fst (saveMappingToDatabase Sample.top true
                                    (fst (saveMappingToDatabase Sample.top true
                                            Sample.fresh))))))
        = [row]
        /\ row_of Sample.top row)
  /\ Db.rows (db (fst (saveMappingToDatabase Sample.top false
                         (fst (saveMappingToDatabase Sample.top false
                                 Sample.fresh)))))
     = Db.rows (db (fst (saveMappingToDatabase Sample.top false Sample.fresh)))
  /\ (let first := fst (generateMappings Sample.fuzz [Sample.gastro]
                          Sample.targets (Sample.options None None None)
                          Sample.fresh) in
      Db.rows (db (fst (generateMappings Sample.fuzz [Sample.gastro]
                          Sample.targets (Sample.options None None None) first)))
      = Db.rows (db first)).
Proof.
  destruct store_pairs_unique as (Hunique & Hreplace & Hignore & Hrerun).
  split; [ | split; [ | split]].
  - apply Hunique. vm_compute. constructor.
  - apply (Hreplace Sample.top "A" "SM12"); reflexivity.
  - apply (Hignore Sample.top "A" "SM12"); reflexivity.
  - apply Hrerun. reflexivity.
Defined.

Lemma generateMappings_aggregation_witness :
  let run := generateMappings Sample.fuzz [Sample.gastro] Sample.targets
               (Sample.options None (Some false) None) Sample.fresh in
  match snd run with
  | inr result =>
      total (stats result)
      = highConfidence (stats result) + mediumConfidence (stats result)
  | inl _ => False
  end.
Proof.
  intros run.
  destruct (snd run) as [e | result] eqn:Hresult.
  - vm_compute in Hresult. discriminate.
  - apply (proj1 (generateMappings_aggregation Sample.fuzz [Sample.gastro]
                    (Sample.options None (Some false) None) Sample.fresh)
                 Sample.targets (fst run) result).
    rewrite <- Hresult. apply surjective_pairing.
Defined.

Lemma persisted_row_contents_witness :
  Db.equivalence Sample.top_row = "equivalent"
  /\ Db.mapping_type Sample.top_row = "automatic"
  /\ Db.confidence Sample.top_row = Db.similarity_score Sample.top_row.
Proof.
  destruct (proj1 persisted_row_contents Sample.fuzz [Sample.gastro]
              Sample.targets (Sample.options None None None) Sample.fresh
              Sample.top_row) as [Hold | (m & _ & _ & _ & He & Ht & Hc & Hs & _)].
  - vm_compute. left. reflexivity.
  - destruct Hold.
  - rewrite He, Ht, Hc, Hs. repeat split.
Defined.

(** The row ids of three saves without [overwriteExisting], the second
    on the pair of the first: the save that is skipped returns the last
    row id as it was and uses up the next one. *)
Example skipped_insert_uses_row_id :
  let other := {| ayurveda_code := JS.Str "B";
                  icd11_code := icd11_code Sample.top;
                  icd11_display := icd11_display Sample.top;
                  similarity_score := similarity_score Sample.top;
                  similarity_details := similarity_details Sample.top;
                  confidence := confidence Sample.top;
                  ayurveda_text := ayurveda_text Sample.top;
                  icd11_text := icd11_text Sample.top |} in
  match Db.run Db.InsertOrIgnore (mapping_params Sample.top) Sample.empty_store with
  | inr (st1, lastID1) =>
      match Db.run Db.InsertOrIgnore (mapping_params Sample.top) st1 with
      | inr (st2, lastID2) =>
          match Db.run Db.InsertOrIgnore (mapping_params other) st2 with
          | inr (st3, lastID3) =>
              (lastID1, lastID2, lastID3) = (1, 1, 3)%Z
              /\ map Db.id (Db.rows st3) = [1; 3]%Z
              /\ Db.sequence st2 = 2%Z
          | inl _ => False
          end
      | inl _ => False
      end
  | inl _ => False
  end.
Proof. vm_compute. repeat split. Qed.

Example normalizeText_sample :
  normalizeText (JS.Str "  Gastro-Intestinal   disorder!! (X_1)  ")
  = "gastro intestinal disorder x_1".
Proof. reflexivity. Qed.

(** [SM13] and [SM12] both score 1 and keep the order of the targets;
    [SK00] scores below the threshold. *)
Example findBestMatches_sample :
  map (fun m => (icd11_code m, similarity_score m, confidence m))
      (findBestMatches Sample.fuzz Sample.gastro
         [Sample.SM11; Sample.SM13; Sample.SK00; Sample.SM10; Sample.SM12] None)
  = [ (JS.Str "SM13", 1%float, "high");
      (JS.Str "SM12", 1%float, "high");
      (JS.Str "SM10", 0.96%float, "high");
      (JS.Str "SM11", 0.7600000000000001%float, "medium") ].
Proof. vm_compute. reflexivity. Qed.

(** * Further properties *)

(** ** The searchable text *)

Lemma filter_push_if (cond : bool) (field : JS.text) (parts : list JS.text) :
  (cond = false -> usable field = false) ->
  filter usable (push_if cond field parts)
  = filter usable parts ++ filter usable [field].
Proof.
  intros H. unfold push_if. destruct cond.
  - apply filter_app.
  - simpl. rewrite (H eq_refl). now rewrite app_nil_r.
Qed.

Lemma filter_cons_cons {A} (f : A -> bool) (x y : A) (l : list A) :
  filter f (x :: y :: l) = filter f [x] ++ filter f (y :: l).
Proof. simpl. destruct (f x); reflexivity. Qed.

Lemma filter_none {A} (f : A -> bool) (l : list A) :
  Forall (fun x => f x = false) l -> filter f l = [].
Proof.
  induction l as [ | x l IH]; intros H; [reflexivity | ].
  inversion H; subst. simpl. rewrite H2. auto.
Qed.

Lemma usable_truthy (text : JS.text) : JS.truthy text = false -> usable text = false.
Proof. intros H. unfold usable. now rewrite H. Qed.

Lemma usable_dash (text : JS.text) :
  JS.truthy text && negb (is_dash text) = false -> usable text = false.
Proof. intros H. unfold usable. now rewrite H. Qed.

(** X1.  The searchable text of a code object is made of its display,
    title, English name, description, definition, long definition,
    NAMC term, short and long definition, synonyms and inclusions, in
    this order, joined by single spaces, leaving out every part that
    is absent, empty, the placeholder "-" or blank, whichever field it
    sits in.  A code object without a usable part has the empty
    text. *)
Theorem createSearchableText_parts (codeObject : Code.t) :
  createSearchableText codeObject
  = JS.join " " (map text_string (filter usable (text_parts codeObject)))
  /\ (Forall (fun text => usable text = false) (text_parts codeObject) ->
      createSearchableText codeObject = "").
Proof.
  assert (Heq : createSearchableText codeObject
                = JS.join " " (map text_string
                                   (filter usable (text_parts codeObject)))).
  { unfold createSearchableText, text_parts, text_fields, push_all, elements.
    fold usable. f_equal. f_equal.
    assert (Harrays : forall (a : option (list JS.text)) parts,
               filter usable match a with
                             | Some items => parts ++ items
                             | None => parts
                             end
               = filter usable parts
                 ++ filter usable match a with Some items => items | None => [] end).
    { intros [items | ] parts; [apply filter_app | now rewrite app_nil_r]. }
    rewrite !Harrays.
    repeat (rewrite filter_push_if;
            [ | first [apply usable_truthy | apply usable_dash]]).
    rewrite !filter_app, !filter_cons_cons.
    change (filter usable []) with (@nil JS.text).
    rewrite <- !app_assoc. reflexivity. }
  split; [exact Heq | ].
  intros Hnone. rewrite Heq.
  rewrite (filter_none usable _ Hnone). reflexivity.
Qed.

Lemma composite_no_text (fuzz : Fuzzball) (text1 text2 : JS.text) :
  normalizeText text1 = "" \/ normalizeText text2 = "" ->
  composite (calculateCompositeSimilarity fuzz text1 text2) = 0%float.
Proof.
  intros H. unfold calculateCompositeSimilarity, methods. simpl map.
  rewrite !(calculateSimilarity_empty fuzz text1 text2 _ H). reflexivity.
Qed.

Lemma match_for_no_text (fuzz : Fuzzball) (ayurvedaCode icd11Code : Code.t)
    (ayurvedaSearchText : string) :
  normalizeText (JS.Str ayurvedaSearchText) = ""
  \/ normalizeText (JS.Str (createSearchableText icd11Code)) = "" ->
  match_for fuzz ayurvedaCode ayurvedaSearchText icd11Code = [].
Proof.
  intros H. unfold match_for. rewrite (composite_no_text fuzz _ _ H). reflexivity.
Qed.

(** X2.  A code object whose searchable text normalises to nothing (no
    usable field, or punctuation and white space only) matches
    nothing: as a source it gets no match at all from
    [findBestMatches], whatever the targets and the metrics, and as a
    target it never shows up as a match of any source. *)
Theorem no_text_no_match (fuzz : Fuzzball) (codeObject : Code.t) :
  normalizeText (JS.Str (createSearchableText codeObject)) = "" ->
  (forall (icd11Codes : list Code.t) (maxResults : option Z),
      findBestMatches fuzz codeObject icd11Codes maxResults = [])
  /\ (forall (ayurvedaCode : Code.t) (before after : list Code.t)
             (maxResults : option Z),
        findBestMatches fuzz ayurvedaCode (before ++ codeObject :: after) maxResults
        = findBestMatches fuzz ayurvedaCode (before ++ after) maxResults).
Proof.
  intros Hempty. split.
  - intros icd11Codes maxResults. unfold findBestMatches, candidates.
    replace (flat_map _ icd11Codes) with (@nil Mapping).
    + unfold JS.slice0. simpl. apply firstn_nil.
    + symmetry. induction icd11Codes as [ | t rest IH]; [reflexivity | ].
      simpl. rewrite IH, app_nil_r.
      apply match_for_no_text. now left.
  - intros ayurvedaCode before after maxResults.
    unfold findBestMatches, candidates.
    rewrite !flat_map_app. simpl flat_map.
    rewrite (match_for_no_text fuzz ayurvedaCode codeObject _ (or_intror Hempty)).
    reflexivity.
Qed.

(** ** The tiers *)

Lemma leb_trans_from_positive (c a b : float) :
  is_positive (Prim2SF c) = true ->
  (c <=? a)%float = true -> (a <=? b)%float = true -> (c <=? b)%float = true.
Proof.
  intros Hc Hca Hab.
  assert (Ha := Binary64.leb_is_positive c a Hc Hca).
  assert (Hb := Binary64.leb_is_positive a b Ha Hab).
  exact (Binary64.leb_trans_positive c a b Hc Ha Hb Hca Hab).
Qed.

(** X3.  The tier never goes down when the score goes up: if [a] is
    at most [b], the tier of [a] is at most the tier of [b] in the
    order low, medium, high. *)
Theorem getConfidenceLevel_monotone (a b : float) :
  (a <=? b)%float = true ->
  tier_rank (getConfidenceLevel a) <= tier_rank (getConfidenceLevel b).
Proof.
  intros Hab. unfold getConfidenceLevel.
  destruct (highConfidenceThreshold <=? a)%float eqn:Hhigh.
  - rewrite (leb_trans_from_positive highConfidenceThreshold a b eq_refl Hhigh Hab).
    apply le_n.
  - destruct (similarityThreshold <=? a)%float eqn:Hmedium.
    + rewrite (leb_trans_from_positive similarityThreshold a b eq_refl Hmedium Hab).
      destruct (highConfidenceThreshold <=? b)%float; cbv; lia.
    + change (tier_rank "low") with 0. lia.
Qed.

(** ** More on the mapping generator *)

Lemma planned_length (fuzz : Fuzzball) (ayurvedaCodes icd11Codes : list Code.t)
    (maxMatchesPerCode : Z) :
  (0 <= maxMatchesPerCode)%Z ->
  (Z.of_nat (List.length (planned fuzz ayurvedaCodes icd11Codes maxMatchesPerCode))
   <= maxMatchesPerCode * Z.of_nat (List.length ayurvedaCodes))%Z.
Proof.
  intros Hmax. unfold planned.
  induction ayurvedaCodes as [ | c rest IH]; simpl flat_map.
  - simpl. lia.
  - rewrite length_app.
    assert (H := slice0_length
                   (JS.sort by_score_descending (candidates fuzz c icd11Codes))
                   maxMatchesPerCode Hmax).
    change (JS.slice0 _ maxMatchesPerCode)
      with (findBestMatches fuzz c icd11Codes (Some maxMatchesPerCode)) in H.
    simpl List.length. lia.
Qed.

(** X4.  A run of [generateMappings] that returns reports at most
    [maxMatchesPerCode] mappings per source code: [stats.total], the
    length of [all], is at most [maxMatchesPerCode] (3 when left out)
    times the number of source codes, when [maxMatchesPerCode] is not
    negative. *)
Theorem generateMappings_total_bound (fuzz : Fuzzball)
    (ayurvedaCodes icd11Codes : list Code.t) (options : Options)
    (w w' : World) (result : Mappings) :
  (0 <= default (maxMatchesPerCode options) 3)%Z ->
  generateMappings fuzz ayurvedaCodes icd11Codes options w = (w', inr result) ->
  total (stats result) = List.length (all result)
  /\ (Z.of_nat (total (stats result))
      <= default (maxMatchesPerCode options) 3
         * Z.of_nat (List.length ayurvedaCodes))%Z.
Proof.
  intros Hmax Hrun.
  destruct (persist (default (saveToDatabase options) true)
              (default (overwriteExisting options) false)
              (planned fuzz ayurvedaCodes icd11Codes
                       (default (maxMatchesPerCode options) 3%Z)) (db w))
    as [[st tried] err] eqn:Hp.
  destruct (generateMappings_outcome fuzz ayurvedaCodes icd11Codes options w
              st tried err Hp) as (lines & _ & Hout).
  rewrite Hout in Hrun. destruct err; [discriminate | ].
  injection Hrun as _ <-. simpl. split; [reflexivity | ].
  apply planned_length. exact Hmax.
Qed.

Lemma run_stores (overwriteExisting : bool) (m : Mapping) (st st' : Db.Store)
    (lastID : Z) :
  Db.run (fst (statement overwriteExisting m))
         (snd (statement overwriteExisting m)) st = inr (st', lastID) ->
  stored st' m
  /\ (overwriteExisting = true ->
      exists a b, ayurveda_code m = JS.Str a /\ icd11_code m = JS.Str b).
Proof.
  destruct overwriteExisting.
  - unfold statement, Db.run, stored. simpl fst. simpl snd.
    change (Db.p_namaste_code (mapping_params m)) with (ayurveda_code m).
    change (Db.p_icd11_code (mapping_params m)) with (icd11_code m).
    destruct (ayurveda_code m) as [ | | a]; destruct (icd11_code m) as [ | | b];
      try discriminate.
    intros H. injection H as <- _. split; [ | intros _; now exists a, b].
    simpl. rewrite existsb_app. apply orb_true_iff. right.
    simpl. rewrite orb_false_r. apply has_key_key. reflexivity.
  - intros H. split; [ | discriminate].
    exact (run_ignore_stores m st st' lastID H).
Qed.

Lemma run_keeps_stored (overwriteExisting : bool) (m m' : Mapping)
    (st st' : Db.Store) (lastID : Z) :
  Db.run (fst (statement overwriteExisting m'))
         (snd (statement overwriteExisting m')) st = inr (st', lastID) ->
  stored st m -> stored st' m.
Proof.
  destruct overwriteExisting.
  - unfold statement, Db.run, stored. simpl fst. simpl snd.
    change (Db.p_namaste_code (mapping_params m')) with (ayurveda_code m').
    change (Db.p_icd11_code (mapping_params m')) with (icd11_code m').
    destruct (ayurveda_code m') as [ | | a']; destruct (icd11_code m') as [ | | b'];
      try discriminate.
    intros H. injection H as <- _.
    destruct (ayurveda_code m) as [ | | a]; destruct (icd11_code m) as [ | | b];
      trivial.
    intros Hin. simpl. rewrite existsb_app. apply orb_true_iff.
    destruct (string_dec a a') as [-> | Ha];
      [destruct (string_dec b b') as [-> | Hb] | ].
    + right. simpl. rewrite orb_false_r. apply has_key_key. reflexivity.
    + left. apply existsb_exists in Hin. destruct Hin as (r & Hr & Hk).
      apply existsb_exists. exists r. split; [ | exact Hk].
      apply filter_In. split; [exact Hr | ].
      apply has_key_key in Hk.
      destruct (Db.has_key a' b' r) eqn:Hk'; [ | reflexivity].
      apply has_key_key in Hk'. rewrite Hk in Hk'. congruence.
    + left. apply existsb_exists in Hin. destruct Hin as (r & Hr & Hk).
      apply existsb_exists. exists r. split; [ | exact Hk].
      apply filter_In. split; [exact Hr | ].
      apply has_key_key in Hk.
      destruct (Db.has_key a' b' r) eqn:Hk'; [ | reflexivity].
      apply has_key_key in Hk'. rewrite Hk in Hk'. congruence.
  - intros H Hst.
    destruct (run_ignore_grows (mapping_params m') st)
      as (st1 & lastID1 & Hrun & added & Hrows).
    unfold statement in H. cbn [fst snd] in H. rewrite Hrun in H. injection H as <- _.
    exact (stored_grows m st st1 added Hrows Hst).
Qed.

Lemma save_all_stores (overwriteExisting : bool) (ms : list Mapping) :
  forall st st' tried,
    save_all overwriteExisting ms st = (st', tried, None) ->
    Forall (fun m =>
              stored st' m
              /\ (overwriteExisting = true ->
                  exists a b, ayurveda_code m = JS.Str a /\ icd11_code m = JS.Str b))
           ms
    /\ (forall m, stored st m -> stored st' m).
Proof.
  induction ms as [ | m rest IH]; intros st st' tried; cbn [save_all].
  - intros H. injection H as <- _. split; [constructor | trivial].
  - destruct (Db.run _ _ st) as [e | [st1 lastID]] eqn:Hrun; [discriminate | ].
    destruct (save_all overwriteExisting rest st1) as [[st2 tried2] err2] eqn:Hrest.
    intros H. injection H as <- _ ->.
    destruct (IH st1 st2 tried2 Hrest) as [Hall Hkeep].
    destruct (run_stores overwriteExisting m st st1 lastID Hrun) as [Hm Hcodes].
    split.
    + constructor; [split; [apply Hkeep, Hm | exact Hcodes] | exact Hall].
    + intros m' Hm'. apply Hkeep.
      exact (run_keeps_stored overwriteExisting m' m st st1 lastID Hrun Hm').
Qed.

(** X5.  After a run of [generateMappings] with [saveToDatabase] that
    returns, the store holds a row for the pair of every mapping of
    [all] that has both codes; with [overwriteExisting] every mapping
    of [all] has both codes. *)
Theorem generateMappings_stores_all (fuzz : Fuzzball)
    (ayurvedaCodes icd11Codes : list Code.t) (options : Options)
    (w w' : World) (result : Mappings) :
  default (saveToDatabase options) true = true ->
  generateMappings fuzz ayurvedaCodes icd11Codes options w = (w', inr result) ->
  forall m, In m (all result) ->
    (forall a b,
        ayurveda_code m = JS.Str a -> icd11_code m = JS.Str b ->
        exists row,
          In row (Db.rows (db w'))
          /\ Db.namaste_code row = a /\ Db.icd11_code row = b)
    /\ (default (overwriteExisting options) false = true ->
        exists a b, ayurveda_code m = JS.Str a /\ icd11_code m = JS.Str b).
Proof.
  intros Hsave Hrun m Hm.
  destruct (persist (default (saveToDatabase options) true)
              (default (overwriteExisting options) false)
              (planned fuzz ayurvedaCodes icd11Codes
                       (default (maxMatchesPerCode options) 3%Z)) (db w))
    as [[st tried] err] eqn:Hp.
  destruct (generateMappings_outcome fuzz ayurvedaCodes icd11Codes options w
              st tried err Hp) as (lines & _ & Hout).
  rewrite Hout in Hrun. destruct err; [discriminate | ].
  injection Hrun as <- <-. simpl in Hm |- *.
  unfold persist in Hp. rewrite Hsave in Hp.
  destruct (save_all_stores _ _ _ _ _ Hp) as [Hall _].
  destruct (proj1 (Forall_forall _ _) Hall m Hm) as [Hstored Hcodes].
  split; [ | exact Hcodes].
  intros a b Ha Hb. unfold stored in Hstored. rewrite Ha, Hb in Hstored.
  apply existsb_exists in Hstored. destruct Hstored as (row & Hrow & Hk).
  exists row. split; [exact Hrow | ].
  apply has_key_key in Hk. unfold Db.key in Hk. injection Hk as -> ->. now split.
Qed.

Lemma run_keeps_row (overwriteExisting : bool) (m : Mapping) (st st' : Db.Store)
    (lastID : Z) (row : Db.Row) :
  Db.run (fst (statement overwriteExisting m))
         (snd (statement overwriteExisting m)) st = inr (st', lastID) ->
  In row (Db.rows st) ->
  overwriteExisting = false \/ ~ on_pair_of m row ->
  In row (Db.rows st').
Proof.
  destruct overwriteExisting.
  - unfold statement, Db.run, on_pair_of. simpl fst. simpl snd.
    change (Db.p_namaste_code (mapping_params m)) with (ayurveda_code m).
    change (Db.p_icd11_code (mapping_params m)) with (icd11_code m).
    destruct (ayurveda_code m) as [ | | a]; destruct (icd11_code m) as [ | | b];
      try discriminate.
    intros H. injection H as <- _. intros Hin [Hfalse | Hother]; [discriminate | ].
    simpl. apply in_or_app. left. apply filter_In. split; [exact Hin | ].
    destruct (Db.has_key a b row) eqn:Hk; [ | reflexivity].
    apply has_key_key in Hk. unfold Db.key in Hk. injection Hk as Ha Hb.
    exfalso. apply Hother. now rewrite Ha, Hb.
  - intros H Hin _.
    destruct (run_ignore_grows (mapping_params m) st)
      as (st1 & lastID1 & Hrun & added & Hrows).
    unfold statement in H. cbn [fst snd] in H. rewrite Hrun in H. injection H as <- _.
    rewrite Hrows. apply in_or_app. now left.
Qed.

Lemma save_all_keeps_row (overwriteExisting : bool) (ms : list Mapping)
    (row : Db.Row) :
  forall st st' tried err,
    save_all overwriteExisting ms st = (st', tried, err) ->
    In row (Db.rows st) ->
    overwriteExisting = false \/ (forall m, In m ms -> ~ on_pair_of m row) ->
    In row (Db.rows st').
Proof.
  induction ms as [ | m rest IH]; intros st st' tried err; cbn [save_all].
  - intros H. injection H as <- _ _. trivial.
  - destruct (Db.run _ _ st) as [e | [st1 lastID]] eqn:Hrun.
    + intros H. injection H as <- _ _. trivial.
    + destruct (save_all overwriteExisting rest st1) as [[st2 tried2] err2] eqn:Hrest.
      intros H. injection H as <- _ _. intros Hin Hcase.
      apply (IH st1 st2 tried2 err2 Hrest).
      * apply (run_keeps_row overwriteExisting m st st1 lastID row Hrun Hin).
        destruct Hcase as [Hfalse | Hother]; [now left | right].
        apply Hother. now left.
      * destruct Hcase as [Hfalse | Hother]; [now left | right].
        intros m' Hm'. apply Hother. now right.
Qed.

(** X6.  A run of [generateMappings] never removes or changes a row
    of a pair of codes that none of its mappings has, and without
    [overwriteExisting] it never removes or changes any row, however
    the run ends. *)
Theorem generateMappings_keeps_rows (fuzz : Fuzzball)
    (ayurvedaCodes icd11Codes : list Code.t) (options : Options)
    (w : World) (row : Db.Row) :
  In row (Db.rows (db w)) ->
  default (overwriteExisting options) false = false
  \/ (forall m,
        In m (planned fuzz ayurvedaCodes icd11Codes
                      (default (maxMatchesPerCode options) 3%Z)) ->
        ~ on_pair_of m row) ->
  In row (Db.rows (db (fst (generateMappings fuzz ayurvedaCodes icd11Codes
                                             options w)))).
Proof.
  intros Hin Hcase.
  destruct (persist (default (saveToDatabase options) true)
              (default (overwriteExisting options) false)
              (planned fuzz ayurvedaCodes icd11Codes
                       (default (maxMatchesPerCode options) 3%Z)) (db w))
    as [[st tried] err] eqn:Hp.
  destruct (generateMappings_outcome fuzz ayurvedaCodes icd11Codes options w
              st tried err Hp) as (lines & _ & ->).
  simpl. unfold persist in Hp.
  destruct (default (saveToDatabase options) true).
  - exact (save_all_keeps_row _ _ row _ _ _ _ Hp Hin Hcase).
  - injection Hp as <- _ _. exact Hin.
Qed.

(** ** Reading the store *)

Lemma placeholders_app (a b : string) :
  Stored.placeholders (a ++ b) = Stored.placeholders a + Stored.placeholders b.
Proof.
  induction a as [ | c a IH]; simpl; [reflexivity | ]. rewrite IH. lia.
Qed.

Lemma add_if_placeholders (cond : bool) (clause : string) (value : Stored.Param)
    (built : string * list Stored.Param) :
  Stored.placeholders clause = 1 ->
  Stored.placeholders (fst built) = List.length (snd built) ->
  Stored.placeholders (fst (Stored.add_if cond clause value built))
  = List.length (snd (Stored.add_if cond clause value built)).
Proof.
  intros Hclause Hbuilt. unfold Stored.add_if. destruct cond; [ | exact Hbuilt].
  simpl. rewrite placeholders_app, length_app, Hclause, Hbuilt. reflexivity.
Qed.

(** X7.  Whatever the filters, the query that [getStoredMappings]
    hands to the store has exactly as many placeholders as bound
    parameters, and it binds at most five. *)
Theorem getStoredMappings_query_arity (filters : Stored.Filters) :
  Stored.placeholders (fst (Stored.getStoredMappings_query filters))
  = List.length (snd (Stored.getStoredMappings_query filters))
  /\ List.length (snd (Stored.getStoredMappings_query filters)) <= 5.
Proof.
  split.
  - unfold Stored.getStoredMappings_query.
    apply add_if_placeholders; [reflexivity | ].
    cbn [fst snd]. rewrite placeholders_app.
    change (Stored.placeholders " ORDER BY cm.confidence DESC, cm.created_at DESC")
      with 0.
    rewrite Nat.add_0_r.
    repeat (apply add_if_placeholders; [reflexivity | ]).
    reflexivity.
  - unfold Stored.getStoredMappings_query, Stored.add_if.
    destruct (JS.truthy (Stored.ayurveda_code filters));
      destruct (JS.truthy (Stored.icd11_code filters));
      destruct (Stored.given (Stored.min_confidence filters));
      destruct (JS.truthy (Stored.mapping_type filters));
      destruct (Stored.given (Stored.limit filters)); simpl; lia.
Qed.

(** ** The statistics route *)

Lemma is_nan_false (x : float) :
  PrimFloat.is_nan x = false -> Prim2SF x <> S754_nan.
Proof.
  unfold PrimFloat.is_nan. rewrite FloatAxioms.eqb_spec. unfold SFeqb.
  intros H Hnan. rewrite Hnan in H. discriminate.
Qed.

Lemma SFcompare_not_nan (a b : spec_float) :
  a <> S754_nan -> b <> S754_nan -> SFcompare a b <> None.
Proof.
  destruct a as [s | s | | s m e]; destruct b as [s' | s' | | s' m' e'];
    intros Ha Hb; try congruence; simpl; try discriminate.
Qed.

Lemma ltb_negb_leb (x c : float) :
  PrimFloat.is_nan x = false -> PrimFloat.is_nan c = false ->
  (x <? c)%float = negb (c <=? x)%float.
Proof.
  intros Hx Hc. rewrite ltb_spec, leb_spec. unfold SFltb, SFleb.
  rewrite (Binary64.SFcompare_antisym (Prim2SF x) (Prim2SF c)).
  assert (H := SFcompare_not_nan _ _ (is_nan_false x Hx) (is_nan_false c Hc)).
  destruct (SFcompare (Prim2SF x) (Prim2SF c)) as [[ | | ] | ];
    try reflexivity. congruence.
Qed.

Lemma tier_of_number (c : float) :
  PrimFloat.is_nan c = false ->
  (0.8 <=? c)%float = (getConfidenceLevel c =? "high")
  /\ ((0.6 <=? c)%float && (c <? 0.8)%float) = (getConfidenceLevel c =? "medium")
  /\ (c <? 0.6)%float = (getConfidenceLevel c =? "low").
Proof.
  intros Hc.
  rewrite (ltb_negb_leb c 0.8 Hc eq_refl), (ltb_negb_leb c 0.6 Hc eq_refl).
  unfold getConfidenceLevel, highConfidenceThreshold, similarityThreshold.
  destruct (0.8 <=? c)%float eqn:H8.
  - rewrite (leb_trans_from_positive 0.6 0.8 c eq_refl eq_refl H8).
    repeat split; reflexivity.
  - destruct (0.6 <=? c)%float; repeat split; reflexivity.
Qed.

Lemma tier_cases (score : float) :
  getConfidenceLevel score = "high"
  \/ getConfidenceLevel score = "medium"
  \/ getConfidenceLevel score = "low".
Proof.
  unfold getConfidenceLevel.
  destruct (highConfidenceThreshold <=? score)%float; [now left | ].
  destruct (similarityThreshold <=? score)%float; [right; now left | right; now right].
Qed.

Lemma filter_ext_Forall {A} (P : A -> Prop) (f g : A -> bool) (xs : list A) :
  (forall x, P x -> f x = g x) -> Forall P xs -> filter f xs = filter g xs.
Proof.
  intros Hfg Hall. induction Hall as [ | x xs Hx _ IH]; [reflexivity | ].
  simpl. now rewrite (Hfg x Hx), IH.
Qed.

(** X8.  When no stored confidence is [NaN], the three buckets of the
    statistics route are the rows of the three tiers of
    [getConfidenceLevel], every row is in exactly one bucket, and the
    three counts add up to the total. *)
Theorem stats_buckets (allMappings : list Db.Row) :
  Forall (fun m => PrimFloat.is_nan (Db.confidence m) = false) allMappings ->
  MappingStats.highConfidence allMappings
  = filter (fun m => getConfidenceLevel (Db.confidence m) =? "high") allMappings
  /\ MappingStats.mediumConfidence allMappings
     = filter (fun m => getConfidenceLevel (Db.confidence m) =? "medium") allMappings
  /\ MappingStats.lowConfidence allMappings
     = filter (fun m => getConfidenceLevel (Db.confidence m) =? "low") allMappings
  /\ List.length allMappings
     = List.length (MappingStats.highConfidence allMappings)
       + List.length (MappingStats.mediumConfidence allMappings)
       + List.length (MappingStats.lowConfidence allMappings).
Proof.
  intros Hall.
  assert (Hhigh : MappingStats.highConfidence allMappings
                  = filter (fun m => getConfidenceLevel (Db.confidence m) =? "high")
                           allMappings).
  { apply (filter_ext_Forall _ _ _ _ (fun m H => proj1 (tier_of_number _ H)) Hall). }
  assert (Hmedium : MappingStats.mediumConfidence allMappings
                    = filter (fun m => getConfidenceLevel (Db.confidence m) =? "medium")
                             allMappings).
  { apply (filter_ext_Forall _ _ _ _
             (fun m H => proj1 (proj2 (tier_of_number _ H))) Hall). }
  assert (Hlow : MappingStats.lowConfidence allMappings
                 = filter (fun m => getConfidenceLevel (Db.confidence m) =? "low")
                          allMappings).
  { apply (filter_ext_Forall _ _ _ _
             (fun m H => proj2 (proj2 (tier_of_number _ H))) Hall). }
  repeat split; trivial.
  rewrite Hhigh, Hmedium, Hlow. clear.
  induction allMappings as [ | m rest IH]; [reflexivity | ].
  cbn [filter].
  destruct (tier_cases (Db.confidence m)) as [E | [E | E]]; rewrite E;
    cbn [String.eqb Ascii.eqb Bool.eqb filter List.length]; lia.
Qed.

(** X9.  The average confidence of the statistics route is never
    [NaN]: it is 0 when there is no mapping, and 0 as well when the
    sum of the confidences is not a number. *)
Theorem averageConfidence_number (allMappings : list Db.Row) :
  PrimFloat.is_nan (MappingStats.averageConfidence allMappings) = false
  /\ MappingStats.averageConfidence [] = 0%float.
Proof.
  split; [ | reflexivity].
  unfold MappingStats.averageConfidence, MappingStats.number_or.
  destruct (Stored.number_truthy _) eqn:Htruthy; [ | reflexivity].
  unfold Stored.number_truthy in Htruthy.
  apply andb_true_iff in Htruthy. destruct Htruthy as [_ Hnan].
  now apply negb_true_iff in Hnan.
Qed.

(** ** The CSV validator *)

Lemma trim_not_blank (c : ascii) (s : string) :
  JS.is_space c = false -> JS.trim (String c s) <> "".
Proof.
  intros H. unfold JS.trim. cbn [JS.trimStart]. rewrite H.
  cbn [JS.trimEnd]. destruct (JS.trimEnd s); [rewrite H | ]; discriminate.
Qed.

Lemma code_format_not_blank (c : string) :
  Csv.code_format c = true -> c <> "" /\ JS.trim c <> "".
Proof.
  destruct c as [ | a c]; [discriminate | ]. intros H. split; [discriminate | ].
  unfold Csv.code_format in H.
  destruct c as [ | b [ | c' [ | d [ | e [ | f [ | ? ?]]]]]]; try discriminate.
  apply andb_true_iff in H. destruct H as [H _].
  apply andb_true_iff in H. destruct H as [H _].
  apply andb_true_iff in H. destruct H as [H _].
  apply andb_true_iff in H. destruct H as [H _].
  apply andb_true_iff in H. destruct H as [Ha _].
  assert (Hsp : JS.is_space a = false).
  { unfold Csv.is_upper in Ha. unfold JS.is_space.
    destruct (JS.code_unit a) as [ | p]; [discriminate | ].
    apply andb_true_iff in Ha. destruct Ha as [H1 H2].
    apply N.leb_le in H1, H2.
    repeat match goal with
           | |- context [(?x <=? ?y)%N] => destruct (N.leb_spec x y)
           | |- context [(?x =? ?y)%N] => destruct (N.eqb_spec x y)
           end; simpl; try reflexivity; lia. }
  now apply trim_not_blank.
Qed.

Lemma known_system_not_blank (s : string) :
  Csv.known_system s = true -> s <> "" /\ JS.trim s <> "".
Proof.
  unfold Csv.known_system. simpl. rewrite orb_false_r.
  intros H. apply orb_true_iff in H. destruct H as [H | H];
    [ | apply orb_true_iff in H; destruct H as [H | H]];
    apply String.eqb_eq in H; subst s; split; discriminate.
Qed.

Lemma row_errors_nil (row : Csv.Row) (index : nat) :
  Csv.row_errors row index = [] <-> Csv.well_formed row.
Proof.
  unfold Csv.row_errors, Csv.well_formed, Csv.requiredFields.
  cbn [flat_map Csv.get String.eqb Ascii.eqb Bool.eqb].
  split.
  - intros H.
    apply app_eq_nil in H. destruct H as [H1 H].
    apply app_eq_nil in H. destruct H as [H2 H3].
    apply app_eq_nil in H1. destruct H1 as [Ha H1].
    apply app_eq_nil in H1. destruct H1 as [Hb H1].
    apply app_eq_nil in H1. destruct H1 as [Hc _].
    destruct (Csv.code row) as [ | | c]; try discriminate.
    destruct (Csv.display row) as [ | | d]; try discriminate.
    destruct (Csv.system row) as [ | | s]; try discriminate.
    cbn [JS.truthy text_string] in *.
    destruct (c =? "") eqn:Ec; [discriminate | ].
    destruct (JS.trim c =? "") eqn:Etc; [discriminate | ].
    destruct (d =? "") eqn:Ed; [discriminate | ].
    destruct (JS.trim d =? "") eqn:Etd; [discriminate | ].
    destruct (s =? "") eqn:Es; [discriminate | ].
    destruct (JS.trim s =? "") eqn:Ets; [discriminate | ].
    cbn [negb orb andb] in H2, H3.
    destruct (Csv.code_format c) eqn:Ef; [ | discriminate].
    destruct (Csv.known_system s) eqn:Ek; [ | discriminate].
    repeat split.
    + now exists c.
    + exists d. split; [reflexivity | now apply String.eqb_neq].
    + now exists s.
  - intros ((c & E1 & Hf) & (d & E2 & Hd) & (s & E3 & Hk)).
    rewrite E1, E2, E3. cbn [JS.truthy text_string].
    destruct (code_format_not_blank c Hf) as [Hc1 Hc2].
    destruct (known_system_not_blank s Hk) as [Hs1 Hs2].
    assert (Hd1 : d <> "") by (intros ->; now apply Hd).
    apply String.eqb_neq in Hc1, Hc2, Hs1, Hs2, Hd1, Hd.
    rewrite Hc1, Hc2, Hs1, Hs2, Hd1, Hd, Hf, Hk. reflexivity.
Qed.

Lemma each_row_errors_nil (data : list Csv.Row) :
  forall index,
    Csv.each_row_errors index data = [] <-> Forall Csv.well_formed data.
Proof.
  induction data as [ | row rest IH]; intros index; simpl.
  - split; [constructor | reflexivity].
  - split.
    + intros H. apply app_eq_nil in H. destruct H as [H1 H2].
      constructor; [now apply (row_errors_nil row index) | now apply (IH (S index))].
    + intros H. inversion H; subst.
      rewrite (proj2 (row_errors_nil row index)), (proj2 (IH (S index))); trivial.
Qed.

Lemma validate_valid (data : list Csv.Row) :
  (Csv.valid (Csv.validateNAMASTECSV data) = true
   <-> data <> [] /\ Forall Csv.well_formed data)
  /\ (Csv.valid (Csv.validateNAMASTECSV data) = true
      <-> Csv.errors (Csv.validateNAMASTECSV data) = []).
Proof.
  destruct data as [ | firstRow rest].
  - simpl. repeat split; try discriminate; try tauto.
  - assert (Hvalid : Csv.valid (Csv.validateNAMASTECSV (firstRow :: rest)) = true
                     <-> Csv.errors (Csv.validateNAMASTECSV (firstRow :: rest)) = []).
    { cbn [Csv.validateNAMASTECSV Csv.valid Csv.errors].
      rewrite Nat.eqb_eq. apply length_zero_iff_nil. }
    split; [ | exact Hvalid].
    rewrite Hvalid. cbn [Csv.validateNAMASTECSV Csv.errors].
    split.
    + intros H. apply app_eq_nil in H. destruct H as [_ H].
      split; [discriminate | ]. now apply (each_row_errors_nil _ 0).
    + intros [_ H].
      rewrite (proj2 (each_row_errors_nil _ 0) H), app_nil_r.
      inversion H as [ | ? ? Hfirst _]; subst.
      destruct Hfirst as ((c & Hc & _) & (d & Hd & _) & (s & Hs & _)).
      unfold Csv.requiredFields, Csv.has.
      cbn [flat_map Csv.get String.eqb Ascii.eqb Bool.eqb].
      rewrite Hc, Hd, Hs. reflexivity.
Qed.

(** X10.  [validateNAMASTECSV] accepts a file exactly when it has at
    least one row and every row has a code of three capital letters
    followed by three digits, a display that is not blank, and the
    system Ayurveda, Siddha or Unani; it reports no error exactly when
    it accepts. *)
Theorem validateNAMASTECSV_accepts (data : list Csv.Row) :
  (Csv.valid (Csv.validateNAMASTECSV data) = true
   <-> data <> [] /\ Forall Csv.well_formed data)
  /\ (Csv.valid (Csv.validateNAMASTECSV data) = true
      <-> Csv.errors (Csv.validateNAMASTECSV data) = []).
Proof.
  exact (validate_valid data).
Qed.

(** ** The NAMASTE code system service *)

Lemma update_code_codes c d s sp de ts (table : list Fhir.Code) :
  map Fhir.code (Fhir.update_code c d s sp de ts table) = map Fhir.code table
  /\ map Fhir.id (Fhir.update_code c d s sp de ts table) = map Fhir.id table
  /\ map Fhir.status (Fhir.update_code c d s sp de ts table)
     = map Fhir.status table.
Proof.
  unfold Fhir.update_code. rewrite !map_map.
  repeat split; apply map_ext; intros row;
    destruct (Fhir.code row =? c); reflexivity.
Qed.

Lemma find_code_none (c : string) (table : list Fhir.Code) :
  find (fun r => Fhir.code r =? c) table = None <-> ~ In c (map Fhir.code table).
Proof.
  induction table as [ | x rest IH]; simpl.
  - tauto.
  - destruct (String.eqb_spec (Fhir.code x) c) as [E | E].
    + split; [discriminate | ]. intros H. elim H. now left.
    + rewrite IH. tauto.
Qed.

Lemma ingest_row_accepted (st : Fhir.State) (results : Fhir.Results)
  (row : Csv.Row) :
  Fhir.accepted row = false ->
  fst (Fhir.ingest_row (st, results) row) = st
  /\ Fhir.processed (snd (Fhir.ingest_row (st, results) row))
     = S (Fhir.processed results)
  /\ Fhir.inserted (snd (Fhir.ingest_row (st, results) row))
     = Fhir.inserted results
  /\ Fhir.updated (snd (Fhir.ingest_row (st, results) row))
     = Fhir.updated results
  /\ exists message,
      Fhir.errors (snd (Fhir.ingest_row (st, results) row))
      = Fhir.errors results ++ [message].
Proof.
  unfold Fhir.accepted, Fhir.ingest_row. intros H.
  replace (negb (JS.truthy (Csv.code row)) || negb (JS.truthy (Csv.display row))
           || negb (JS.truthy (Csv.system row)))
    with true
    by (destruct (JS.truthy (Csv.code row)), (JS.truthy (Csv.display row)),
          (JS.truthy (Csv.system row)); simpl in *; congruence).
  cbn [fst snd Fhir.processed Fhir.inserted Fhir.updated Fhir.errors].
  repeat split. eexists. reflexivity.
Qed.

Lemma ingest_row_condition (row : Csv.Row) :
  Fhir.accepted row = true ->
  negb (JS.truthy (Csv.code row)) || negb (JS.truthy (Csv.display row))
  || negb (JS.truthy (Csv.system row)) = false.
Proof.
  unfold Fhir.accepted. intros H.
  destruct (JS.truthy (Csv.code row)), (JS.truthy (Csv.display row)),
    (JS.truthy (Csv.system row)); simpl in *; congruence.
Qed.

(** What the counters and the table of one turn are. *)
Lemma ingest_row_counts (st : Fhir.State) (results : Fhir.Results)
  (row : Csv.Row) :
  let st' := fst (Fhir.ingest_row (st, results) row) in
  let results' := snd (Fhir.ingest_row (st, results) row) in
  Fhir.processed results' = S (Fhir.processed results)
  /\ Fhir.inserted results' + Fhir.updated results'
     + List.length (Fhir.errors results')
     = S (Fhir.inserted results + Fhir.updated results
          + List.length (Fhir.errors results))
  /\ List.length (Fhir.errors results')
     = List.length (Fhir.errors results)
       + (if Fhir.accepted row then 0 else 1)
  /\ List.length (Fhir.namaste_codes st') + Fhir.inserted results
     = List.length (Fhir.namaste_codes st) + Fhir.inserted results'
  /\ Fhir.fhir_resources st' = Fhir.fhir_resources st
  /\ Fhir.now st' = Fhir.now st
  /\ Fhir.current_timestamp st' = Fhir.current_timestamp st.
Proof.
  cbv zeta.
  destruct (Fhir.accepted row) eqn:Hacc.
  - unfold Fhir.ingest_row. rewrite (ingest_row_condition row Hacc).
    destruct (find _ (Fhir.namaste_codes st)) as [existing | ];
      cbn [fst snd Fhir.processed Fhir.inserted Fhir.updated Fhir.errors
             Fhir.namaste_codes Fhir.fhir_resources Fhir.now
             Fhir.current_timestamp Fhir.insert_code].
    + unfold Fhir.update_code. rewrite length_map. repeat split; lia.
    + rewrite length_app. simpl. repeat split; lia.
  - destruct (ingest_row_accepted st results row Hacc)
      as (-> & -> & -> & -> & message & ->).
    rewrite length_app. simpl. repeat split; lia.
Qed.

Lemma ingest_rows_counts (csvData : list Csv.Row) :
  forall (st : Fhir.State) (results : Fhir.Results),
    let st' := fst (Fhir.ingest_rows csvData (st, results)) in
    let results' := snd (Fhir.ingest_rows csvData (st, results)) in
    Fhir.processed results' = Fhir.processed results + List.length csvData
    /\ Fhir.inserted results' + Fhir.updated results'
       + List.length (Fhir.errors results')
       = Fhir.inserted results + Fhir.updated results
         + List.length (Fhir.errors results) + List.length csvData
    /\ List.length (Fhir.errors results')
       = List.length (Fhir.errors results)
         + List.length (filter (fun row => negb (Fhir.accepted row)) csvData)
    /\ List.length (Fhir.namaste_codes st') + Fhir.inserted results
       = List.length (Fhir.namaste_codes st) + Fhir.inserted results'
    /\ Fhir.fhir_resources st' = Fhir.fhir_resources st
    /\ Fhir.now st' = Fhir.now st
    /\ Fhir.current_timestamp st' = Fhir.current_timestamp st.
Proof.
  induction csvData as [ | row rest IH]; intros st results; cbv zeta.
  - simpl. repeat split; lia.
  - unfold Fhir.ingest_rows. cbn [fold_left].
    destruct (Fhir.ingest_row (st, results) row) as [st1 results1] eqn:E.
    pose proof (ingest_row_counts st results row) as H1. rewrite E in H1.
    cbv zeta in H1. cbn [fst snd] in H1.
    destruct H1 as (P1 & P2 & P3 & P4 & P5 & P6 & P7).
    specialize (IH st1 results1). cbv zeta in IH. unfold Fhir.ingest_rows in IH.
    destruct IH as (Q1 & Q2 & Q3 & Q4 & Q5 & Q6 & Q7).
    cbn [filter List.length].
    destruct (Fhir.accepted row); cbn [negb List.length];
      repeat split; try lia; congruence.
Qed.

Lemma ingestCSV_parts (csvData : list Csv.Row) (st : Fhir.State) :
  snd (Fhir.ingestCSV csvData st)
  = snd (Fhir.ingest_rows csvData
           (st, {| Fhir.processed := 0; Fhir.inserted := 0;
                   Fhir.updated := 0; Fhir.errors := [] |}))
  /\ Fhir.namaste_codes (fst (Fhir.ingestCSV csvData st))
     = Fhir.namaste_codes
         (fst (Fhir.ingest_rows csvData
                 (st, {| Fhir.processed := 0; Fhir.inserted := 0;
                         Fhir.updated := 0; Fhir.errors := [] |}))).
Proof.
  unfold Fhir.ingestCSV.
  destruct (Fhir.ingest_rows csvData _) as [st' results].
  destruct ((0 <? Fhir.inserted results)%nat || (0 <? Fhir.updated results)%nat);
    split; reflexivity.
Qed.

Lemma ingestCSV_results (csvData : list Csv.Row) (st : Fhir.State) :
  let st' := fst (Fhir.ingestCSV csvData st) in
  let results := snd (Fhir.ingestCSV csvData st) in
  Fhir.processed results = List.length csvData
  /\ Fhir.inserted results + Fhir.updated results
     + List.length (Fhir.errors results)
     = List.length csvData
  /\ List.length (Fhir.errors results)
     = List.length (filter (fun row => negb (Fhir.accepted row)) csvData)
  /\ List.length (Fhir.namaste_codes st')
     = List.length (Fhir.namaste_codes st) + Fhir.inserted results.
Proof.
  cbv zeta. destruct (ingestCSV_parts csvData st) as [-> ->].
  pose proof (ingest_rows_counts csvData st
                {| Fhir.processed := 0; Fhir.inserted := 0;
                   Fhir.updated := 0; Fhir.errors := [] |}) as H.
  cbv zeta in H. cbn [Fhir.processed Fhir.inserted Fhir.updated Fhir.errors
                        List.length] in H.
  destruct H as (P1 & P2 & P3 & P4 & _). repeat split; lia.
Qed.


Lemma extends_refl (table : list Fhir.Code) : extends table table.
Proof.
  exists []. simpl. rewrite !app_nil_r. repeat split. constructor.
Qed.

Lemma extends_trans (a b c : list Fhir.Code) :
  extends a b -> extends b c -> extends a c.
Proof.
  intros (x & X1 & X2 & X3 & X4) (y & Y1 & Y2 & Y3 & Y4).
  exists (x ++ y). rewrite !map_app, !app_assoc, <- X1, <- X2, <- X3.
  repeat split; trivial. apply Forall_app. now split.
Qed.

Lemma ingest_row_table (st : Fhir.State) (results : Fhir.Results)
  (row : Csv.Row) :
  let table := Fhir.namaste_codes st in
  let table' := Fhir.namaste_codes (fst (Fhir.ingest_row (st, results) row)) in
  extends table table'
  /\ (NoDup (map Fhir.code table) -> NoDup (map Fhir.code table')).
Proof.
  cbv zeta. destruct (Fhir.accepted row) eqn:Hacc.
  - unfold Fhir.ingest_row. rewrite (ingest_row_condition row Hacc).
    destruct (find _ (Fhir.namaste_codes st)) as [existing | ] eqn:Hfind;
      cbn [fst Fhir.namaste_codes Fhir.insert_code].
    + match goal with
      | |- context [Fhir.update_code ?c ?d ?s ?sp ?de ?ts ?t] =>
          destruct (update_code_codes c d s sp de ts t) as (E1 & E2 & E3)
      end.
      split.
      * exists []. simpl. rewrite !app_nil_r. repeat split; auto.
      * now rewrite E1.
    + split.
      * eexists [_]. rewrite !map_app. repeat split.
        constructor; [reflexivity | constructor].
      * intros Hnd. rewrite map_app. simpl.
        apply find_code_none in Hfind.
        apply NoDup_app; [exact Hnd | repeat constructor; simpl; tauto | ].
        intros x Hx [<- | []]. now apply Hfind.
  - destruct (ingest_row_accepted st results row Hacc) as (-> & _).
    split; [apply extends_refl | trivial].
Qed.

Lemma ingest_rows_table (csvData : list Csv.Row) :
  forall (st : Fhir.State) (results : Fhir.Results),
    let table := Fhir.namaste_codes st in
    let table' :=
      Fhir.namaste_codes (fst (Fhir.ingest_rows csvData (st, results))) in
    extends table table'
    /\ (NoDup (map Fhir.code table) -> NoDup (map Fhir.code table')).
Proof.
  induction csvData as [ | row rest IH]; intros st results; cbv zeta.
  - simpl. split; [apply extends_refl | trivial].
  - unfold Fhir.ingest_rows. cbn [fold_left].
    destruct (ingest_row_table st results row) as [H1 H2].
    destruct (Fhir.ingest_row (st, results) row) as [st1 results1].
    cbn [fst] in H1, H2.
    destruct (IH st1 results1) as [H3 H4]. unfold Fhir.ingest_rows in H3, H4.
    split; [now apply extends_trans with (Fhir.namaste_codes st1) | auto].
Qed.

(** X12.  [ingestCSV] never removes or moves a row of [namaste_codes]
    and never changes the code, the id or the status of one: the
    columns of codes, ids and statuses after it are the ones before it
    followed by those of the inserted rows, which are active; and a
    table with one row per code still has one row per code. *)
Theorem ingestCSV_keeps_codes (csvData : list Csv.Row) (st : Fhir.State) :
  NoDup (map Fhir.code (Fhir.namaste_codes st)) ->
  NoDup (map Fhir.code (Fhir.namaste_codes (fst (Fhir.ingestCSV csvData st))))
  /\ extends (Fhir.namaste_codes st)
             (Fhir.namaste_codes (fst (Fhir.ingestCSV csvData st))).
Proof.
  intros Hnd. destruct (ingestCSV_parts csvData st) as [_ ->].
  destruct (ingest_rows_table csvData st
              {| Fhir.processed := 0; Fhir.inserted := 0;
                 Fhir.updated := 0; Fhir.errors := [] |}) as [H1 H2].
  split; [now apply H2 | exact H1].
Qed.

Lemma well_formed_accepted (row : Csv.Row) :
  Csv.well_formed row -> Fhir.accepted row = true.
Proof.
  intros ((c & Hc & Hf) & (d & Hd & Ht) & (s & Hs & Hk)).
  unfold Fhir.accepted. rewrite Hc, Hd, Hs. cbn [JS.truthy].
  destruct (code_format_not_blank c Hf) as [Hc1 _].
  destruct (known_system_not_blank s Hk) as [Hs1 _].
  assert (Hd1 : d <> "") by (intros ->; now apply Ht).
  apply String.eqb_neq in Hc1, Hs1, Hd1. now rewrite Hc1, Hs1, Hd1.
Qed.

Lemma filter_none_length {A : Type} (f : A -> bool) (l : list A) :
  Forall (fun x => f x = false) l -> filter f l = [].
Proof.
  induction 1 as [ | x rest Hx _ IH]; simpl; [reflexivity | now rewrite Hx].
Qed.

(** X13.  A file that [validateNAMASTECSV] accepts is ingested without
    an error: every row of it is inserted or updated, and at least one
    is. *)
Theorem validated_file_ingests (csvData : list Csv.Row) (st : Fhir.State) :
  Csv.valid (Csv.validateNAMASTECSV csvData) = true ->
  let results := snd (Fhir.ingestCSV csvData st) in
  Fhir.errors results = []
  /\ Fhir.inserted results + Fhir.updated results = List.length csvData
  /\ 0 < Fhir.inserted results + Fhir.updated results.
Proof.
  intros Hvalid. cbv zeta.
  apply (proj1 (validate_valid csvData)) in Hvalid.
  destruct Hvalid as [Hne Hall].
  pose proof (ingestCSV_results csvData st) as H. cbv zeta in H.
  destruct H as (_ & P2 & P3 & _).
  rewrite filter_none_length in P3.
  - apply length_zero_iff_nil in P3. rewrite P3 in *. simpl in P2.
    split; [reflexivity | ]. split; [lia | ].
    destruct csvData; [now elim Hne | simpl in *; lia].
  - eapply Forall_impl; [ | exact Hall].
    intros row Hrow. cbv beta. now rewrite (well_formed_accepted row Hrow).
Qed.

(** The table after a turn on a row that passes the check. *)
Lemma ingest_row_rows (st : Fhir.State) (results : Fhir.Results)
  (row : Csv.Row) :
  Fhir.accepted row = true ->
  let c := text_string (Csv.code row) in
  let d := text_string (Csv.display row) in
  let s := text_string (Csv.system row) in
  let sp := text_string (JS.or (Csv.specialty row) (JS.Str "General Medicine")) in
  let de := Fhir.bound (Csv.description row) in
  let table := Fhir.namaste_codes st in
  let table' := Fhir.namaste_codes (fst (Fhir.ingest_row (st, results) row)) in
  (In c (map Fhir.code table)
   /\ table' = Fhir.update_code c d s sp de (Fhir.current_timestamp st) table)
  \/ (~ In c (map Fhir.code table)
      /\ table' = table ++ [ {| Fhir.id := Fhir.namaste_sequence st + 1;
                                Fhir.code := c;
                                Fhir.display := d;
                                Fhir.system_name := s;
                                Fhir.specialty := sp;
                                Fhir.description := de;
                                Fhir.status := Some "active";
                                Fhir.created_at := Fhir.current_timestamp st;
                                Fhir.updated_at := Fhir.current_timestamp st |} ]).
Proof.
  intros Hacc. cbv zeta. unfold Fhir.ingest_row.
  rewrite (ingest_row_condition row Hacc).
  destruct (find _ (Fhir.namaste_codes st)) as [existing | ] eqn:Hfind;
    cbn [fst Fhir.namaste_codes Fhir.insert_code].
  - left. split; [ | reflexivity].
    destruct (in_dec string_dec (text_string (Csv.code row))
                (map Fhir.code (Fhir.namaste_codes st))) as [Hin | Hout];
      [exact Hin | ].
    apply find_code_none in Hout. congruence.
  - right. split; [ | reflexivity]. now apply find_code_none.
Qed.

Lemma update_code_In c d s sp de ts (table : list Fhir.Code) (r : Fhir.Code) :
  In r (Fhir.update_code c d s sp de ts table) ->
  (Fhir.code r = c /\ Fhir.display r = d /\ Fhir.system_name r = s
   /\ Fhir.specialty r = sp /\ Fhir.description r = de
   /\ exists r0, In r0 table /\ Fhir.code r0 = c
                 /\ Fhir.status r0 = Fhir.status r /\ Fhir.id r0 = Fhir.id r)
  \/ (Fhir.code r <> c /\ In r table).
Proof.
  unfold Fhir.update_code. intros H. apply in_map_iff in H.
  destruct H as (r0 & E & Hin).
  destruct (String.eqb_spec (Fhir.code r0) c) as [Ec | Ec]; subst r.
  - left. cbn. repeat split; trivial. exists r0. auto.
  - right. auto.
Qed.

Lemma update_code_other c d s sp de ts (table : list Fhir.Code) (r : Fhir.Code) :
  In r table -> Fhir.code r <> c ->
  In r (Fhir.update_code c d s sp de ts table).
Proof.
  intros Hin Hne. unfold Fhir.update_code. apply in_map_iff.
  exists r. split; [ | exact Hin].
  apply String.eqb_neq in Hne. now rewrite Hne.
Qed.

(** After a turn on an accepted row, the rows of its code hold what the
    row says, and there is one. *)
Lemma ingest_row_holds (st : Fhir.State) (results : Fhir.Results)
  (row : Csv.Row) :
  Fhir.accepted row = true ->
  let table' := Fhir.namaste_codes (fst (Fhir.ingest_row (st, results) row)) in
  (forall r, In r table' -> Fhir.code r = text_string (Csv.code row) ->
             Fhir.holds row r)
  /\ In (text_string (Csv.code row)) (map Fhir.code table').
Proof.
  intros Hacc. cbv zeta.
  destruct (ingest_row_rows st results row Hacc) as [[Hin ->] | [Hout ->]].
  - split.
    + intros r Hr Hc. apply update_code_In in Hr.
      destruct Hr as [(E1 & E2 & E3 & E4 & E5 & _) | [Hne _]]; [ | contradiction].
      unfold Fhir.holds. auto.
    + now rewrite (proj1 (update_code_codes _ _ _ _ _ _ _)).
  - split.
    + intros r Hr Hc. apply in_app_or in Hr. destruct Hr as [Hr | [<- | []]].
      * elim Hout. rewrite <- Hc. now apply in_map.
      * unfold Fhir.holds. cbn. auto.
    + rewrite map_app. apply in_or_app. right. now left.
Qed.

(** A turn leaves the rows of every other code as they are, and the
    rows of a code active if they were. *)
Lemma ingest_row_others (st : Fhir.State) (results : Fhir.Results)
  (row : Csv.Row) (c : string) :
  let table := Fhir.namaste_codes st in
  let table' := Fhir.namaste_codes (fst (Fhir.ingest_row (st, results) row)) in
  ((Fhir.accepted row = true -> text_string (Csv.code row) <> c) ->
   forall r, Fhir.code r = c -> (In r table' <-> In r table))
  /\ ((forall r, In r table -> Fhir.code r = c -> Fhir.active r = true) ->
      forall r, In r table' -> Fhir.code r = c -> Fhir.active r = true).
Proof.
  cbv zeta. destruct (Fhir.accepted row) eqn:Hacc.
  - destruct (ingest_row_rows st results row Hacc) as [[Hin ->] | [Hout ->]].
    + split.
      * intros Hne r Hc. specialize (Hne eq_refl). split.
        -- intros Hr. apply update_code_In in Hr.
           destruct Hr as [(E & _) | [_ Hr]]; [congruence | exact Hr].
        -- intros Hr. apply update_code_other; [exact Hr | congruence].
      * intros Hact r Hr Hc. apply update_code_In in Hr.
        destruct Hr as [(E1 & _ & _ & _ & _ & r0 & Hr0 & Ec & Es & _) | [_ Hr]].
        -- unfold Fhir.active. rewrite <- Es.
           apply (Hact r0 Hr0). congruence.
        -- now apply Hact.
    + split.
      * intros Hne r Hc. specialize (Hne eq_refl). split.
        -- intros Hr. apply in_app_or in Hr.
           destruct Hr as [Hr | [<- | []]]; [exact Hr | ].
           now elim Hne.
        -- intros Hr. apply in_or_app. now left.
      * intros Hact r Hr Hc. apply in_app_or in Hr.
        destruct Hr as [Hr | [<- | []]]; [now apply Hact | reflexivity].
  - destruct (ingest_row_accepted st results row Hacc) as (-> & _).
    split; [intros _ r _; tauto | trivial].
Qed.

Lemma ingest_rows_others (csvData : list Csv.Row) (c : string) :
  forall (st : Fhir.State) (results : Fhir.Results),
    let table := Fhir.namaste_codes st in
    let table' :=
      Fhir.namaste_codes (fst (Fhir.ingest_rows csvData (st, results))) in
    ((forall row, In row csvData -> Fhir.accepted row = true ->
                  text_string (Csv.code row) <> c) ->
     forall r, Fhir.code r = c -> (In r table' <-> In r table))
    /\ ((forall r, In r table -> Fhir.code r = c -> Fhir.active r = true) ->
        forall r, In r table' -> Fhir.code r = c -> Fhir.active r = true).
Proof.
  induction csvData as [ | row rest IH]; intros st results; cbv zeta.
  - simpl. split; [intros _ r _; tauto | trivial].
  - unfold Fhir.ingest_rows. cbn [fold_left].
    destruct (ingest_row_others st results row c) as [H1 H2].
    destruct (Fhir.ingest_row (st, results) row) as [st1 results1].
    cbn [fst] in H1, H2.
    destruct (IH st1 results1) as [H3 H4]. unfold Fhir.ingest_rows in H3, H4.
    split.
    + intros Hne r Hc.
      rewrite (H3 (fun row' Hin => Hne row' (or_intror Hin)) r Hc).
      apply (H1 (Hne row (or_introl eq_refl)) r Hc).
    + intros Hact. apply H4. now apply H2.
Qed.

Lemma ingest_rows_app (before after : list Csv.Row) (acc : Fhir.State * Fhir.Results) :
  Fhir.ingest_rows (before ++ after) acc
  = Fhir.ingest_rows after (Fhir.ingest_rows before acc).
Proof.
  unfold Fhir.ingest_rows. apply fold_left_app.
Qed.

Lemma find_some_first {A : Type} (f : A -> bool) (l : list A) (x : A) :
  In x l -> f x = true -> exists y, find f l = Some y /\ In y l /\ f y = true.
Proof.
  induction l as [ | z rest IH]; intros Hin Hf; [contradiction | ].
  simpl. destruct (f z) eqn:Ez.
  - exists z. split; [reflexivity | ]. split; [now left | exact Ez].
  - destruct Hin as [-> | Hin]; [congruence | ].
    destruct (IH Hin Hf) as (y & E & Hy & Hfy).
    exists y. split; [exact E | ]. split; [now right | exact Hfy].
Qed.

(** After the rows of a file are taken in, a lookup of the code of an
    accepted row that no later accepted row repeats finds what the row
    says, when the rows that the table had for the code were active. *)
Lemma ingest_rows_lookup (before after : list Csv.Row) (row : Csv.Row)
  (st : Fhir.State) (results : Fhir.Results) :
  Fhir.accepted row = true ->
  (forall later, In later after -> Fhir.accepted later = true ->
                 text_string (Csv.code later) <> text_string (Csv.code row)) ->
  (forall r, In r (Fhir.namaste_codes st) ->
             Fhir.code r = text_string (Csv.code row) -> Fhir.active r = true) ->
  let table' :=
    Fhir.namaste_codes
      (fst (Fhir.ingest_rows (before ++ row :: after) (st, results))) in
  exists r, find (fun r => (Fhir.code r =? text_string (Csv.code row))
                           && Fhir.active r) table' = Some r
            /\ Fhir.holds row r.
Proof.
  intros Hacc Hlater Hactive. cbv zeta.
  rewrite ingest_rows_app.
  destruct (ingest_rows_others before (text_string (Csv.code row)) st results)
    as [_ Hact1]. specialize (Hact1 Hactive).
  destruct (Fhir.ingest_rows before (st, results)) as [st1 results1].
  cbn [fst] in Hact1.
  change (row :: after) with ([row] ++ after). rewrite ingest_rows_app.
  unfold Fhir.ingest_rows at 2. cbn [fold_left].
  destruct (ingest_row_holds st1 results1 row Hacc) as [Hholds Hexists].
  destruct (ingest_row_others st1 results1 row (text_string (Csv.code row)))
    as [_ Hact2]. specialize (Hact2 Hact1).
  destruct (Fhir.ingest_row (st1, results1) row) as [st2 results2].
  cbn [fst] in Hholds, Hexists, Hact2.
  destruct (ingest_rows_others after (text_string (Csv.code row)) st2 results2)
    as [Hsame Hact3]. specialize (Hsame Hlater). specialize (Hact3 Hact2).
  destruct (Fhir.ingest_rows after (st2, results2)) as [st3 results3].
  cbn [fst] in Hsame, Hact3 |- *.
  apply in_map_iff in Hexists. destruct Hexists as (r0 & Hc0 & Hr0).
  apply (Hsame r0 Hc0) in Hr0.
  destruct (find_some_first
              (fun r => (Fhir.code r =? text_string (Csv.code row)) && Fhir.active r)
              (Fhir.namaste_codes st3) r0 Hr0) as (r & Hfind & Hr & Hfr).
  { cbv beta. rewrite (Hact3 r0 Hr0 Hc0), andb_true_r. now apply String.eqb_eq. }
  exists r. split; [exact Hfind | ].
  cbv beta in Hfr. apply andb_true_iff in Hfr. destruct Hfr as [Hc _].
  apply String.eqb_eq in Hc. apply Hholds; [ | exact Hc].
  now apply (Hsame r Hc).
Qed.

(** X14.  What [ingestCSV] takes in, [lookupCode] gives back: for a row
    of the file with a code, a display and a system, whose code no
    later such row repeats, and whose code the table held only in
    active rows, a lookup of the code after the ingest resolves with
    the parameters of that row, with General Medicine for a missing
    specialty and [null] for a missing description. *)
Theorem ingestCSV_then_lookupCode (before after : list Csv.Row)
  (row : Csv.Row) (st : Fhir.State) :
  Fhir.accepted row = true ->
  (forall later, In later after -> Fhir.accepted later = true ->
                 text_string (Csv.code later) <> text_string (Csv.code row)) ->
  (forall r, In r (Fhir.namaste_codes st) ->
             Fhir.code r = text_string (Csv.code row) -> Fhir.active r = true) ->
  Fhir.lookupCode Fhir.namaste_url (text_string (Csv.code row))
                  (fst (Fhir.ingestCSV (before ++ row :: after) st))
  = inr (Some (Fhir.parameters
                 (text_string (Csv.code row))
                 (text_string (Csv.display row))
                 (text_string (Csv.system row))
                 (text_string (JS.or (Csv.specialty row)
                                     (JS.Str "General Medicine")))
                 (Fhir.bound (Csv.description row)))).
Proof.
  intros Hacc Hlater Hactive.
  unfold Fhir.lookupCode. rewrite String.eqb_refl. cbn [negb].
  rewrite (proj2 (ingestCSV_parts (before ++ row :: after) st)).
  destruct (ingest_rows_lookup
              before after row st
              {| Fhir.processed := 0; Fhir.inserted := 0;
                 Fhir.updated := 0; Fhir.errors := [] |}
              Hacc Hlater Hactive) as (r & -> & E1 & E2 & E3 & E4 & E5).
  now rewrite E1, E2, E3, E4, E5.
Qed.

Lemma find_none_all {A : Type} (f : A -> bool) (l : list A) :
  find f l = None <-> forall x, In x l -> f x = false.
Proof.
  split.
  - intros H x Hx. now apply (find_none f l H).
  - induction l as [ | z rest IH]; intros H; [reflexivity | ].
    simpl. rewrite (H z (or_introl eq_refl)).
    apply IH. intros x Hx. apply H. now right.
Qed.

(** X15.  [lookupCode] rejects with the message Unsupported code system
    exactly for a system that is not the NAMASTE one; for the NAMASTE
    system it resolves with [null] exactly when no active row has the
    code, and otherwise with the parameters of an active row of that
    code. *)
Theorem lookupCode_answers (system code0 : string) (st : Fhir.State) :
  (Fhir.lookupCode system code0 st = inl "Unsupported code system"
   <-> system <> Fhir.namaste_url)
  /\ (Fhir.lookupCode system code0 st = inr None
      <-> system = Fhir.namaste_url
          /\ forall r, In r (Fhir.namaste_codes st) ->
                       Fhir.code r = code0 -> Fhir.active r = false)
  /\ (forall answer,
        Fhir.lookupCode system code0 st = inr (Some answer) <->
        system = Fhir.namaste_url
        /\ exists r,
            find (fun r => (Fhir.code r =? code0) && Fhir.active r)
                 (Fhir.namaste_codes st) = Some r
            /\ In r (Fhir.namaste_codes st)
            /\ Fhir.code r = code0 /\ Fhir.active r = true
            /\ answer = Fhir.parameters code0 (Fhir.display r)
                          (Fhir.system_name r) (Fhir.specialty r)
                          (Fhir.description r)).
Proof.
  unfold Fhir.lookupCode.
  destruct (String.eqb_spec system Fhir.namaste_url) as [E | E]; cbn [negb].
  - destruct (find _ (Fhir.namaste_codes st)) as [r | ] eqn:Hfind.
    + pose proof (find_some _ _ Hfind) as [Hin Hr]. cbv beta in Hr.
      apply andb_true_iff in Hr. destruct Hr as [Hc Ha].
      apply String.eqb_eq in Hc.
      split; [split; [discriminate | congruence] | ].
      split.
      * split; [discriminate | ]. intros [_ H].
        rewrite (H r Hin Hc) in Ha. discriminate.
      * intros answer. split.
        -- intros H. injection H as <-. split; [exact E | ].
           exists r. rewrite Hc. auto.
        -- intros (_ & r' & E' & _ & _ & _ & ->). injection E' as <-.
           now rewrite Hc.
    + split; [split; [discriminate | congruence] | ].
      split.
      * split; [ | reflexivity]. intros _. split; [exact E | ].
        intros r Hin Hc. apply (proj1 (find_none_all _ _) Hfind) in Hin.
        cbv beta in Hin. apply String.eqb_eq in Hc. now rewrite Hc in Hin.
      * intros answer. split; [discriminate | ].
        intros (_ & r' & E' & _). discriminate.
  - split; [split; [trivial | reflexivity] | ].
    split.
    + split; [discriminate | ]. intros [H _]. contradiction.
    + intros answer. split; [discriminate | ]. intros [H _]. contradiction.
Qed.

Lemma before_eq_total (a b : Fhir.Code) :
  Fhir.before_eq a b = false -> Fhir.before_eq b a = true.
Proof.
  unfold Fhir.before_eq, String.leb.
  rewrite (String.compare_antisym (Fhir.system_name b) (Fhir.system_name a)).
  rewrite (String.compare_antisym (Fhir.code b) (Fhir.code a)).
  destruct (String.compare (Fhir.system_name a) (Fhir.system_name b));
    destruct (String.compare (Fhir.code a) (Fhir.code b));
    simpl; congruence.
Qed.

Lemma order_insert_permutation (row : Fhir.Code) (sorted : list Fhir.Code) :
  Permutation (row :: sorted) (Fhir.order_insert row sorted).
Proof.
  induction sorted as [ | x rest IH]; simpl.
  - apply Permutation_refl.
  - destruct (Fhir.before_eq row x).
    + apply Permutation_refl.
    + eapply perm_trans; [apply perm_swap | ]. now apply perm_skip.
Qed.

Lemma order_by_permutation (rows : list Fhir.Code) :
  Permutation rows (Fhir.order_by_system_code rows).
Proof.
  induction rows as [ | row rest IH]; simpl.
  - apply perm_nil.
  - eapply perm_trans; [apply perm_skip, IH | apply order_insert_permutation].
Qed.

Lemma order_insert_sorted (row : Fhir.Code) (sorted : list Fhir.Code) :
  Sorted (fun a b => Fhir.before_eq a b = true) sorted ->
  Sorted (fun a b => Fhir.before_eq a b = true) (Fhir.order_insert row sorted).
Proof.
  induction 1 as [ | x rest Hsorted IH Hhd]; simpl.
  - repeat constructor.
  - destruct (Fhir.before_eq row x) eqn:E.
    + constructor; [now constructor | now constructor].
    + constructor; [exact IH | ].
      destruct rest as [ | y rest']; simpl.
      * constructor. now apply before_eq_total.
      * destruct (Fhir.before_eq row y).
        -- constructor. now apply before_eq_total.
        -- constructor. now inversion Hhd.
Qed.

Lemma order_by_sorted (rows : list Fhir.Code) :
  Sorted (fun a b => Fhir.before_eq a b = true) (Fhir.order_by_system_code rows).
Proof.
  induction rows as [ | row rest IH]; simpl;
    [constructor | now apply order_insert_sorted].
Qed.

Lemma find_replace_resource (resource : Fhir.Resource)
  (table : list Fhir.Resource) (type : string) :
  Fhir.resource_type resource = type ->
  find (fun r => (Fhir.resource_id r =? Fhir.resource_id resource)
                 && (Fhir.resource_type r =? type))
       (Fhir.replace_resource resource table)
  = Some resource.
Proof.
  intros Htype. unfold Fhir.replace_resource.
  induction table as [ | x rest IH]; simpl.
  - now rewrite String.eqb_refl, Htype, String.eqb_refl.
  - destruct (Fhir.resource_id x =? Fhir.resource_id resource) eqn:E; simpl.
    + exact IH.
    + rewrite E. simpl. exact IH.
Qed.

Lemma replace_resource_once (resource : Fhir.Resource)
  (table : list Fhir.Resource) :
  filter (fun r => Fhir.resource_id r =? Fhir.resource_id resource)
         (Fhir.replace_resource resource table)
  = [resource].
Proof.
  unfold Fhir.replace_resource. rewrite filter_app.
  cbn [filter]. rewrite String.eqb_refl.
  replace (filter _ (filter _ table)) with (@nil Fhir.Resource); [reflexivity | ].
  symmetry. apply filter_none_length.
  apply Forall_forall. intros x Hx. apply filter_In in Hx.
  destruct Hx as [_ Hx]. now apply negb_true_iff in Hx.
Qed.

Lemma createNAMASTECodeSystem_cache (st : Fhir.State) :
  Fhir.getCodeSystem "namaste-ayush-codes" (fst (Fhir.createNAMASTECodeSystem st))
  = (fst (Fhir.createNAMASTECodeSystem st),
     Some (Fhir.CodeSystemContent (snd (Fhir.createNAMASTECodeSystem st)))).
Proof.
  unfold Fhir.createNAMASTECodeSystem. cbn [fst snd].
  unfold Fhir.getCodeSystem. cbn [Fhir.fhir_resources].
  rewrite (find_replace_resource
             {| Fhir.resource_id := "namaste-ayush-codes";
                Fhir.resource_type := "CodeSystem";
                Fhir.content := _;
                Fhir.resource_updated_at := _ |}
             (Fhir.fhir_resources st) "CodeSystem" eq_refl).
  reflexivity.
Qed.

(** X16.  [createNAMASTECodeSystem] lists the active rows of
    [namaste_codes] and nothing else: its concepts are those of the
    active rows in the order of system and code, the count is their
    number, the table of codes is left as it is, and the code system is
    the one row of [fhir_resources] under its id, which
    [getCodeSystem] then gives back without a further change. *)
Theorem createNAMASTECodeSystem_lists_active (st : Fhir.State) :
  let st' := fst (Fhir.createNAMASTECodeSystem st) in
  let codeSystem := snd (Fhir.createNAMASTECodeSystem st) in
  (exists rows,
      Fhir.concept codeSystem = map Fhir.concept_of rows
      /\ Permutation (filter Fhir.active (Fhir.namaste_codes st)) rows
      /\ Sorted (fun a b => Fhir.before_eq a b = true) rows)
  /\ Fhir.count codeSystem = List.length (Fhir.concept codeSystem)
  /\ Fhir.count codeSystem
     = List.length (filter Fhir.active (Fhir.namaste_codes st))
  /\ Fhir.namaste_codes st' = Fhir.namaste_codes st
  /\ filter (fun r => Fhir.resource_id r =? "namaste-ayush-codes")
            (Fhir.fhir_resources st')
     = [ {| Fhir.resource_id := "namaste-ayush-codes";
            Fhir.resource_type := "CodeSystem";
            Fhir.content := Fhir.CodeSystemContent codeSystem;
            Fhir.resource_updated_at := Fhir.current_timestamp st |} ]
  /\ Fhir.getCodeSystem "namaste-ayush-codes" st'
     = (st', Some (Fhir.CodeSystemContent codeSystem)).
Proof.
  cbv zeta. unfold Fhir.createNAMASTECodeSystem.
  cbn [fst snd Fhir.concept Fhir.count Fhir.namaste_codes Fhir.fhir_resources].
  split; [ | split; [reflexivity | ]]; [ | split; [ | split; [reflexivity | split]]].
  - exists (Fhir.order_by_system_code (filter Fhir.active (Fhir.namaste_codes st))).
    split; [reflexivity | ].
    split; [apply order_by_permutation | apply order_by_sorted].
  - rewrite length_map.
    symmetry. apply Permutation_length, order_by_permutation.
  - apply (replace_resource_once
             {| Fhir.resource_id := "namaste-ayush-codes";
                Fhir.resource_type := "CodeSystem";
                Fhir.content := _;
                Fhir.resource_updated_at := _ |}).
  - exact (createNAMASTECodeSystem_cache st).
Qed.

(** X17.  [getCodeSystem] resolves with [null] exactly for an id other
    than namaste-ayush-codes under which [fhir_resources] has no code
    system; it never touches [namaste_codes]; and asking again gives
    the same answer and changes nothing more. *)
Theorem getCodeSystem_settles (id0 : string) (st : Fhir.State) :
  let st' := fst (Fhir.getCodeSystem id0 st) in
  let answer := snd (Fhir.getCodeSystem id0 st) in
  (answer = None
   <-> id0 <> "namaste-ayush-codes"
       /\ forall r, In r (Fhir.fhir_resources st) ->
                    Fhir.resource_id r = id0 ->
                    Fhir.resource_type r <> "CodeSystem")
  /\ Fhir.namaste_codes st' = Fhir.namaste_codes st
  /\ Fhir.getCodeSystem id0 st' = (st', answer).
Proof.
  cbv zeta.
  destruct (find (fun r => (Fhir.resource_id r =? id0)
                           && (Fhir.resource_type r =? "CodeSystem"))
                 (Fhir.fhir_resources st)) as [result | ] eqn:Hfind.
  - assert (Eg : Fhir.getCodeSystem id0 st = (st, Some (Fhir.content result)))
      by (unfold Fhir.getCodeSystem; now rewrite Hfind).
    rewrite Eg. cbn [fst snd]. split; [ | split; [reflexivity | exact Eg]].
    split; [discriminate | ]. intros [_ H].
    pose proof (find_some _ _ Hfind) as [Hin Hr]. cbv beta in Hr.
    apply andb_true_iff in Hr. destruct Hr as [Hi Ht].
    apply String.eqb_eq in Hi, Ht. elim (H result Hin Hi Ht).
  - assert (Hnone : forall r, In r (Fhir.fhir_resources st) ->
                              Fhir.resource_id r = id0 ->
                              Fhir.resource_type r <> "CodeSystem").
    { intros r Hin Hi Ht. apply (proj1 (find_none_all _ _) Hfind) in Hin.
      cbv beta in Hin. rewrite Hi, Ht, !String.eqb_refl in Hin. discriminate. }
    destruct (String.eqb_spec id0 "namaste-ayush-codes") as [E | E].
    + subst id0.
      assert (Eg : Fhir.getCodeSystem "namaste-ayush-codes" st
                   = (fst (Fhir.createNAMASTECodeSystem st),
                      Some (Fhir.CodeSystemContent
                              (snd (Fhir.createNAMASTECodeSystem st)))))
        by (unfold Fhir.getCodeSystem; rewrite Hfind; reflexivity).
      rewrite Eg. cbn [fst snd].
      split; [ | split].
      * split; [discriminate | ]. intros [H _]. now elim H.
      * reflexivity.
      * exact (createNAMASTECodeSystem_cache st).
    + assert (Eg : Fhir.getCodeSystem id0 st = (st, None)).
      { unfold Fhir.getCodeSystem. rewrite Hfind.
        apply String.eqb_neq in E. now rewrite E. }
      rewrite Eg. cbn [fst snd]. split; [ | split; [reflexivity | exact Eg]].
      split; [intros _; split; [exact E | exact Hnone] | reflexivity].
Qed.











(** The second time is no no-op on the table: it moves [updated_at]. *)
Example ingestCSV_twice_sample :
  map Fhir.updated_at
      (Fhir.namaste_codes (fst (Fhir.ingestCSV [Fixture.vata] Fixture.empty)))
  = ["2025-01-01 00:00:00"]
  /\ map Fhir.updated_at
         (Fhir.namaste_codes
            (fst (Fhir.ingestCSV
                    [Fixture.vata]
                    (Fhir.at_clock "2025-01-02T00:00:00.000Z" "2025-01-02 00:00:00"
                       (fst (Fhir.ingestCSV [Fixture.vata] Fixture.empty))))))
     = ["2025-01-02 00:00:00"]
  /\ map Fhir.created_at
         (Fhir.namaste_codes
            (fst (Fhir.ingestCSV
                    [Fixture.vata]
                    (Fhir.at_clock "2025-01-02T00:00:00.000Z" "2025-01-02 00:00:00"
                       (fst (Fhir.ingestCSV [Fixture.vata] Fixture.empty))))))
     = ["2025-01-01 00:00:00"].
Proof. repeat split. Qed.

(** ** The parser of the Ayurveda workbook *)

Lemma trimStart_fixed (s : string) :
  starts_with_space s = false -> JS.trimStart s = s.
Proof.
  destruct s as [ | c s]; [reflexivity | ]. simpl. now intros ->.
Qed.

Lemma trimEnd_fixed (s : string) :
  ends_with_space s = false -> JS.trimEnd s = s.
Proof.
  induction s as [ | c s IH]; [reflexivity | ].
  destruct s as [ | d s'].
  - simpl. now intros ->.
  - intros H. change (ends_with_space (String d s') = false) in H.
    cbn [JS.trimEnd]. cbn [JS.trimEnd] in IH. rewrite (IH H). reflexivity.
Qed.

Lemma trim_trim (s : string) : JS.trim (JS.trim s) = JS.trim s.
Proof.
  unfold JS.trim at 1.
  rewrite (trimStart_fixed (JS.trim s)).
  - apply trimEnd_fixed. unfold JS.trim. apply trimEnd_ends.
  - unfold JS.trim. apply trimEnd_starts, trimStart_starts.
Qed.

Lemma cleanValue_trimmed (String_of_number : float -> string)
  (value : Parser.Cell) (s : string) :
  Parser.cleanValue String_of_number value = JS.Str s -> JS.trim s = s.
Proof.
  destruct value; simpl; try discriminate;
    intros H; injection H as <-; apply trim_trim.
Qed.

Lemma truthy_or_right (a b : JS.text) :
  JS.truthy b = true -> JS.truthy (JS.or a b) = true.
Proof.
  unfold JS.or. intros Hb. destruct (JS.truthy a) eqn:Ha; [exact Ha | exact Hb].
Qed.

Lemma process_row_In (String_of_number : float -> string)
  (rawRow : option (list Parser.Cell)) (c : Parser.Code) :
  In c (Parser.process_row String_of_number rawRow) ->
  exists row,
    rawRow = Some row
    /\ Parser.truthy (Parser.at_ row 1) = true
    /\ Parser.code c = Parser.cleanValue String_of_number (Parser.at_ row 2)
    /\ Parser.namc_id c = Parser.cleanValue String_of_number (Parser.at_ row 1)
    /\ Parser.display c
       = JS.or (JS.or (Parser.cleanValue String_of_number (Parser.at_ row 9))
                      (Parser.cleanValue String_of_number (Parser.at_ row 3)))
               (Parser.code c)
    /\ Parser.specialty c = "Ayurveda"
    /\ Parser.system_name c = "AYUSH"
    /\ JS.truthy (Parser.code c) = true
    /\ text_string (Parser.code c) <> "-".
Proof.
  destruct rawRow as [row | ]; [ | contradiction].
  unfold Parser.process_row.
  destruct ((List.length row =? 0)%nat || negb (Parser.truthy (Parser.at_ row 1)))
    eqn:Hskip; [contradiction | ].
  apply orb_false_iff in Hskip. destruct Hskip as [_ Hid].
  apply negb_false_iff in Hid.
  cbn [Parser.code].
  destruct (JS.truthy (Parser.cleanValue String_of_number (Parser.at_ row 2))
            && negb (JS.trim (text_string
                                (Parser.cleanValue String_of_number
                                                   (Parser.at_ row 2))) =? "")
            && negb (text_string
                       (Parser.cleanValue String_of_number (Parser.at_ row 2))
                     =? "-")) eqn:Hvalid; [ | contradiction].
  intros [<- | []]. exists row. cbn.
  apply andb_true_iff in Hvalid. destruct Hvalid as [Hvalid Hdash].
  apply andb_true_iff in Hvalid. destruct Hvalid as [Htruthy _].
  apply negb_true_iff, String.eqb_neq in Hdash.
  repeat split; trivial.
Qed.

Lemma processRawData_parsed (String_of_number : float -> string)
  (rawData : list (option (list Parser.Cell))) (c : Parser.Code) :
  In c (Parser.processRawData String_of_number rawData) ->
  exists s, Parser.code c = JS.Str s.
Proof.
  unfold Parser.processRawData. intros H. apply in_flat_map in H.
  destruct H as (rawRow & _ & Hc). apply process_row_In in Hc.
  destruct Hc as (row & _ & _ & _ & _ & _ & _ & _ & Htruthy & _).
  destruct (Parser.code c) as [ | | s]; try discriminate. now exists s.
Qed.

(** X19.  Every code that [processRawData] returns has a NAMC_CODE
    that is a string without white space around it, not empty and not
    a dash; it has a NAMC_ID from a cell that is not empty, a display
    that is not empty, the specialty Ayurveda and the system AYUSH. *)
Theorem processRawData_codes (String_of_number : float -> string)
  (rawData : list (option (list Parser.Cell))) (c : Parser.Code) :
  In c (Parser.processRawData String_of_number rawData) ->
  (exists s, Parser.code c = JS.Str s
             /\ s <> "" /\ s <> "-" /\ JS.trim s = s)
  /\ (exists n, Parser.namc_id c = JS.Str n)
  /\ JS.truthy (Parser.display c) = true
  /\ Parser.specialty c = "Ayurveda"
  /\ Parser.system_name c = "AYUSH".
Proof.
  unfold Parser.processRawData. intros H. apply in_flat_map in H.
  destruct H as (rawRow & _ & Hc).
  apply process_row_In in Hc.
  destruct Hc as (row & _ & Hid & Ecode & Eid & Edisplay & Esp & Esys & Htruthy & Hdash).
  split; [ | split; [ | split; [ | split; assumption]]].
  - destruct (Parser.code c) as [ | | s] eqn:E; try discriminate.
    exists s. split; [reflexivity | ].
    simpl in Htruthy, Hdash. apply negb_true_iff, String.eqb_neq in Htruthy.
    repeat split; trivial.
    symmetry in Ecode. now apply cleanValue_trimmed in Ecode.
  - rewrite Eid. destruct (Parser.at_ row 1); try discriminate; simpl; eauto.
  - rewrite Edisplay. now apply truthy_or_right.
Qed.

(** X20.  [processRawData] never reads the first row, takes the rows
    after it one by one in their order, and returns at most one code
    per row after the first. *)
Theorem processRawData_rows (String_of_number : float -> string)
  (header header' : option (list Parser.Cell))
  (rows rows' : list (option (list Parser.Cell))) :
  Parser.processRawData String_of_number (header :: rows ++ rows')
  = Parser.processRawData String_of_number (header' :: rows)
    ++ Parser.processRawData String_of_number (header' :: rows')
  /\ List.length (Parser.processRawData String_of_number (header :: rows))
     <= List.length rows
  /\ Parser.processRawData String_of_number [header] = [].
Proof.
  unfold Parser.processRawData. cbn [skipn].
  split; [apply flat_map_app | split; [ | reflexivity]].
  induction rows as [ | rawRow rest IH]; simpl; [lia | ].
  rewrite length_app.
  assert (H : List.length (Parser.process_row String_of_number rawRow) <= 1).
  { destruct rawRow as [row | ]; simpl; [ | lia].
    destruct (_ || _); simpl; [lia | ].
    destruct (_ && _); simpl; lia. }
  lia.
Qed.

(** ** When a run rejects *)

Lemma match_for_origin (fuzz : Fuzzball) (ayurvedaCode : Code.t)
  (ayurvedaSearchText : string) (icd11Code : Code.t) (m : Mapping) :
  In m (match_for fuzz ayurvedaCode ayurvedaSearchText icd11Code) ->
  ayurveda_code m = Code.code ayurvedaCode
  /\ icd11_code m = JS.or (Code.code icd11Code) (Code.id icd11Code)
  /\ icd11_display m = JS.or (Code.display icd11Code) (Code.title icd11Code)
  /\ ayurveda_text m = ayurvedaSearchText
  /\ icd11_text m = createSearchableText icd11Code.
Proof.
  unfold match_for.
  destruct (similarityThreshold <=? _)%float; [ | contradiction].
  intros [<- | []]. repeat split.
Qed.

Lemma planned_origin (fuzz : Fuzzball) (ayurvedaCodes icd11Codes : list Code.t)
  (maxMatchesPerCode : Z) (m : Mapping) :
  In m (planned fuzz ayurvedaCodes icd11Codes maxMatchesPerCode) ->
  exists ayurvedaCode icd11Code,
    In ayurvedaCode ayurvedaCodes /\ In icd11Code icd11Codes
    /\ ayurveda_code m = Code.code ayurvedaCode
    /\ icd11_code m = JS.or (Code.code icd11Code) (Code.id icd11Code)
    /\ icd11_display m = JS.or (Code.display icd11Code) (Code.title icd11Code)
    /\ ayurveda_text m = createSearchableText ayurvedaCode
    /\ icd11_text m = createSearchableText icd11Code.
Proof.
  unfold planned. intros H. apply in_flat_map in H.
  destruct H as (ayurvedaCode & Ha & Hm).
  apply findBestMatches_In in Hm. unfold candidates in Hm.
  apply in_flat_map in Hm. destruct Hm as (icd11Code & Hi & Hm).
  exists ayurvedaCode, icd11Code.
  split; [exact Ha | split; [exact Hi | ]].
  exact (match_for_origin _ _ _ _ _ Hm).
Qed.

Lemma run_error (overwriteExisting : bool) (m : Mapping) (st : Db.Store) :
  (forall e,
      Db.run (fst (statement overwriteExisting m))
             (snd (statement overwriteExisting m)) st = inl e ->
      overwriteExisting = true /\ storable m = false
      /\ (e = Db.not_null "namaste_code" \/ e = Db.not_null "icd11_code"))
  /\ (overwriteExisting = true -> storable m = false ->
      exists e, Db.run (fst (statement overwriteExisting m))
                       (snd (statement overwriteExisting m)) st = inl e).
Proof.
  unfold statement, Db.run, storable. cbn [fst snd].
  change (Db.p_namaste_code (mapping_params m)) with (ayurveda_code m).
  change (Db.p_icd11_code (mapping_params m)) with (icd11_code m).
  destruct overwriteExisting;
    destruct (ayurveda_code m) as [ | | a];
    destruct (icd11_code m) as [ | | b];
    try destruct (existsb (Db.has_key a b) (Db.rows st));
    (split;
     [ intros e H; try discriminate; injection H as <-; auto
     | intros H1 H2; try discriminate; eauto ]).
Qed.

Lemma save_all_error (overwriteExisting : bool) (ms : list Mapping) :
  forall st,
    (forall e, snd (save_all overwriteExisting ms st) = Some e ->
               overwriteExisting = true
               /\ existsb (fun m => negb (storable m)) ms = true
               /\ (e = Db.not_null "namaste_code"
                   \/ e = Db.not_null "icd11_code"))
    /\ (overwriteExisting = true ->
        existsb (fun m => negb (storable m)) ms = true ->
        exists e, snd (save_all overwriteExisting ms st) = Some e).
Proof.
  induction ms as [ | m rest IH]; intros st; cbn [save_all existsb].
  - split; [discriminate | discriminate].
  - destruct (run_error overwriteExisting m st) as [Hfail Hfails].
    destruct (Db.run _ _ st) as [e' | [st1 lastID]] eqn:Hrun.
    + cbn [snd]. split.
      * intros e H. injection H as <-.
        destruct (Hfail e' eq_refl) as (H1 & H2 & H3).
        rewrite H2. auto.
      * intros _ _. eauto.
    + destruct (IH st1) as [IH1 IH2].
      destruct (save_all overwriteExisting rest st1) as [[st2 tried] err].
      cbn [snd] in IH1, IH2 |- *. split.
      * intros e H. destruct (IH1 e H) as (H1 & H2 & H3).
        rewrite H2, orb_true_r. auto.
      * intros How Hex. apply orb_true_iff in Hex. destruct Hex as [Hm | Hex].
        -- apply negb_true_iff in Hm.
           destruct (Hfails How Hm) as (e & He). discriminate.
        -- now apply IH2.
Qed.

Lemma generateMappings_error (fuzz : Fuzzball)
  (ayurvedaCodes icd11Codes : list Code.t) (options : Options) (w : World) :
  snd (generateMappings fuzz ayurvedaCodes icd11Codes options w)
  = match snd (persist (default (saveToDatabase options) true)
                       (default (overwriteExisting options) false)
                       (planned fuzz ayurvedaCodes icd11Codes
                                (default (maxMatchesPerCode options) 3%Z))
                       (db w)) with
    | Some e => inl e
    | None =>
        inr (aggregate (planned fuzz ayurvedaCodes icd11Codes
                                (default (maxMatchesPerCode options) 3%Z)))
    end.
Proof.
  destruct (persist _ _ _ (db w)) as [[st tried] err] eqn:Hp.
  destruct (generateMappings_outcome fuzz ayurvedaCodes icd11Codes options w
              st tried err Hp) as (lines & _ & ->).
  reflexivity.
Qed.

(** X21.  [generateMappings] rejects exactly when it saves with
    [overwriteExisting] and one of its mappings lacks the code of its
    source or of its target; the error is then the NOT NULL failure of
    one of the two columns, and every mapping takes the code of a
    source and, for its target, the code or else the id of a target. *)
Theorem generateMappings_rejects_iff (fuzz : Fuzzball)
  (ayurvedaCodes icd11Codes : list Code.t) (options : Options) (w : World) :
  let ms := planned fuzz ayurvedaCodes icd11Codes
                    (default (maxMatchesPerCode options) 3%Z) in
  let run := generateMappings fuzz ayurvedaCodes icd11Codes options w in
  ((exists e, snd run = inl e)
   <-> default (saveToDatabase options) true = true
       /\ default (overwriteExisting options) false = true
       /\ existsb (fun m => negb (storable m)) ms = true)
  /\ (forall e, snd run = inl e ->
                e = Db.not_null "namaste_code" \/ e = Db.not_null "icd11_code")
  /\ (forall m, In m ms ->
                exists ayurvedaCode icd11Code,
                  In ayurvedaCode ayurvedaCodes /\ In icd11Code icd11Codes
                  /\ ayurveda_code m = Code.code ayurvedaCode
                  /\ icd11_code m
                     = JS.or (Code.code icd11Code) (Code.id icd11Code)).
Proof.
  cbv zeta. rewrite generateMappings_error.
  set (ms := planned fuzz ayurvedaCodes icd11Codes
                     (default (maxMatchesPerCode options) 3%Z)).
  unfold persist.
  destruct (default (saveToDatabase options) true).
  - destruct (save_all_error (default (overwriteExisting options) false) ms (db w))
      as [H1 H2].
    destruct (snd (save_all _ ms (db w))) as [e | ].
    + destruct (H1 e eq_refl) as (P1 & P2 & P3).
      split; [ | split].
      * split; [auto | eauto].
      * intros e' H. injection H as <-. exact P3.
      * intros m Hm.
        destruct (planned_origin _ _ _ _ m Hm)
          as (a & t & Ha & Ht & E1 & E2 & _). eauto 6.
    + split; [ | split].
      * split; [intros [e H]; discriminate | ].
        intros (_ & How & Hex). destruct (H2 How Hex) as [e He]. discriminate.
      * discriminate.
      * intros m Hm.
        destruct (planned_origin _ _ _ _ m Hm)
          as (a & t & Ha & Ht & E1 & E2 & _). eauto 6.
  - cbn [snd]. split; [ | split].
    + split; [intros [e H]; discriminate | intros (H & _); discriminate].
    + discriminate.
    + intros m Hm.
      destruct (planned_origin _ _ _ _ m Hm)
        as (a & t & Ha & Ht & E1 & E2 & _). eauto 6.
Qed.

(** X22.  The codes that [processRawData] returns never make
    [generateMappings] reject: with them as sources and targets that
    have a code or an id, the run resolves whatever the options are. *)
Theorem parsed_codes_generate (fuzz : Fuzzball)
  (String_of_number : float -> string)
  (rawData : list (option (list Parser.Cell)))
  (icd11Codes : list Code.t) (options : Options) (w : World) :
  Forall (fun icd11Code =>
            exists s, JS.or (Code.code icd11Code) (Code.id icd11Code) = JS.Str s)
         icd11Codes ->
  let ayurvedaCodes :=
    map Parser.as_code (Parser.processRawData String_of_number rawData) in
  snd (generateMappings fuzz ayurvedaCodes icd11Codes options w)
  = inr (aggregate (planned fuzz ayurvedaCodes icd11Codes
                            (default (maxMatchesPerCode options) 3%Z))).
Proof.
  intros Htargets. cbv zeta. rewrite generateMappings_error.
  set (ayurvedaCodes := map Parser.as_code _).
  set (ms := planned fuzz ayurvedaCodes icd11Codes
                     (default (maxMatchesPerCode options) 3%Z)).
  destruct (snd (persist _ _ ms (db w))) as [e | ] eqn:Herr; [ | reflexivity].
  exfalso. unfold persist in Herr.
  destruct (default (saveToDatabase options) true); [ | discriminate].
  destruct (save_all_error (default (overwriteExisting options) false) ms (db w))
    as [H1 _].
  destruct (H1 e Herr) as (_ & Hex & _).
  apply existsb_exists in Hex. destruct Hex as (m & Hm & Hbad).
  apply negb_true_iff in Hbad.
  destruct (planned_origin _ _ _ _ m Hm) as (a & t & Ha & Ht & E1 & E2 & _).
  unfold ayurvedaCodes in Ha. apply in_map_iff in Ha.
  destruct Ha as (c & <- & Hc).
  apply processRawData_parsed in Hc. destruct Hc as (s & Es).
  destruct (proj1 (Forall_forall _ _) Htargets t Ht) as (s' & Es').
  unfold storable in Hbad. rewrite E1, E2, Es' in Hbad.
  cbn [Parser.as_code Code.code] in Hbad. rewrite Es in Hbad. discriminate.
Qed.

(** ** The value set of the NAMASTE codes *)

Lemma valueSet_add_if (cond : bool) (clause : string) (values : list string)
    (built : string * list string) :
  Stored.placeholders clause = List.length values ->
  Stored.placeholders (fst built) = List.length (snd built) ->
  Stored.placeholders (fst (ValueSet.add_if cond clause values built))
  = List.length (snd (ValueSet.add_if cond clause values built)).
Proof.
  intros Hclause Hbuilt. unfold ValueSet.add_if. destruct cond; [ | exact Hbuilt].
  simpl. rewrite placeholders_app, length_app, Hclause, Hbuilt. reflexivity.
Qed.

(** X23.  Whatever the filter, the query that [createNAMASTEValueSet]
    hands to the store has exactly as many placeholders as bound
    parameters; it binds at most four, and a text filter is bound
    twice, between two percent signs, after the other filters. *)
Theorem createNAMASTEValueSet_query_arity (filter : ValueSet.Filter) :
  Stored.placeholders (fst (ValueSet.createNAMASTEValueSet_query filter))
  = List.length (snd (ValueSet.createNAMASTEValueSet_query filter))
  /\ List.length (snd (ValueSet.createNAMASTEValueSet_query filter)) <= 4
  /\ exists others,
      snd (ValueSet.createNAMASTEValueSet_query filter)
      = others
        ++ (if JS.truthy (ValueSet.text filter)
            then [("%" ++ text_string (ValueSet.text filter) ++ "%")%string;
                  ("%" ++ text_string (ValueSet.text filter) ++ "%")%string]
            else [])
      /\ List.length others
         = (if JS.truthy (ValueSet.system filter) then 1 else 0)
           + (if JS.truthy (ValueSet.specialty filter) then 1 else 0).
Proof.
  split; [ | split].
  - unfold ValueSet.createNAMASTEValueSet_query.
    cbn [fst snd]. rewrite placeholders_app.
    change (Stored.placeholders " ORDER BY system_name, code") with 0.
    rewrite Nat.add_0_r.
    repeat (apply valueSet_add_if; [reflexivity | ]).
    reflexivity.
  - unfold ValueSet.createNAMASTEValueSet_query, ValueSet.add_if.
    destruct (JS.truthy (ValueSet.system filter));
      destruct (JS.truthy (ValueSet.specialty filter));
      destruct (JS.truthy (ValueSet.text filter)); simpl; lia.
  - exists ((if JS.truthy (ValueSet.system filter)
             then [text_string (ValueSet.system filter)] else [])
            ++ (if JS.truthy (ValueSet.specialty filter)
                then [text_string (ValueSet.specialty filter)] else [])).
    unfold ValueSet.createNAMASTEValueSet_query, ValueSet.add_if.
    destruct (JS.truthy (ValueSet.system filter));
      destruct (JS.truthy (ValueSet.specialty filter));
      destruct (JS.truthy (ValueSet.text filter)); split; reflexivity.
Qed.

(** ** The properties on sample inputs *)

Lemma no_text_no_match_witness :
  findBestMatches Sample.fuzz Fixture.punctuated Sample.targets None = []
  /\ findBestMatches Sample.fuzz Sample.gastro
                     ([Sample.SM10] ++ Fixture.punctuated :: [Sample.SM12]) None
     = findBestMatches Sample.fuzz Sample.gastro
                       ([Sample.SM10] ++ [Sample.SM12]) None.
Proof.
  destruct (no_text_no_match Sample.fuzz Fixture.punctuated eq_refl) as [H1 H2].
  split; [apply H1 | apply H2].
Defined.

Lemma getConfidenceLevel_monotone_witness :
  tier_rank (getConfidenceLevel 0.65) <= tier_rank (getConfidenceLevel 0.9).
Proof.
  apply (getConfidenceLevel_monotone 0.65 0.9). reflexivity.
Defined.

Lemma generateMappings_total_bound_witness :
  let run := generateMappings Sample.fuzz [Sample.gastro] Sample.targets
               (Sample.options None (Some false) None) Sample.fresh in
  match snd run with
  | inr result =>
      total (stats result) = List.length (all result)
      /\ (Z.of_nat (total (stats result)) <= 3 * 1)%Z
  | inl _ => False
  end.
Proof.
  intros run.
  destruct (snd run) as [e | result] eqn:Hresult.
  - vm_compute in Hresult. discriminate.
  - apply (generateMappings_total_bound Sample.fuzz [Sample.gastro] Sample.targets
             (Sample.options None (Some false) None) Sample.fresh (fst run) result).
    + discriminate.
    + rewrite <- Hresult. apply surjective_pairing.
Defined.

Lemma generateMappings_stores_all_witness :
  let run := generateMappings Sample.fuzz [Sample.gastro] Sample.targets
               (Sample.options None (Some true) (Some true)) Sample.fresh in
  exists row,
    In row (Db.rows (db (fst run)))
    /\ Db.namaste_code row = "A" /\ Db.icd11_code row = "SM12".
Proof.
  intros run.
  destruct (snd run) as [e | result] eqn:Hresult.
  - vm_compute in Hresult. discriminate.
  - assert (Hin : In Sample.top (all result)).
    { vm_compute in Hresult. injection Hresult as <-. left. reflexivity. }
    destruct (generateMappings_stores_all Sample.fuzz [Sample.gastro] Sample.targets
                (Sample.options None (Some true) (Some true)) Sample.fresh
                (fst run) result eq_refl) with (m := Sample.top) as [H _].
    + rewrite <- Hresult. apply surjective_pairing.
    + exact Hin.
    + exact (H "A" "SM12" eq_refl eq_refl).
Defined.

Lemma generateMappings_keeps_rows_witness :
  In Sample.top_row
     (Db.rows (db (fst (generateMappings Sample.fuzz [Sample.gastro] Sample.targets
                                         (Sample.options None None None)
                                         Fixture.seeded)))).
Proof.
  apply generateMappings_keeps_rows; [left; reflexivity | left; reflexivity].
Defined.

Lemma stats_buckets_witness :
  List.length (MappingStats.highConfidence [Sample.top_row])
  + List.length (MappingStats.mediumConfidence [Sample.top_row])
  + List.length (MappingStats.lowConfidence [Sample.top_row])
  = 1.
Proof.
  destruct (stats_buckets [Sample.top_row]
              (Forall_cons _ (eq_refl : PrimFloat.is_nan (Db.confidence Sample.top_row) = false)
                           (Forall_nil _)))
    as (_ & _ & _ & H).
  symmetry. exact H.
Defined.

Lemma ingestCSV_keeps_codes_witness :
  NoDup (map Fhir.code
             (Fhir.namaste_codes
                (fst (Fhir.ingestCSV [Fixture.vata; Fixture.pitta] Fixture.retired))))
  /\ extends (Fhir.namaste_codes Fixture.retired)
             (Fhir.namaste_codes
                (fst (Fhir.ingestCSV [Fixture.vata; Fixture.pitta] Fixture.retired))).
Proof.
  apply ingestCSV_keeps_codes.
  simpl. constructor; [intros [] | constructor].
Defined.

Lemma validated_file_ingests_witness :
  Fhir.errors (snd (Fhir.ingestCSV [Fixture.vata; Fixture.pitta] Fixture.retired)) = []
  /\ Fhir.inserted (snd (Fhir.ingestCSV [Fixture.vata; Fixture.pitta] Fixture.retired))
     + Fhir.updated (snd (Fhir.ingestCSV [Fixture.vata; Fixture.pitta] Fixture.retired))
     = 2
  /\ 0 < Fhir.inserted (snd (Fhir.ingestCSV [Fixture.vata; Fixture.pitta] Fixture.retired))
         + Fhir.updated (snd (Fhir.ingestCSV [Fixture.vata; Fixture.pitta] Fixture.retired)).
Proof.
  exact (validated_file_ingests [Fixture.vata; Fixture.pitta] Fixture.retired eq_refl).
Defined.

Lemma ingestCSV_then_lookupCode_witness :
  Fhir.lookupCode Fhir.namaste_url "AYU001"
                  (fst (Fhir.ingestCSV [Fixture.pitta; Fixture.vata] Fixture.empty))
  = inr (Some (Fhir.parameters "AYU001" "Vata Dosha Imbalance" "Ayurveda"
                               "General Medicine" None)).
Proof.
  exact (ingestCSV_then_lookupCode [Fixture.pitta] [] Fixture.vata Fixture.empty
           eq_refl
           (fun later (H : In later []) => match H with end)
           (fun r (H : In r []) => match H with end)).
Defined.

Lemma processRawData_codes_witness :
  (exists s, Parser.code Fixture.parsed = JS.Str s
             /\ s <> "" /\ s <> "-" /\ JS.trim s = s)
  /\ (exists n, Parser.namc_id Fixture.parsed = JS.Str n)
  /\ JS.truthy (Parser.display Fixture.parsed) = true
  /\ Parser.specialty Fixture.parsed = "Ayurveda"
  /\ Parser.system_name Fixture.parsed = "AYUSH".
Proof.
  apply (processRawData_codes Fixture.String_of_number Fixture.workbook).
  left. reflexivity.
Defined.

Lemma parsed_codes_generate_witness :
  snd (generateMappings Sample.fuzz
         (map Parser.as_code
              (Parser.processRawData Fixture.String_of_number Fixture.workbook))
         Sample.targets (Sample.options None (Some true) (Some true)) Sample.fresh)
  = inr (aggregate
           (planned Sample.fuzz
              (map Parser.as_code
                   (Parser.processRawData Fixture.String_of_number Fixture.workbook))
              Sample.targets 3%Z)).
Proof.
  apply (parsed_codes_generate Sample.fuzz Fixture.String_of_number Fixture.workbook
           Sample.targets (Sample.options None (Some true) (Some true)) Sample.fresh).
  repeat (constructor; [eexists; reflexivity | ]). constructor.
Defined.

Example processRawData_sample :
  Parser.processRawData Fixture.String_of_number Fixture.workbook
  = [Fixture.parsed].
Proof. reflexivity. Qed.

Example validateNAMASTECSV_sample :
  Csv.errors
    (Csv.validateNAMASTECSV
       [ Fixture.vata;
         {| Csv.code := JS.Str "ayu1";
            Csv.display := JS.Str "  ";
            Csv.system := JS.Str "Yoga";
            Csv.specialty := JS.Undefined;
            Csv.description := JS.Undefined |} ])
  = [ "Row 2: Missing or empty display";
      "Row 2: Invalid code format. Expected format: ABC123 (3 letters + 3 numbers)";
      "Row 2: Invalid system. Must be one of: Ayurveda, Siddha, Unani" ].
Proof. reflexivity. Qed.
